(** * MiniECS: a shallow embedding of [src/ECS/ECS.h]

    The development follows the header top-down: integer types and the
    entity-identity helpers, the process-wide component-type counter, the
    component pool, [World] with its entity lifecycle and component
    operations, and the masked query iterator [RosterView].  Theorems about
    these definitions come after all of them. *)

From Stdlib Require Import ZArith Lia Bool Sorted.
From stdpp Require Import base option list gmap strings.

Local Open Scope Z_scope.

(** ** Outcomes of a call

    Besides a normal return, the source can raise [std::out_of_range] (the
    checked [std::bitset] members [set], [reset(pos)] and [test]) or run into
    undefined behaviour (unchecked [std::vector::operator[]], writes past the
    pool arena, signed overflow).  Loops of the source are modelled with a
    fuel argument; [OutOfFuel] is not a behaviour of the program. *)

Inductive Result (A : Type) : Type :=
| Ok (a : A)
| Throw
| Undefined
| OutOfFuel.

Arguments Ok {A} a.
Arguments Throw {A}.
Arguments Undefined {A}.
Arguments OutOfFuel {A}.

#[global] Instance Result_ret : MRet Result := @Ok.

#[global] Instance Result_bind : MBind Result := fun A B f r =>
  match r with
  | Ok a => f a
  | Throw => Throw
  | Undefined => Undefined
  | OutOfFuel => OutOfFuel
  end.

(** ** Integer types *)

Definition MAX_COMPONENTS : Z := 64.
Definition MAX_ENTITIES : Z := 1000000.

(** [unsigned int] and [unsigned long long] values are integers reduced
    modulo 2^32 and 2^64. *)
Definition wrap32 (z : Z) : Z := z mod 2 ^ 32.
Definition wrap64 (z : Z) : Z := z mod 2 ^ 64.

(** Largest [int]; incrementing it is undefined. *)
Definition INT_MAX : Z := 2 ^ 31 - 1.

Definition ComponentID := Z.
Definition EntityIndex := Z.
Definition EntityVersion := Z.
Definition EntityID := Z.

(** ** Entity identity (the helpers of the anonymous namespace) *)

(** [((EntityID)index << 32) | ((EntityID)version)] *)
Definition CreateEntityId (index : EntityIndex) (version : EntityVersion) : EntityID :=
  Z.lor (wrap64 (Z.shiftl index 32)) version.

(** [return id >> 32;] converted to [EntityIndex] *)
Definition GetEntityIndex (id : EntityID) : EntityIndex :=
  wrap32 (Z.shiftr id 32).

(** [return (EntityVersion)id;] *)
Definition GetEntityVersion (id : EntityID) : EntityVersion :=
  wrap32 id.

(** [return (id >> 32) != EntityIndex(-1);] *)
Definition IsEntityValid (id : EntityID) : bool :=
  negb (Z.shiftr id 32 =? wrap32 (-1)).

Definition INVALID_ENTITY : EntityID := CreateEntityId (wrap32 (-1)) 0.

(** ** [std::bitset<MAX_COMPONENTS>]

    A mask is the integer whose binary digits are the bits of the set. *)

Definition ComponentMask := Z.

Definition bitset_empty : ComponentMask := 0.

Definition bitset_set (m : ComponentMask) (pos : Z) : Result ComponentMask :=
  if pos <? MAX_COMPONENTS then Ok (Z.lor m (Z.shiftl 1 pos)) else Throw.

Definition bitset_reset_pos (m : ComponentMask) (pos : Z) : Result ComponentMask :=
  if pos <? MAX_COMPONENTS then Ok (Z.ldiff m (Z.shiftl 1 pos)) else Throw.

Definition bitset_test (m : ComponentMask) (pos : Z) : Result bool :=
  if pos <? MAX_COMPONENTS then Ok (Z.testbit m pos) else Throw.

(** ** The component-type counter

    [s_componentCounter] is one variable for the whole process, and every
    instantiation [GetId<T>] owns a function-local static [s_componentId]
    that is initialised by the first call.  Component types are named by
    strings. *)

Record Globals := mkGlobals {
  s_componentCounter : ComponentID;
  s_componentId : gmap string ComponentID
}.

Definition initial_globals : Globals :=
  {| s_componentCounter := 0; s_componentId := ∅ |}.

Definition GetId (T : string) (g : Globals) : ComponentID * Globals :=
  match s_componentId g !! T with
  | Some c => (c, g)
  | None =>
      (s_componentCounter g,
       {| s_componentCounter := wrap64 (s_componentCounter g + 1);
          s_componentId := <[T := s_componentCounter g]> (s_componentId g) |})
  end.

(** ** Component pool

    The arena is addressed by byte offset; an offset maps to the object
    that placement [new] constructed there.  An object is kept as its
    bytes. *)

Definition Payload := list Byte.byte.

Record ComponentPool := mkPool {
  m_elementSize : Z;
  m_data : gmap Z Payload
}.

(** [new ComponentPool(elementSize)]: the arena starts without objects. *)
Definition ComponentPool_new (elementSize : Z) : ComponentPool :=
  {| m_elementSize := elementSize; m_data := ∅ |}.

(** A non-null [T*]: the pool it points into and the byte offset. *)
Record Ptr := mkPtr {
  ptr_pool : ComponentID;
  ptr_offset : Z
}.

(** [&m_data[index * m_elementSize]] *)
Definition ComponentPool_Get (pool : ComponentPool) (index : Z) : Z :=
  wrap64 (index * m_elementSize pool).

(** ** World *)

Record EntityDesc := mkDesc {
  m_id : EntityID;
  m_mask : ComponentMask
}.

Record World := mkWorld {
  m_entities : list EntityDesc;
  m_freeEntities : list EntityIndex;
  m_componentPools : list (option ComponentPool)
}.

(** [World() = default] *)
Definition World_new : World :=
  {| m_entities := []; m_freeEntities := []; m_componentPools := [] |}.

(** [v[i]] of a [std::vector]: no bounds check. *)
Definition vec_at {A : Type} (v : list A) (i : Z) : Result A :=
  match v !! Z.to_nat i with
  | Some x => Ok x
  | None => Undefined
  end.

(** [v[i].field = ...] *)
Definition vec_update {A : Type} (v : list A) (i : Z) (f : A -> A) : Result (list A) :=
  x ← vec_at v i; Ok (<[Z.to_nat i := f x]> v).

(** [v.back()] together with [v.pop_back()] *)
Definition pop_back {A : Type} (v : list A) : option (A * list A) :=
  match last v with
  | Some x => Some (x, removelast v)
  | None => None
  end.

Definition set_id (newID : EntityID) (d : EntityDesc) : EntityDesc :=
  {| m_id := newID; m_mask := m_mask d |}.

Definition set_mask (m : ComponentMask) (d : EntityDesc) : EntityDesc :=
  {| m_id := m_id d; m_mask := m |}.

Definition vlen {A : Type} (v : list A) : Z := Z.of_nat (length v).

Definition NewEntity (w : World) : Result (World * EntityID) :=
  match pop_back (m_freeEntities w) with
  | Some (newIndex, free') =>
      d ← vec_at (m_entities w) newIndex;
      let newID := CreateEntityId newIndex (GetEntityVersion (m_id d)) in
      ents ← vec_update (m_entities w) newIndex (set_id newID);
      d' ← vec_at ents newIndex;
      Ok ({| m_entities := ents;
             m_freeEntities := free';
             m_componentPools := m_componentPools w |}, m_id d')
  | None =>
      let id := CreateEntityId (wrap32 (vlen (m_entities w))) 0 in
      Ok ({| m_entities := m_entities w ++ [ {| m_id := id; m_mask := bitset_empty |} ];
             m_freeEntities := m_freeEntities w;
             m_componentPools := m_componentPools w |}, id)
  end.

Definition DestroyEntity (id : EntityID) (w : World) : Result World :=
  let newID := CreateEntityId (wrap32 (-1)) (wrap32 (GetEntityVersion id + 1)) in
  ents1 ← vec_update (m_entities w) (GetEntityIndex id) (set_id newID);
  ents2 ← vec_update ents1 (GetEntityIndex id) (set_mask bitset_empty);
  Ok {| m_entities := ents2;
        m_freeEntities := m_freeEntities w ++ [GetEntityIndex (GetEntityIndex id)];
        m_componentPools := m_componentPools w |}.

(** [Assign<T>(id, args...)].  [sizeofT] is [sizeof(T)] and [v] the object
    that the selected constructor ([T(args...)], or [T()] when [T] is not
    constructible from the arguments) builds.  The result carries the
    returned pointer, [None] for [nullptr]. *)
Definition Assign (T : string) (sizeofT : Z) (v : Payload) (id : EntityID)
    (g : Globals) (w : World) : Result (Globals * World * option Ptr) :=
  let '(componentId, g) := GetId T g in
  d ← vec_at (m_entities w) (GetEntityIndex id);
  if negb (m_id d =? id) then Ok (g, w, None)
  else
    let pools1 :=
      if vlen (m_componentPools w) <=? componentId
      then resize (Z.to_nat (componentId + 1)) None (m_componentPools w)
      else m_componentPools w in
    p ← vec_at pools1 componentId;
    pools2 ← match p with
             | None => vec_update pools1 componentId
                         (fun _ => Some (ComponentPool_new sizeofT))
             | Some _ => Ok pools1
             end;
    p' ← vec_at pools2 componentId;
    match p' with
    | None => Undefined
    | Some pool =>
        (* placement new into the arena of MAX_ENTITIES elements *)
        if MAX_ENTITIES <=? GetEntityIndex id then Undefined
        else
          let comp := ComponentPool_Get pool (GetEntityIndex id) in
          let pool' := {| m_elementSize := m_elementSize pool;
                          m_data := <[comp := v]> (m_data pool) |} in
          pools3 ← vec_update pools2 componentId (fun _ => Some pool');
          d' ← vec_at (m_entities w) (GetEntityIndex id);
          m ← bitset_set (m_mask d') componentId;
          ents ← vec_update (m_entities w) (GetEntityIndex id) (set_mask m);
          Ok (g,
              {| m_entities := ents;
                 m_freeEntities := m_freeEntities w;
                 m_componentPools := pools3 |},
              Some {| ptr_pool := componentId; ptr_offset := comp |})
    end.

(** [Remove<T>(id)] *)
Definition Remove (T : string) (id : EntityID) (g : Globals) (w : World)
    : Result (Globals * World) :=
  d ← vec_at (m_entities w) (GetEntityIndex id);
  if negb (m_id d =? id) then Ok (g, w)
  else
    let '(componentId, g) := GetId T g in
    d' ← vec_at (m_entities w) (GetEntityIndex id);
    m ← bitset_reset_pos (m_mask d') componentId;
    ents ← vec_update (m_entities w) (GetEntityIndex id) (set_mask m);
    Ok (g,
        {| m_entities := ents;
           m_freeEntities := m_freeEntities w;
           m_componentPools := m_componentPools w |}).

(** [Get<T>(id)] *)
Definition Get (T : string) (id : EntityID) (g : Globals) (w : World)
    : Result (Globals * option Ptr) :=
  let '(componentId, g) := GetId T g in
  d ← vec_at (m_entities w) (GetEntityIndex id);
  b ← bitset_test (m_mask d) componentId;
  if negb b then Ok (g, None)
  else if componentId <? vlen (m_componentPools w) then
    p ← vec_at (m_componentPools w) componentId;
    match p with
    | Some pool =>
        Ok (g, Some {| ptr_pool := componentId;
                       ptr_offset := ComponentPool_Get pool (GetEntityIndex id) |})
    | None => Ok (g, None)
    end
  else Ok (g, None).

(** [Has<T>(id)]: [!(Get<T>(id) == nullptr)] *)
Definition Has (T : string) (id : EntityID) (g : Globals) (w : World)
    : Result (Globals * bool) :=
  '(g, p) ← Get T id g w;
  Ok (g, negb (bool_decide (p = None))).

(** [All()] *)
Definition All (w : World) : list EntityDesc := m_entities w.

(** ** RosterView

    [m_rosterPtr] points to a [World] that the view only reads; the
    operations below take that world as an argument.  The template
    parameter pack [ComponentTypes...] is the list [Ts]. *)

Record RosterView := mkView {
  m_index : EntityIndex;
  m_componentMask : ComponentMask;
  m_all : bool
}.

(** The pack expansion [GetId<ComponentTypes>() ...] inside a braced
    initialiser: left to right. *)
Fixpoint GetIds (Ts : list string) (g : Globals) : list ComponentID * Globals :=
  match Ts with
  | [] => ([], g)
  | T :: Ts' =>
      let '(c, g1) := GetId T g in
      let '(cs, g2) := GetIds Ts' g1 in
      (c :: cs, g2)
  end.

(** [for (ComponentID componentId : componentIds) m_componentMask.set(componentId);] *)
Fixpoint set_each (componentIds : list ComponentID) (m : ComponentMask)
    : Result ComponentMask :=
  match componentIds with
  | [] => Ok m
  | componentId :: rest => m' ← bitset_set m componentId; set_each rest m'
  end.

(** [RosterView(World& roster)] *)
Definition RosterView_ctor (Ts : list string) (g : Globals)
    : Result (Globals * RosterView) :=
  if (length Ts =? 0)%nat then
    Ok (g, {| m_index := 0; m_componentMask := bitset_empty; m_all := true |})
  else
    let '(ids, g) := GetIds Ts g in
    let componentIds := 0 :: ids in
    m ← set_each componentIds bitset_empty;
    Ok (g, {| m_index := 0; m_componentMask := m; m_all := false |}).

(** The private [RosterView(World&, EntityIndex, ComponentMask)], which
    delegates to the public constructor before it assigns. *)
Definition RosterView_ctor_at (Ts : list string) (index : EntityIndex)
    (mask : ComponentMask) (g : Globals) : Result (Globals * RosterView) :=
  '(g, v) ← RosterView_ctor Ts g;
  Ok (g, {| m_index := index; m_componentMask := mask; m_all := m_all v |}).

(** [operator*] *)
Definition RosterView_deref (w : World) (v : RosterView) : Result EntityID :=
  d ← vec_at (All w) (m_index v); Ok (m_id d).

(** [operator!=] *)
Definition RosterView_neq (w : World) (v other : RosterView) : bool :=
  negb (m_index v =? m_index other) && negb (m_index v =? vlen (All w)).

(** [operator==] *)
Definition RosterView_eq (w : World) (v other : RosterView) : bool :=
  (m_index v =? m_index other) || (m_index v =? vlen (All w)).

(** [ValidIndex()] *)
Definition ValidIndex (w : World) (v : RosterView) : Result bool :=
  d ← vec_at (All w) (m_index v);
  let validEntity := IsEntityValid (m_id d) in
  let validComponentMask :=
    m_all v || (m_componentMask v =? Z.land (m_componentMask v) (m_mask d)) in
  Ok (validEntity && validComponentMask).

(** [operator++]: the body of the do-while runs once per unit of fuel. *)
Fixpoint RosterView_incr (fuel : nat) (w : World) (v : RosterView)
    : Result RosterView :=
  match fuel with
  | O => OutOfFuel
  | S fuel' =>
      let v' := {| m_index := wrap32 (m_index v + 1);
                   m_componentMask := m_componentMask v;
                   m_all := m_all v |} in
      if m_index v' <? vlen (All w) then
        ok ← ValidIndex w v';
        if negb ok then RosterView_incr fuel' w v' else Ok v'
      else Ok v'
  end.

(** The [while] of [begin()]; [firstIndex] is an [int]. *)
Fixpoint begin_scan (fuel : nat) (w : World) (mask : ComponentMask)
    (firstIndex : Z) : Result Z :=
  if firstIndex <? vlen (All w) then
    d ← vec_at (All w) firstIndex;
    if negb (mask =? Z.land mask (m_mask d)) || negb (IsEntityValid (m_id d)) then
      match fuel with
      | O => OutOfFuel
      | S fuel' =>
          if firstIndex =? INT_MAX then Undefined
          else begin_scan fuel' w mask (firstIndex + 1)
      end
    else Ok firstIndex
  else Ok firstIndex.

(** [begin()] *)
Definition RosterView_begin (Ts : list string) (fuel : nat) (w : World)
    (v : RosterView) (g : Globals) : Result (Globals * RosterView) :=
  firstIndex ← begin_scan fuel w (m_componentMask v) 0;
  RosterView_ctor_at Ts (wrap32 firstIndex) (m_componentMask v) g.

(** [end()] *)
Definition RosterView_end (Ts : list string) (w : World) (v : RosterView)
    (g : Globals) : Result (Globals * RosterView) :=
  RosterView_ctor_at Ts (wrap32 (vlen (All w))) (m_componentMask v) g.

(** The range-based [for] over a view: [for (; b != e; ++b) { ... *b ... }].
    Each visit is recorded as the iterator's position and the handle it
    dereferences to. *)
Fixpoint range_loop (fuel : nat) (w : World) (b e : RosterView)
    : Result (list (EntityIndex * EntityID)) :=
  if RosterView_neq w b e then
    match fuel with
    | O => OutOfFuel
    | S fuel' =>
        entity ← RosterView_deref w b;
        b' ← RosterView_incr (S fuel') w b;
        rest ← range_loop fuel' w b' e;
        Ok ((m_index b, entity) :: rest)
    end
  else Ok [].

(** [for (auto entity : RosterView<Ts...>(w))]: construct the view, take
    [begin()] and [end()], traverse. *)
Definition query_visits (Ts : list string) (fuel : nat) (g : Globals) (w : World)
    : Result (Globals * list (EntityIndex * EntityID)) :=
  '(g, range) ← RosterView_ctor Ts g;
  '(g, b) ← RosterView_begin Ts fuel w range g;
  '(g, e) ← RosterView_end Ts w range g;
  visits ← range_loop fuel w b e;
  Ok (g, visits).

(** The handles a range-based [for] hands to its body, in order. *)
Definition query (Ts : list string) (fuel : nat) (g : Globals) (w : World)
    : Result (Globals * list EntityID) :=
  '(g, visits) ← query_visits Ts fuel g w;
  Ok (g, visits.*2).

(** ** Client programs

    A client of the header is a sequence of calls on one [World].  Running
    it keeps a log of the calls with what they returned, most recent call
    first.  A call that throws or is undefined ends the run. *)

Inductive Op :=
| OpNewEntity
| OpDestroyEntity (id : EntityID)
| OpAssign (T : string) (sizeofT : Z) (v : Payload) (id : EntityID)
| OpRemove (T : string) (id : EntityID)
| OpGet (T : string) (id : EntityID)
| OpHas (T : string) (id : EntityID)
| OpQuery (Ts : list string) (fuel : nat).

Inductive Event :=
| EvNewEntity (ret : EntityID)
| EvDestroyEntity (id : EntityID)
| EvAssign (T : string) (id : EntityID) (ret : option Ptr)
| EvRemove (T : string) (id : EntityID)
| EvGet (T : string) (id : EntityID) (ret : option Ptr)
| EvHas (T : string) (id : EntityID) (ret : bool)
| EvQuery (Ts : list string) (ret : list EntityID).

Definition exec (op : Op) (g : Globals) (w : World)
    : Result (Globals * World * Event) :=
  match op with
  | OpNewEntity =>
      '(w, id) ← NewEntity w; Ok (g, w, EvNewEntity id)
  | OpDestroyEntity id =>
      w ← DestroyEntity id w; Ok (g, w, EvDestroyEntity id)
  | OpAssign T sizeofT v id =>
      '(g, w, p) ← Assign T sizeofT v id g w; Ok (g, w, EvAssign T id p)
  | OpRemove T id =>
      '(g, w) ← Remove T id g w; Ok (g, w, EvRemove T id)
  | OpGet T id =>
      '(g, p) ← Get T id g w; Ok (g, w, EvGet T id p)
  | OpHas T id =>
      '(g, b) ← Has T id g w; Ok (g, w, EvHas T id b)
  | OpQuery Ts fuel =>
      '(g, l) ← query Ts fuel g w; Ok (g, w, EvQuery Ts l)
  end.

Fixpoint run (ops : list Op) (g : Globals) (w : World) (log : list Event)
    : Result (Globals * World * list Event) :=
  match ops with
  | [] => Ok (g, w, log)
  | op :: ops' =>
      '(g, w, ev) ← exec op g w;
      run ops' g w (ev :: log)
  end.

(** A program run from process start on a fresh [World]. *)
Definition run_main (ops : list Op) : Result (Globals * World * list Event) :=
  run ops initial_globals World_new [].

(** ** Auxiliary definitions for the statements *)

(** [newID] of [DestroyEntity]: the handle it leaves in the slot. *)
Definition destroyed_id (id : EntityID) : EntityID :=
  CreateEntityId (wrap32 (-1)) (wrap32 (GetEntityVersion id + 1)).

(** The index that marks a destroyed slot, [EntityIndex(-1)]. *)
Definition INVALID_INDEX : EntityIndex := 2 ^ 32 - 1.

(** The test that both [ValidIndex] and the loop of [begin()] apply to a
    slot. *)
Definition qualifies (mask : ComponentMask) (all : bool) (d : EntityDesc) : bool :=
  IsEntityValid (m_id d) && (all || (mask =? Z.land mask (m_mask d))).

(** Closed forms of the scanning loops over the slots [i], [i+1], ...
    held in [slots]: the first position that qualifies (the position after
    the last slot if none does), and all positions that qualify, each with
    the handle stored there. *)
Fixpoint first_valid (mask : ComponentMask) (all : bool) (i : Z)
    (slots : list EntityDesc) : Z :=
  match slots with
  | [] => i
  | d :: rest =>
      if qualifies mask all d then i else first_valid mask all (i + 1) rest
  end.

Fixpoint visits_from (mask : ComponentMask) (all : bool) (i : Z)
    (slots : list EntityDesc) : list (EntityIndex * EntityID) :=
  match slots with
  | [] => []
  | d :: rest =>
      if qualifies mask all d
      then (i, m_id d) :: visits_from mask all (i + 1) rest
      else visits_from mask all (i + 1) rest
  end.

(** ** History of a handle in a log

    [attaches T h ev]: the call recorded as [ev] is an [Assign<T>(h, ...)]
    that returned a pointer.  [detaches T h ev]: it is a [Remove<T>(h)], or
    a [DestroyEntity] on a handle with the index of [h].
    [detaches_same T h ev] is the narrower reading that counts a
    [DestroyEntity] only when it is called on [h] itself. *)

Definition attaches (T : string) (h : EntityID) (ev : Event) : bool :=
  match ev with
  | EvAssign T' id (Some _) => bool_decide (T' = T) && (id =? h)
  | _ => false
  end.

Definition detaches (T : string) (h : EntityID) (ev : Event) : bool :=
  match ev with
  | EvRemove T' id => bool_decide (T' = T) && (id =? h)
  | EvDestroyEntity id => GetEntityIndex id =? GetEntityIndex h
  | _ => false
  end.

Definition detaches_same (T : string) (h : EntityID) (ev : Event) : bool :=
  match ev with
  | EvRemove T' id => bool_decide (T' = T) && (id =? h)
  | EvDestroyEntity id => id =? h
  | _ => false
  end.

(** In the log (most recent call first) there is a successful
    [Assign<T>(h, ...)] with no detaching call after it. *)
Definition attached (detach : Event -> bool) (T : string) (h : EntityID)
    (log : list Event) : Prop :=
  exists newer ev older,
    log = newer ++ ev :: older /\
    attaches T h ev = true /\
    forallb (fun e => negb (detach e)) newer = true.

(** The same, as a scan of the log from the most recent call. *)
Fixpoint attachedb (T : string) (h : EntityID) (log : list Event) : bool :=
  match log with
  | [] => false
  | ev :: older =>
      if attaches T h ev then true
      else if detaches T h ev then false
      else attachedb T h older
  end.

(** ** Invariants of a run *)

(** The type counter counts the registered types, which have distinct
    identities below it. *)
Record RegInv (g : Globals) : Prop := {
  reg_counter : s_componentCounter g = Z.of_nat (size (s_componentId g));
  reg_range : forall T c, s_componentId g !! T = Some c ->
                0 <= c < Z.of_nat (size (s_componentId g));
  reg_inj : forall T T' c, s_componentId g !! T = Some c ->
              s_componentId g !! T' = Some c -> T = T'
}.

(** Every slot stores a 64-bit handle whose index is the slot's own or the
    invalid one; a slot with the invalid index has an empty mask; the free
    list holds zeros only; a bit set in a mask is the identity of a
    registered type whose pool exists. *)
Record WorldInv (g : Globals) (w : World) : Prop := {
  wi_range : forall (i : nat) d, m_entities w !! i = Some d ->
               0 <= m_id d < 2 ^ 64;
  wi_index : forall (i : nat) d, m_entities w !! i = Some d ->
               GetEntityIndex (m_id d) = Z.of_nat i \/
               GetEntityIndex (m_id d) = INVALID_INDEX;
  wi_dead : forall (i : nat) d, m_entities w !! i = Some d ->
              GetEntityIndex (m_id d) = INVALID_INDEX -> m_mask d = bitset_empty;
  wi_free : forall x, x ∈ m_freeEntities w -> x = 0;
  wi_bits : forall (i : nat) d c, m_entities w !! i = Some d ->
              Z.testbit (m_mask d) c = true ->
              (exists T, s_componentId g !! T = Some c) /\
              (exists pool, m_componentPools w !! Z.to_nat c = Some (Some pool))
}.

(** The slot addressed by [h] stores [h], and the bit of [T]'s identity is
    set in its mask. *)
Definition has_bit (g : Globals) (w : World) (T : string) (h : EntityID) : Prop :=
  exists c d, s_componentId g !! T = Some c /\
              m_entities w !! Z.to_nat (GetEntityIndex h) = Some d /\
              m_id d = h /\
              Z.testbit (m_mask d) c = true.

(** That is the case exactly when the log has an attachment of [T] to [h]
    that is still in force. *)
Definition AttInv (g : Globals) (w : World) (log : list Event) : Prop :=
  forall T h, attachedb T h log = true <-> has_bit g w T h.

(** The ceilings of the header: entities per world, component types per
    process. *)
Definition within_ceilings (g : Globals) (w : World) : Prop :=
  vlen (m_entities w) <= MAX_ENTITIES /\
  Z.of_nat (size (s_componentId g)) <= MAX_COMPONENTS.

(** The three invariants together. *)
Definition Inv (g : Globals) (w : World) (log : list Event) : Prop :=
  RegInv g /\ WorldInv g w /\ AttInv g w log.

(** ** Proof automation *)

(** Case analysis on every step of a computation that returned. *)
Ltac bind_inv H :=
  repeat match type of H with
  | (match ?x with _ => _ end) = Ok _ =>
      let E := fresh "E" in destruct x eqn:E; try discriminate H
  | mbind _ ?x = Ok _ =>
      let E := fresh "E" in destruct x eqn:E; cbn [mbind Result_bind] in H;
      try discriminate H
  | (let '(_, _) := ?x in _) = Ok _ =>
      let E := fresh "E" in destruct x eqn:E
  | (if ?x then _ else _) = Ok _ =>
      let E := fresh "E" in destruct x eqn:E; try discriminate H
  end.

(** Closes a goal that is immediate from the context. *)
Ltac fin :=
  solve [ trivial | reflexivity | eassumption | contradiction | discriminate
        | repeat split; trivial | tauto ].

(** The pool that [Assign] uses for the identity [c]: the one already in
    the pool vector, or the one it allocates for elements of [sizeofT]
    bytes. *)
Definition pool_of (pools : list (option ComponentPool)) (c : ComponentID)
    (sizeofT : Z) : ComponentPool :=
  match pools !! Z.to_nat c with
  | Some (Some pool) => pool
  | _ => ComponentPool_new sizeofT
  end.

(** ** The client's side of a run *)

(** [l] without the first occurrence of [x]. *)
Fixpoint remove_first (x : EntityID) (l : list EntityID) : list EntityID :=
  match l with
  | [] => []
  | y :: l' => if y =? x then l' else y :: remove_first x l'
  end.

(** The handles a client holds after the calls of a log (most recent call
    first): one for each [NewEntity] that returned it, less one for each
    [DestroyEntity] called with it.  [None] when some call was made with a
    handle the client did not hold at that moment. *)
Fixpoint held (log : list Event) : option (list EntityID) :=
  match log with
  | [] => Some []
  | ev :: older =>
      match held older with
      | None => None
      | Some hs =>
          match ev with
          | EvNewEntity ret => Some (ret :: hs)
          | EvDestroyEntity id =>
              if bool_decide (id ∈ hs) then Some (remove_first id hs) else None
          | EvAssign _ id _ | EvRemove _ id | EvGet _ id _ | EvHas _ id _ =>
              if bool_decide (id ∈ hs) then Some hs else None
          | EvQuery _ _ => Some hs
          end
      end
  end.

(** The slot addressed by [id] exists and stores [id]. *)
Definition stored (id : EntityID) (w : World) : bool :=
  match m_entities w !! Z.to_nat (GetEntityIndex id) with
  | Some d => m_id d =? id
  | None => false
  end.

(** Every [DestroyEntity] of the program is called with the handle that the
    addressed slot stores at that moment. *)
Fixpoint destroys_stored (ops : list Op) (g : Globals) (w : World) : bool :=
  match ops with
  | [] => true
  | op :: ops' =>
      match op with
      | OpDestroyEntity id => stored id w
      | _ => true
      end &&
      match exec op g w with
      | Ok (g', w', _) => destroys_stored ops' g' w'
      | _ => true
      end
  end.

(** The scan of [attachedb] with the detaching calls given by [detach]. *)
Fixpoint attached_scan (detach : Event -> bool) (T : string) (h : EntityID)
    (log : list Event) : bool :=
  match log with
  | [] => false
  | ev :: older =>
      if attaches T h ev then true
      else if detach ev then false
      else attached_scan detach T h older
  end.
Lemma wrap32_range z : 0 <= wrap32 z < 2 ^ 32.
Proof. unfold wrap32. apply Z.mod_pos_bound. lia. Qed.

Lemma wrap64_range z : 0 <= wrap64 z < 2 ^ 64.
Proof. unfold wrap64. apply Z.mod_pos_bound. lia. Qed.

Lemma wrap32_small z : 0 <= z < 2 ^ 32 -> wrap32 z = z.
Proof. intros H. unfold wrap32. apply Z.mod_small. lia. Qed.

Lemma wrap64_small z : 0 <= z < 2 ^ 64 -> wrap64 z = z.
Proof. intros H. unfold wrap64. apply Z.mod_small. lia. Qed.

Lemma GetEntityIndex_range id : 0 <= GetEntityIndex id < 2 ^ 32.
Proof. apply wrap32_range. Qed.

Lemma GetEntityVersion_range id : 0 <= GetEntityVersion id < 2 ^ 32.
Proof. apply wrap32_range. Qed.

Lemma GetEntityIndex_twice id : GetEntityIndex (GetEntityIndex id) = 0.
Proof.
  unfold GetEntityIndex at 1.
  rewrite Z.shiftr_div_pow2 by lia.
  rewrite Z.div_small by apply GetEntityIndex_range.
  reflexivity.
Qed.

Lemma CreateEntityId_sum i v :
  0 <= i < 2 ^ 32 -> 0 <= v < 2 ^ 32 -> CreateEntityId i v = i * 2 ^ 32 + v.
Proof.
  intros Hi Hv. unfold CreateEntityId.
  rewrite Z.shiftl_mul_pow2 by lia.
  rewrite wrap64_small by lia.
  symmetry. apply Z.add_nocarry_lor.
  apply Z.bits_inj'. intros n Hn.
  rewrite Z.land_spec, Z.bits_0.
  destruct (Z.lt_ge_cases n 32) as [Hlt | Hge].
  - rewrite Z.mul_pow2_bits_low by lia. reflexivity.
  - replace (Z.testbit v n) with false; [apply andb_false_r |].
    symmetry. destruct (Z.eq_dec v 0) as [-> | Hnz]; [apply Z.bits_0 |].
    apply Z.bits_above_log2; [lia |].
    apply Z.log2_lt_pow2; [lia |].
    apply Z.lt_le_trans with (2 ^ 32); [lia |].
    apply Z.pow_le_mono_r; lia.
Qed.

Lemma GetEntityIndex_Create i v :
  0 <= i < 2 ^ 32 -> 0 <= v < 2 ^ 32 -> GetEntityIndex (CreateEntityId i v) = i.
Proof.
  intros Hi Hv. rewrite CreateEntityId_sum by assumption.
  unfold GetEntityIndex. rewrite Z.shiftr_div_pow2 by lia.
  rewrite Z.div_add_l by lia. rewrite (Z.div_small v) by lia.
  rewrite Z.add_0_r. apply wrap32_small. assumption.
Qed.

Lemma GetEntityVersion_Create i v :
  0 <= i < 2 ^ 32 -> 0 <= v < 2 ^ 32 -> GetEntityVersion (CreateEntityId i v) = v.
Proof.
  intros Hi Hv. rewrite CreateEntityId_sum by assumption.
  unfold GetEntityVersion, wrap32.
  rewrite Z.add_comm, Z.mod_add by lia. apply Z.mod_small. lia.
Qed.

Lemma IsEntityValid_Create i v :
  0 <= i < 2 ^ 32 -> 0 <= v < 2 ^ 32 ->
  IsEntityValid (CreateEntityId i v) = negb (i =? 2 ^ 32 - 1).
Proof.
  intros Hi Hv. rewrite CreateEntityId_sum by assumption.
  unfold IsEntityValid. rewrite Z.shiftr_div_pow2 by lia.
  rewrite Z.div_add_l by lia. rewrite (Z.div_small v) by lia.
  rewrite Z.add_0_r. reflexivity.
Qed.

Lemma CreateEntityId_range i v :
  0 <= i < 2 ^ 32 -> 0 <= v < 2 ^ 32 -> 0 <= CreateEntityId i v < 2 ^ 64.
Proof. intros Hi Hv. rewrite CreateEntityId_sum by assumption. lia. Qed.

Lemma CreateEntityId_decode id :
  0 <= id < 2 ^ 64 -> CreateEntityId (GetEntityIndex id) (GetEntityVersion id) = id.
Proof.
  intros H. rewrite CreateEntityId_sum by (apply wrap32_range).
  unfold GetEntityIndex, GetEntityVersion, wrap32.
  rewrite Z.shiftr_div_pow2 by lia.
  rewrite (Z.mod_small (id / 2 ^ 32)).
  - pose proof (Z.div_mod id (2 ^ 32)). lia.
  - split; [apply Z.div_pos; lia |]. apply Z.div_lt_upper_bound; lia.
Qed.

(** ** Outcomes *)

Lemma Ok_inj {A : Type} (a b : A) : Ok a = Ok b -> a = b.
Proof. intros H. injection H. auto. Qed.

Lemma Ok_inj2 {A B : Type} (a a' : A) (b b' : B) :
  Ok (a, b) = Ok (a', b') -> a = a' /\ b = b'.
Proof. intros H. injection H. auto. Qed.

Lemma Ok_inj3 {A B C : Type} (a a' : A) (b b' : B) (c c' : C) :
  Ok (a, b, c) = Ok (a', b', c') -> a = a' /\ b = b' /\ c = c'.
Proof. intros H. injection H. auto. Qed.

(** ** Vectors *)

Lemma vec_at_Ok {A : Type} (v : list A) (i : Z) (x : A) :
  vec_at v i = Ok x <-> v !! Z.to_nat i = Some x.
Proof.
  unfold vec_at. destruct (v !! Z.to_nat i) as [y |]; split; intros H;
    try discriminate; congruence.
Qed.

Lemma vec_at_lookup {A : Type} (v : list A) (i : Z) (x : A) :
  v !! Z.to_nat i = Some x -> vec_at v i = Ok x.
Proof. apply vec_at_Ok. Qed.

Lemma vec_at_in_range {A : Type} (v : list A) (i : Z) :
  0 <= i < vlen v -> exists x, vec_at v i = Ok x.
Proof.
  intros [Hlo Hhi]. unfold vlen in Hhi.
  destruct (lookup_lt_is_Some_2 v (Z.to_nat i)) as [x Hx]; [lia |].
  exists x. now apply vec_at_lookup.
Qed.

Lemma vec_at_out_of_range {A : Type} (v : list A) (i : Z) :
  vlen v <= i -> vec_at v i = Undefined.
Proof.
  intros H. unfold vec_at, vlen in *.
  rewrite lookup_ge_None_2; [reflexivity | lia].
Qed.

Lemma vec_update_Ok {A : Type} (v : list A) (i : Z) (f : A -> A) (x : A) :
  v !! Z.to_nat i = Some x ->
  vec_update v i f = Ok (<[Z.to_nat i := f x]> v).
Proof. intros H. unfold vec_update. now rewrite (vec_at_lookup _ _ _ H). Qed.

Lemma pop_back_snoc {A : Type} (v : list A) (x : A) :
  pop_back (v ++ [x]) = Some (x, v).
Proof. unfold pop_back. now rewrite last_snoc, removelast_last. Qed.

Lemma pop_back_nil {A : Type} : pop_back (@nil A) = None.
Proof. reflexivity. Qed.

Lemma pop_back_Some {A : Type} (v v' : list A) (x : A) :
  pop_back v = Some (x, v') -> v = v' ++ [x].
Proof.
  unfold pop_back. destruct (last v) as [y |] eqn:Hl; [| discriminate].
  intros [= <- <-]. apply last_Some in Hl as [l' ->].
  now rewrite removelast_last.
Qed.

(** ** DestroyEntity and NewEntity *)

Lemma DestroyEntity_Ok (w : World) (id : EntityID) (d : EntityDesc) :
  m_entities w !! Z.to_nat (GetEntityIndex id) = Some d ->
  DestroyEntity id w =
    Ok {| m_entities :=
            <[Z.to_nat (GetEntityIndex id) :=
                {| m_id := destroyed_id id; m_mask := bitset_empty |}]> (m_entities w);
          m_freeEntities := m_freeEntities w ++ [0];
          m_componentPools := m_componentPools w |}.
Proof.
  intros Hd. unfold DestroyEntity.
  rewrite (vec_update_Ok _ _ _ _ Hd). cbn [mbind Result_bind].
  pose proof (lookup_lt_Some _ _ _ Hd) as Hlt.
  erewrite vec_update_Ok by (apply list_lookup_insert_eq; exact Hlt).
  cbn [mbind Result_bind].
  rewrite list_insert_insert_eq, GetEntityIndex_twice. reflexivity.
Qed.

Lemma DestroyEntity_out_of_range (w : World) (id : EntityID) :
  vlen (m_entities w) <= GetEntityIndex id -> DestroyEntity id w = Undefined.
Proof.
  intros H. unfold DestroyEntity, vec_update.
  now rewrite vec_at_out_of_range.
Qed.

Lemma NewEntity_pop (w : World) (free' : list EntityIndex) (i : EntityIndex)
    (d : EntityDesc) :
  m_freeEntities w = free' ++ [i] ->
  m_entities w !! Z.to_nat i = Some d ->
  NewEntity w =
    Ok ({| m_entities :=
             <[Z.to_nat i := set_id (CreateEntityId i (GetEntityVersion (m_id d))) d]>
               (m_entities w);
           m_freeEntities := free';
           m_componentPools := m_componentPools w |},
        CreateEntityId i (GetEntityVersion (m_id d))).
Proof.
  intros Hfree Hd. unfold NewEntity. rewrite Hfree, pop_back_snoc.
  rewrite (vec_at_lookup _ _ _ Hd). cbn [mbind Result_bind].
  rewrite (vec_update_Ok _ _ _ _ Hd). cbn [mbind Result_bind].
  erewrite vec_at_lookup
    by (apply list_lookup_insert_eq; eapply lookup_lt_Some; exact Hd).
  reflexivity.
Qed.

Lemma NewEntity_append (w : World) :
  m_freeEntities w = [] ->
  NewEntity w =
    Ok ({| m_entities :=
             m_entities w ++
               [ {| m_id := CreateEntityId (wrap32 (vlen (m_entities w))) 0;
                    m_mask := bitset_empty |} ];
           m_freeEntities := [];
           m_componentPools := m_componentPools w |},
        CreateEntityId (wrap32 (vlen (m_entities w))) 0).
Proof. intros Hfree. unfold NewEntity. now rewrite Hfree. Qed.

Lemma destroyed_id_spec (id : EntityID) :
  destroyed_id id =
    CreateEntityId INVALID_INDEX ((GetEntityVersion id + 1) mod 2 ^ 32).
Proof. reflexivity. Qed.

Lemma destroyed_id_decode (id : EntityID) :
  GetEntityIndex (destroyed_id id) = INVALID_INDEX /\
  GetEntityVersion (destroyed_id id) = (GetEntityVersion id + 1) mod 2 ^ 32 /\
  IsEntityValid (destroyed_id id) = false.
Proof.
  rewrite destroyed_id_spec.
  assert (Hv : 0 <= (GetEntityVersion id + 1) mod 2 ^ 32 < 2 ^ 32)
    by (apply Z.mod_pos_bound; lia).
  assert (Hi : 0 <= INVALID_INDEX < 2 ^ 32) by (unfold INVALID_INDEX; lia).
  rewrite GetEntityIndex_Create, GetEntityVersion_Create, IsEntityValid_Create
    by assumption.
  repeat split.
Qed.

(** C10.  [DestroyEntity] pushes [GetEntityIndex(GetEntityIndex(id))] onto
    the free list, and extracting the index twice gives 0 for every handle.
    So for every handle whose index is inside the table, the destroy
    succeeds and appends 0 to the free list whatever the handle's index is,
    and the [NewEntity] that follows pops that 0 and returns a handle with
    index 0.  The returned handle can be the handle of an entity that is
    alive in slot 0: after two creations, destroying the entity of slot 1
    makes [NewEntity] return the handle of the entity of slot 0, which is
    still stored there and valid. *)
Theorem DestroyEntity_pushes_index_zero (w : World) (h : EntityID)
    (Hin : GetEntityIndex h < vlen (m_entities w)) :
  GetEntityIndex (GetEntityIndex h) = 0 /\
  (exists w', DestroyEntity h w = Ok w' /\
     m_freeEntities w' = m_freeEntities w ++ [0] /\
     exists w'' h', NewEntity w' = Ok (w'', h') /\
       m_freeEntities w'' = m_freeEntities w /\
       GetEntityIndex h' = 0) /\
  (exists g0 w0 log0 w1 w2 (h1 live : EntityID) d0,
     run_main [OpNewEntity; OpNewEntity] = Ok (g0, w0, log0) /\
     log0 = [EvNewEntity h1; EvNewEntity live] /\
     GetEntityIndex h1 = 1 /\
     m_entities w0 !! 0%nat = Some d0 /\ m_id d0 = live /\
     IsEntityValid live = true /\
     DestroyEntity h1 w0 = Ok w1 /\
     m_entities w1 !! 0%nat = Some d0 /\
     NewEntity w1 = Ok (w2, live) /\
     m_entities w2 !! 0%nat = Some d0).
Proof.
  split; [apply GetEntityIndex_twice |]. split.
  - pose proof (GetEntityIndex_range h) as Hr.
    destruct (lookup_lt_is_Some_2 (m_entities w) (Z.to_nat (GetEntityIndex h)))
      as [d Hd]; [unfold vlen in Hin; lia |].
    eexists. split; [apply (DestroyEntity_Ok _ _ _ Hd) |].
    split; [reflexivity |].
    set (ents' := <[Z.to_nat (GetEntityIndex h) := _]> (m_entities w)).
    destruct (lookup_lt_is_Some_2 ents' (Z.to_nat 0)) as [d0 Hd0].
    { subst ents'. rewrite length_insert. unfold vlen in Hin. lia. }
    do 2 eexists. split.
    + eapply NewEntity_pop; [reflexivity | exact Hd0].
    + split; [reflexivity |].
      apply GetEntityIndex_Create; [lia | apply GetEntityVersion_range].
  - do 8 eexists. repeat split; vm_compute; reflexivity.
Qed.

Lemma DestroyEntity_pushes_index_zero_witness :
  exists w, run [OpNewEntity; OpNewEntity] initial_globals World_new []
            = Ok (initial_globals, w, [EvNewEntity (CreateEntityId 1 0);
                                       EvNewEntity (CreateEntityId 0 0)]) /\
    GetEntityIndex (CreateEntityId 1 0) < vlen (m_entities w) /\
    GetEntityIndex (GetEntityIndex (CreateEntityId 1 0)) = 0.
Proof.
  eexists. split; [vm_compute; reflexivity |].
  assert (Hin : GetEntityIndex (CreateEntityId 1 0) <
                vlen [ {| m_id := 0; m_mask := 0 |};
                       {| m_id := 4294967296; m_mask := 0 |} ])
    by (vm_compute; reflexivity).
  split; [exact Hin |].
  exact (proj1 (DestroyEntity_pushes_index_zero
                  {| m_entities := [ {| m_id := 0; m_mask := 0 |};
                                     {| m_id := 4294967296; m_mask := 0 |} ];
                     m_freeEntities := [];
                     m_componentPools := [] |}
                  (CreateEntityId 1 0) Hin)).
Defined.

(** C2 (the code at a failing input).  A fresh world gets two entities,
    in slots 0 and 1, both of generation 0.  The entity of slot 1 is
    destroyed and an entity is created at once.  The handle returned has
    index 0 and generation 0: it is the handle of the first entity, not a
    handle with index 1 and generation 1. *)
Theorem recycle_returns_slot_zero :
  exists g w (e0 e1 e : EntityID),
    run_main [OpNewEntity; OpNewEntity; OpDestroyEntity (CreateEntityId 1 0);
              OpNewEntity]
      = Ok (g, w, [EvNewEntity e; EvDestroyEntity e1; EvNewEntity e1;
                   EvNewEntity e0]) /\
    e1 = CreateEntityId 1 0 /\
    GetEntityIndex e1 = 1 /\ GetEntityVersion e1 = 0 /\
    e = e0 /\
    GetEntityIndex e = 0 /\ GetEntityVersion e = 0 /\
    m_entities w =
      [ {| m_id := e0; m_mask := bitset_empty |};
        {| m_id := CreateEntityId INVALID_INDEX 1; m_mask := bitset_empty |} ] /\
    m_freeEntities w = [].
Proof.
  do 5 eexists. repeat split; vm_compute; reflexivity.
Qed.

Lemma destroyed_id_encoding (id : EntityID) :
  destroyed_id id = CreateEntityId INVALID_INDEX (GetEntityVersion id + 1).
Proof.
  unfold destroyed_id.
  pose proof (GetEntityVersion_range id) as Hr.
  destruct (Z.eq_dec (GetEntityVersion id) (2 ^ 32 - 1)) as [-> | Hne].
  - vm_compute. reflexivity.
  - rewrite (wrap32_small (GetEntityVersion id + 1)) by lia. reflexivity.
Qed.

(** C7.  When the slot addressed by [h] stores [h], [DestroyEntity h]
    returns normally, and afterwards that slot stores the handle that
    [CreateEntityId] encodes from the invalid index and [h]'s generation
    plus one, with an empty mask; the table keeps its length and every
    other slot is unchanged.  Read back, the stored handle has the invalid
    index and, the generation being a 32-bit counter, the generation
    [(generation of h + 1) mod 2^32]. *)
Theorem DestroyEntity_slot (w : World) (h : EntityID) (d : EntityDesc)
    (Hd : m_entities w !! Z.to_nat (GetEntityIndex h) = Some d)
    (Hlive : m_id d = h) :
  exists w', DestroyEntity h w = Ok w' /\
    m_entities w' !! Z.to_nat (GetEntityIndex h) =
      Some {| m_id := CreateEntityId INVALID_INDEX (GetEntityVersion h + 1);
              m_mask := bitset_empty |} /\
    GetEntityIndex (CreateEntityId INVALID_INDEX (GetEntityVersion h + 1))
      = INVALID_INDEX /\
    GetEntityVersion (CreateEntityId INVALID_INDEX (GetEntityVersion h + 1))
      = (GetEntityVersion h + 1) mod 2 ^ 32 /\
    length (m_entities w') = length (m_entities w) /\
    forall j : nat, j <> Z.to_nat (GetEntityIndex h) ->
      m_entities w' !! j = m_entities w !! j.
Proof.
  eexists. split; [apply (DestroyEntity_Ok _ _ _ Hd) |].
  cbn [m_entities].
  pose proof (lookup_lt_Some _ _ _ Hd) as Hlt.
  rewrite <- destroyed_id_encoding.
  destruct (destroyed_id_decode h) as (Hi & Hv & _).
  repeat split.
  - now apply list_lookup_insert_eq.
  - exact Hi.
  - exact Hv.
  - apply length_insert.
  - intros j Hj. apply list_lookup_insert_ne. congruence.
Qed.

Lemma DestroyEntity_slot_witness :
  exists w',
    DestroyEntity (CreateEntityId 0 0)
      {| m_entities := [ {| m_id := CreateEntityId 0 0; m_mask := 5 |};
                         {| m_id := CreateEntityId 1 0; m_mask := 1 |} ];
         m_freeEntities := [];
         m_componentPools := [] |} = Ok w' /\
    m_entities w' !! 0%nat =
      Some {| m_id := CreateEntityId INVALID_INDEX 1; m_mask := bitset_empty |} /\
    m_entities w' !! 1%nat = Some {| m_id := CreateEntityId 1 0; m_mask := 1 |}.
Proof.
  destruct (DestroyEntity_slot
              {| m_entities := [ {| m_id := CreateEntityId 0 0; m_mask := 5 |};
                                 {| m_id := CreateEntityId 1 0; m_mask := 1 |} ];
                 m_freeEntities := [];
                 m_componentPools := [] |}
              (CreateEntityId 0 0)
              {| m_id := CreateEntityId 0 0; m_mask := 5 |}
              eq_refl eq_refl)
    as (w' & Hrun & Hslot & _ & _ & _ & Hother).
  exists w'. split; [exact Hrun |]. split; [exact Hslot |].
  rewrite (Hother 1%nat); [reflexivity | vm_compute; discriminate].
Defined.

(** X26.  Recycling as the header intends it happens for slot 0 only: destroying
    the entity of slot 0 and creating an entity at once returns index 0 with
    the generation advanced by one, modulo 2^32. *)
Lemma recycle_slot_zero (w : World) (h : EntityID) (d : EntityDesc) :
  GetEntityIndex h = 0 ->
  m_entities w !! 0%nat = Some d ->
  exists w' w'' h',
    DestroyEntity h w = Ok w' /\ NewEntity w' = Ok (w'', h') /\
    h' = CreateEntityId 0 ((GetEntityVersion h + 1) mod 2 ^ 32) /\
    GetEntityIndex h' = 0 /\
    GetEntityVersion h' = (GetEntityVersion h + 1) mod 2 ^ 32.
Proof.
  intros Hidx Hd.
  assert (Hd' : m_entities w !! Z.to_nat (GetEntityIndex h) = Some d)
    by now rewrite Hidx.
  pose proof (lookup_lt_Some _ _ _ Hd) as Hlt.
  destruct (destroyed_id_decode h) as (_ & Hver & _).
  assert (Hrange : 0 <= (GetEntityVersion h + 1) mod 2 ^ 32 < 2 ^ 32)
    by (apply Z.mod_pos_bound; lia).
  eexists _, _, _. split; [apply (DestroyEntity_Ok _ _ _ Hd') |].
  split.
  - eapply NewEntity_pop; [reflexivity |]. cbn [m_entities].
    rewrite Hidx. apply list_lookup_insert_eq. exact Hlt.
  - cbn [m_id]. rewrite Hver.
    split; [reflexivity |].
    split; [apply GetEntityIndex_Create | apply GetEntityVersion_Create]; lia.
Qed.

(** ** Bits of a mask *)

Lemma testbit_set (m c n : Z) :
  0 <= c -> Z.testbit (Z.lor m (Z.shiftl 1 c)) n = Z.testbit m n || (c =? n).
Proof.
  intros Hc. rewrite Z.lor_spec, Z.shiftl_1_l, Z.pow2_bits_eqb by assumption.
  reflexivity.
Qed.

Lemma testbit_reset (m c n : Z) :
  0 <= c -> Z.testbit (Z.ldiff m (Z.shiftl 1 c)) n = Z.testbit m n && negb (c =? n).
Proof.
  intros Hc. rewrite Z.ldiff_spec, Z.shiftl_1_l, Z.pow2_bits_eqb by assumption.
  reflexivity.
Qed.

(** ** Assign, Remove, Get on one call *)

Lemma Assign_stale_Ok (T : string) (sizeofT : Z) (v : Payload) (id : EntityID)
    (g : Globals) (w : World) (d : EntityDesc) :
  m_entities w !! Z.to_nat (GetEntityIndex id) = Some d ->
  m_id d <> id ->
  Assign T sizeofT v id g w = Ok ((GetId T g).2, w, None).
Proof.
  intros Hd Hne. unfold Assign. destruct (GetId T g) as [c g'].
  rewrite (vec_at_lookup _ _ _ Hd). cbn [mbind Result_bind snd].
  destruct (Z.eqb_spec (m_id d) id) as [Heq | _]; [contradiction | reflexivity].
Qed.

Lemma Assign_out_of_range (T : string) (sizeofT : Z) (v : Payload) (id : EntityID)
    (g : Globals) (w : World) :
  vlen (m_entities w) <= GetEntityIndex id ->
  Assign T sizeofT v id g w = Undefined.
Proof.
  intros H. unfold Assign. destruct (GetId T g) as [c g'].
  now rewrite vec_at_out_of_range.
Qed.

(** The pool vector after the [resize] and the pool allocation of
    [Assign]: the pool of [c] exists, and no pool has been dropped. *)
Lemma Assign_pools (pools : list (option ComponentPool)) (c sizeofT : Z) :
  0 <= c ->
  let pools1 :=
    if vlen pools <=? c then resize (Z.to_nat (c + 1)) None pools else pools in
  exists p pools2 pool,
    vec_at pools1 c = Ok p /\
    match p with
    | None => vec_update pools1 c (fun _ => Some (ComponentPool_new sizeofT))
    | Some _ => Ok pools1
    end = Ok pools2 /\
    pools2 !! Z.to_nat c = Some (Some pool) /\
    (forall (n : nat) q, pools !! n = Some (Some q) -> pools2 !! n = Some (Some q)).
Proof.
  intros Hc pools1.
  assert (Hlen : (Z.to_nat c < length pools1)%nat).
  { subst pools1. unfold vlen. destruct (Z.leb_spec (Z.of_nat (length pools)) c).
    - rewrite length_resize. lia.
    - lia. }
  assert (Hkeep : forall (n : nat) q,
             pools !! n = Some (Some q) -> pools1 !! n = Some (Some q)).
  { intros n q Hq. subst pools1. unfold vlen.
    destruct (Z.leb_spec (Z.of_nat (length pools)) c); [| exact Hq].
    pose proof (lookup_lt_Some _ _ _ Hq).
    rewrite lookup_resize by lia. exact Hq. }
  destruct (lookup_lt_is_Some_2 pools1 (Z.to_nat c) Hlen) as [p Hp].
  exists p. rewrite (vec_at_lookup _ _ _ Hp).
  destruct p as [pool |].
  - exists pools1, pool. repeat split; assumption.
  - rewrite (vec_update_Ok _ _ _ _ Hp).
    eexists _, _. split; [reflexivity |]. split; [reflexivity |]. split.
    + now apply list_lookup_insert_eq.
    + intros n q Hq. specialize (Hkeep n q Hq).
      rewrite list_lookup_insert_ne; [exact Hkeep | congruence].
Qed.

Lemma Assign_fresh_Ok (T : string) (sizeofT : Z) (v : Payload) (id : EntityID)
    (g : Globals) (w : World) (d : EntityDesc) :
  m_entities w !! Z.to_nat (GetEntityIndex id) = Some d ->
  m_id d = id ->
  0 <= (GetId T g).1 < MAX_COMPONENTS ->
  GetEntityIndex id < MAX_ENTITIES ->
  exists pools' pool ptr,
    Assign T sizeofT v id g w =
      Ok ((GetId T g).2,
          {| m_entities :=
               <[Z.to_nat (GetEntityIndex id) :=
                   set_mask (Z.lor (m_mask d) (Z.shiftl 1 (GetId T g).1)) d]>
                 (m_entities w);
             m_freeEntities := m_freeEntities w;
             m_componentPools := pools' |},
          Some ptr) /\
    pools' !! Z.to_nat (GetId T g).1 = Some (Some pool) /\
    (forall (n : nat) q, m_componentPools w !! n = Some (Some q) ->
       exists q', pools' !! n = Some (Some q')).
Proof.
  intros Hd Hid Hc Hidx. unfold Assign. destruct (GetId T g) as [c g'].
  cbn [fst snd] in *.
  rewrite (vec_at_lookup _ _ _ Hd). cbn [mbind Result_bind].
  destruct (Z.eqb_spec (m_id d) id) as [_ | Hne]; [| contradiction].
  cbn [negb].
  destruct (Assign_pools (m_componentPools w) c sizeofT (proj1 Hc))
    as (p & pools2 & pool & -> & Hp2 & Hpool & Hkeep).
  cbn [mbind Result_bind]. rewrite Hp2. cbn [mbind Result_bind].
  rewrite (vec_at_lookup _ _ _ Hpool). cbn [mbind Result_bind].
  destruct (Z.leb_spec MAX_ENTITIES (GetEntityIndex id)) as [Hge | _]; [lia |].
  rewrite (vec_update_Ok _ _ _ _ Hpool). cbn [mbind Result_bind].
  unfold bitset_set. destruct (Z.ltb_spec c MAX_COMPONENTS) as [_ | Hge]; [| lia].
  cbn [mbind Result_bind].
  rewrite (vec_update_Ok _ _ _ _ Hd). cbn [mbind Result_bind].
  eexists _, _, _. split; [reflexivity |]. split.
  - apply list_lookup_insert_eq. eapply lookup_lt_Some. exact Hpool.
  - intros n q Hq. specialize (Hkeep n q Hq).
    destruct (decide (Z.to_nat c = n)) as [<- | Hn].
    + eexists. apply list_lookup_insert_eq. eapply lookup_lt_Some. exact Hpool.
    + exists q. rewrite list_lookup_insert_ne; assumption.
Qed.

Lemma Remove_stale_Ok (T : string) (id : EntityID) (g : Globals) (w : World)
    (d : EntityDesc) :
  m_entities w !! Z.to_nat (GetEntityIndex id) = Some d ->
  m_id d <> id ->
  Remove T id g w = Ok (g, w).
Proof.
  intros Hd Hne. unfold Remove.
  rewrite (vec_at_lookup _ _ _ Hd). cbn [mbind Result_bind].
  destruct (Z.eqb_spec (m_id d) id) as [Heq | _]; [contradiction | reflexivity].
Qed.

Lemma Remove_fresh_Ok (T : string) (id : EntityID) (g : Globals) (w : World)
    (d : EntityDesc) :
  m_entities w !! Z.to_nat (GetEntityIndex id) = Some d ->
  m_id d = id ->
  (GetId T g).1 < MAX_COMPONENTS ->
  Remove T id g w =
    Ok ((GetId T g).2,
        {| m_entities :=
             <[Z.to_nat (GetEntityIndex id) :=
                 set_mask (Z.ldiff (m_mask d) (Z.shiftl 1 (GetId T g).1)) d]>
               (m_entities w);
           m_freeEntities := m_freeEntities w;
           m_componentPools := m_componentPools w |}).
Proof.
  intros Hd Hid Hc. unfold Remove.
  rewrite (vec_at_lookup _ _ _ Hd). cbn [mbind Result_bind].
  destruct (Z.eqb_spec (m_id d) id) as [_ | Hne]; [| contradiction].
  cbn [negb]. destruct (GetId T g) as [c g']. cbn [fst snd] in *.
  unfold bitset_reset_pos.
  destruct (Z.ltb_spec c MAX_COMPONENTS) as [_ | Hge]; [| lia].
  cbn [mbind Result_bind].
  rewrite (vec_update_Ok _ _ _ _ Hd). reflexivity.
Qed.

Lemma Remove_out_of_range (T : string) (id : EntityID) (g : Globals) (w : World) :
  vlen (m_entities w) <= GetEntityIndex id -> Remove T id g w = Undefined.
Proof. intros H. unfold Remove. now rewrite vec_at_out_of_range. Qed.

Lemma Get_Ok (T : string) (id : EntityID) (g : Globals) (w : World)
    (d : EntityDesc) :
  m_entities w !! Z.to_nat (GetEntityIndex id) = Some d ->
  0 <= (GetId T g).1 < MAX_COMPONENTS ->
  exists p, Get T id g w = Ok ((GetId T g).2, p) /\
    (p <> None <->
       Z.testbit (m_mask d) (GetId T g).1 = true /\
       exists pool, m_componentPools w !! Z.to_nat (GetId T g).1 = Some (Some pool)).
Proof.
  intros Hd Hc. unfold Get. destruct (GetId T g) as [c g']. cbn [fst snd] in *.
  rewrite (vec_at_lookup _ _ _ Hd). cbn [mbind Result_bind].
  unfold bitset_test. destruct (Z.ltb_spec c MAX_COMPONENTS) as [_ | Hge]; [| lia].
  cbn [mbind Result_bind].
  destruct (Z.testbit (m_mask d) c) eqn:Hbit; cbn [negb].
  - destruct (Z.ltb_spec c (vlen (m_componentPools w))) as [Hlt | Hge].
    + destruct (m_componentPools w !! Z.to_nat c) as [p |] eqn:Hp.
      * rewrite (vec_at_lookup _ _ _ Hp). cbn [mbind Result_bind].
        destruct p as [pool |]; eexists; (split; [reflexivity |]).
        -- split; [intros _; split; [reflexivity | now exists pool] | discriminate].
        -- split; [congruence |]. intros (_ & pool & [=]).
      * unfold vec_at. rewrite Hp. cbn [mbind Result_bind].
        (* a vector index below the size always has an element *)
        exfalso. apply lookup_ge_None in Hp. unfold vlen in Hlt. lia.
    + eexists. split; [reflexivity |]. split; [congruence |].
      intros (_ & pool & Hp). apply lookup_lt_Some in Hp. unfold vlen in Hge. lia.
  - eexists. split; [reflexivity |]. split; [congruence |].
    intros (Hf & _). discriminate.
Qed.

(** C6.  When the index of [h] is inside the table and the slot there
    stores a handle other than [h], [Assign<T>(h, ...)] returns [nullptr]
    and the world it leaves is the world it found: same entity table (handles
    and masks), same free list, same pool vector.  Only the type counter may
    have moved, when [T] is used for the first time. *)
Theorem Assign_stale_handle (T : string) (sizeofT : Z) (v : Payload)
    (h : EntityID) (g : Globals) (w : World) (d : EntityDesc)
    (Hd : m_entities w !! Z.to_nat (GetEntityIndex h) = Some d)
    (Hstale : m_id d <> h) :
  exists g' w', Assign T sizeofT v h g w = Ok (g', w', None) /\
    w' = w /\
    m_entities w' = m_entities w /\
    m_freeEntities w' = m_freeEntities w /\
    m_componentPools w' = m_componentPools w.
Proof.
  exists (GetId T g).2, w. split; [now apply (Assign_stale_Ok _ _ _ _ _ _ d) |].
  repeat split.
Qed.

Lemma Assign_stale_handle_witness :
  exists g',
    Assign "Shape" 1 [] (CreateEntityId 0 0) initial_globals
      {| m_entities := [ {| m_id := CreateEntityId 0 1; m_mask := 1 |} ];
         m_freeEntities := [];
         m_componentPools := [Some (ComponentPool_new 40)] |}
    = Ok (g',
          {| m_entities := [ {| m_id := CreateEntityId 0 1; m_mask := 1 |} ];
             m_freeEntities := [];
             m_componentPools := [Some (ComponentPool_new 40)] |},
          None).
Proof.
  destruct (Assign_stale_handle "Shape" 1 [] (CreateEntityId 0 0) initial_globals
              {| m_entities := [ {| m_id := CreateEntityId 0 1; m_mask := 1 |} ];
                 m_freeEntities := [];
                 m_componentPools := [Some (ComponentPool_new 40)] |}
              {| m_id := CreateEntityId 0 1; m_mask := 1 |}
              eq_refl ltac:(vm_compute; discriminate))
    as (g' & w' & Hrun & -> & _).
  exists g'. exact Hrun.
Defined.




(** ** The type counter *)

Lemma GetId_registered (T : string) (g : Globals) (c : ComponentID) :
  s_componentId g !! T = Some c -> GetId T g = (c, g).
Proof. intros H. unfold GetId. now rewrite H. Qed.

Lemma GetId_registers (T : string) (g : Globals) :
  s_componentId (GetId T g).2 !! T = Some (GetId T g).1.
Proof.
  unfold GetId. destruct (s_componentId g !! T) as [c |] eqn:HT; cbn.
  - exact HT.
  - apply lookup_insert_eq.
Qed.

Lemma GetId_keeps (T T' : string) (g : Globals) (c' : ComponentID) :
  s_componentId g !! T' = Some c' ->
  s_componentId (GetId T g).2 !! T' = Some c'.
Proof.
  intros H'. unfold GetId. destruct (s_componentId g !! T) as [c |] eqn:HT; cbn.
  - exact H'.
  - rewrite lookup_insert_ne; [exact H' | congruence].
Qed.

Lemma GetIds_keeps (Ts : list string) (T' : string) (g : Globals) (c' : ComponentID) :
  s_componentId g !! T' = Some c' ->
  s_componentId (GetIds Ts g).2 !! T' = Some c'.
Proof.
  revert g. induction Ts as [| T Ts IH]; intros g H'; cbn; [exact H' |].
  pose proof (GetId_keeps T T' g c' H') as H1.
  destruct (GetId T g) as [c g1]. cbn [snd] in H1.
  specialize (IH g1 H1). destruct (GetIds Ts g1) as [cs g2]. exact IH.
Qed.

Lemma GetIds_registers (Ts : list string) (g : Globals) :
  Forall2 (fun T c => s_componentId (GetIds Ts g).2 !! T = Some c)
    Ts (GetIds Ts g).1.
Proof.
  revert g. induction Ts as [| T Ts IH]; intros g; cbn; [constructor |].
  pose proof (GetId_registers T g) as H1.
  destruct (GetId T g) as [c g1]. cbn [fst snd] in H1.
  specialize (IH g1). pose proof (GetIds_keeps Ts T g1 c H1) as H2.
  destruct (GetIds Ts g1) as [cs g2]. cbn [fst snd] in *.
  constructor; assumption.
Qed.

Lemma GetIds_registered (Ts : list string) (g : Globals) (cs : list ComponentID) :
  Forall2 (fun T c => s_componentId g !! T = Some c) Ts cs ->
  GetIds Ts g = (cs, g).
Proof.
  induction 1 as [| T c Ts cs HT _ IH]; cbn; [reflexivity |].
  rewrite (GetId_registered _ _ _ HT), IH. reflexivity.
Qed.

(** Calling the pack expansion a second time changes nothing and returns
    the same identities. *)
Lemma GetIds_again (Ts : list string) (g : Globals) :
  GetIds Ts (GetIds Ts g).2 = GetIds Ts g.
Proof.
  rewrite (GetIds_registered Ts _ (GetIds Ts g).1 (GetIds_registers Ts g)).
  now destruct (GetIds Ts g).
Qed.

Lemma RosterView_ctor_again (Ts : list string) (g g1 : Globals) (v : RosterView) :
  RosterView_ctor Ts g = Ok (g1, v) -> RosterView_ctor Ts g1 = Ok (g1, v).
Proof.
  unfold RosterView_ctor. destruct (length Ts =? 0)%nat.
  - now intros [= <- <-].
  - pose proof (GetIds_again Ts g) as Hagain.
    destruct (GetIds Ts g) as [cs g'] eqn:Hids. cbn [snd] in Hagain.
    destruct (set_each (0 :: cs) bitset_empty) as [m | | |] eqn:Hm;
      cbn [mbind Result_bind]; try discriminate.
    intros [= <- <-]. rewrite Hagain, Hm. reflexivity.
Qed.

Lemma RosterView_ctor_at_again (Ts : list string) (g g1 : Globals)
    (v : RosterView) (index : EntityIndex) (mask : ComponentMask) :
  RosterView_ctor Ts g = Ok (g1, v) ->
  RosterView_ctor_at Ts index mask g1 =
    Ok (g1, {| m_index := index; m_componentMask := mask; m_all := m_all v |}).
Proof.
  intros H. unfold RosterView_ctor_at.
  now rewrite (RosterView_ctor_again _ _ _ _ H).
Qed.

(** ** The scanning loops of a view

    Throughout, the table has at most [MAX_ENTITIES] slots, so that no
    index computation wraps around or overflows. *)

Section Scan.
Variable w : World.
Variable mask : ComponentMask.
Variable all : bool.
Hypothesis Hlen : vlen (m_entities w) <= MAX_ENTITIES.

Lemma vlen_app {A : Type} (l1 l2 : list A) : vlen (l1 ++ l2) = vlen l1 + vlen l2.
Proof. unfold vlen. rewrite length_app. lia. Qed.

Lemma vlen_nonneg {A : Type} (l : list A) : 0 <= vlen l.
Proof. unfold vlen. lia. Qed.

Lemma vec_at_middle (prefix suffix : list EntityDesc) (d : EntityDesc) :
  m_entities w = prefix ++ d :: suffix ->
  vec_at (All w) (vlen prefix) = Ok d.
Proof.
  intros Hsplit. apply vec_at_lookup. unfold All, vlen.
  rewrite Hsplit, Nat2Z.id. apply list_lookup_middle. reflexivity.
Qed.

Lemma ValidIndex_qualifies (prefix suffix : list EntityDesc) (d : EntityDesc)
    (v : RosterView) :
  m_entities w = prefix ++ d :: suffix ->
  m_index v = vlen prefix ->
  ValidIndex w v = Ok (qualifies (m_componentMask v) (m_all v) d).
Proof.
  intros Hsplit Hi. unfold ValidIndex. rewrite Hi.
  rewrite (vec_at_middle _ _ _ Hsplit). reflexivity.
Qed.

(** The loop of [begin()] tests the mask alone; it agrees with
    [ValidIndex] because the mask of a match-everything view is empty. *)
Lemma begin_scan_spec (suffix prefix : list EntityDesc) (fuel : nat) :
  m_entities w = prefix ++ suffix ->
  (length suffix <= fuel)%nat ->
  begin_scan fuel w mask (vlen prefix)
    = Ok (first_valid mask false (vlen prefix) suffix).
Proof.
  revert prefix fuel.
  induction suffix as [| d rest IH]; intros prefix fuel Hsplit Hfuel.
  - assert (Hend : (vlen prefix <? vlen (All w)) = false).
    { apply Z.ltb_ge. unfold All. rewrite Hsplit, app_nil_r. lia. }
    destruct fuel; cbn [begin_scan first_valid]; now rewrite Hend.
  - assert (Hin : (vlen prefix <? vlen (All w)) = true).
    { apply Z.ltb_lt. unfold All. rewrite Hsplit, vlen_app. unfold vlen.
      cbn [length]. lia. }
    assert (Hmax : (vlen prefix =? INT_MAX) = false).
    { apply Z.eqb_neq. apply Z.ltb_lt in Hin. unfold All in Hin.
      unfold MAX_ENTITIES in Hlen. unfold INT_MAX. lia. }
    assert (Htest : negb (mask =? Z.land mask (m_mask d))
                    || negb (IsEntityValid (m_id d))
                    = negb (qualifies mask false d)).
    { unfold qualifies. cbn [orb].
      destruct (mask =? _), (IsEntityValid _); reflexivity. }
    cbn [first_valid]. cbn [length] in Hfuel.
    destruct fuel as [| fuel']; [lia |].
    cbn [begin_scan]. rewrite Hin, (vec_at_middle _ _ _ Hsplit).
    cbn [mbind Result_bind]. rewrite Htest.
    destruct (qualifies mask false d); cbn [negb]; [reflexivity |].
    rewrite Hmax.
    replace (vlen prefix + 1) with (vlen (prefix ++ [d]))
      by (rewrite vlen_app; reflexivity).
    apply IH; [now rewrite <- app_assoc | lia].
Qed.

Lemma RosterView_incr_spec (suffix prefix : list EntityDesc) (d0 : EntityDesc)
    (fuel : nat) (i : EntityIndex) :
  m_entities w = prefix ++ d0 :: suffix ->
  i = vlen prefix ->
  (length suffix < fuel)%nat ->
  RosterView_incr fuel w
    {| m_index := i; m_componentMask := mask; m_all := all |}
  = Ok {| m_index := first_valid mask all (i + 1) suffix;
          m_componentMask := mask; m_all := all |}.
Proof.
  revert prefix d0 fuel i.
  induction suffix as [| d rest IH]; intros prefix d0 fuel i Hsplit -> Hfuel.
  - destruct fuel as [| fuel']; [lia |]. cbn [RosterView_incr m_index].
    assert (Hw : wrap32 (vlen prefix + 1) = vlen prefix + 1).
    { apply wrap32_small. pose proof (vlen_nonneg prefix).
      rewrite Hsplit, vlen_app in Hlen. unfold vlen in Hlen at 2.
      cbn [length] in Hlen. unfold MAX_ENTITIES in Hlen. lia. }
    rewrite Hw.
    assert (Hend : (vlen prefix + 1 <? vlen (All w)) = false).
    { apply Z.ltb_ge. unfold All. rewrite Hsplit, vlen_app. unfold vlen.
      cbn [length]. lia. }
    rewrite Hend. reflexivity.
  - destruct fuel as [| fuel']; [lia |]. cbn [RosterView_incr m_index
      m_componentMask m_all].
    assert (Hsplit' : m_entities w = (prefix ++ [d0]) ++ d :: rest)
      by now rewrite <- app_assoc.
    assert (Hi' : vlen prefix + 1 = vlen (prefix ++ [d0]))
      by (rewrite vlen_app; reflexivity).
    assert (Hw : wrap32 (vlen prefix + 1) = vlen prefix + 1).
    { apply wrap32_small. pose proof (vlen_nonneg prefix).
      rewrite Hsplit, vlen_app in Hlen. unfold vlen in Hlen at 2.
      cbn [length] in Hlen. unfold MAX_ENTITIES in Hlen. lia. }
    rewrite Hw.
    assert (Hin : (vlen prefix + 1 <? vlen (All w)) = true).
    { apply Z.ltb_lt. unfold All. rewrite Hsplit, vlen_app. unfold vlen.
      cbn [length]. lia. }
    rewrite Hin.
    rewrite (ValidIndex_qualifies (prefix ++ [d0]) rest d
               {| m_index := vlen prefix + 1; m_componentMask := mask;
                  m_all := all |} Hsplit' Hi').
    cbn [mbind Result_bind m_componentMask m_all first_valid].
    destruct (qualifies mask all d); cbn [negb]; [reflexivity |].
    rewrite (IH (prefix ++ [d0]) d fuel' (vlen prefix + 1) Hsplit' Hi');
      [reflexivity | cbn [length] in Hfuel; lia].
Qed.

Lemma first_valid_split (rest : list EntityDesc) (i : Z) :
  exists skipped rest',
    rest = skipped ++ rest' /\
    first_valid mask all i rest = i + vlen skipped /\
    visits_from mask all i rest = visits_from mask all (i + vlen skipped) rest' /\
    (rest' = [] \/ exists d r, rest' = d :: r /\ qualifies mask all d = true).
Proof.
  revert i. induction rest as [| d rest IH]; intros i.
  - exists [], []. cbn. rewrite Z.add_0_r. repeat split. now left.
  - destruct (qualifies mask all d) eqn:Hq.
    + exists [], (d :: rest). cbn. rewrite Hq, Z.add_0_r. repeat split.
      right. now exists d, rest.
    + destruct (IH (i + 1)) as (skipped & rest' & -> & Hfirst & Hvisits & Hhead).
      exists (d :: skipped), rest'. cbn [first_valid visits_from].
      rewrite Hq, Hfirst, Hvisits.
      replace (i + vlen (d :: skipped)) with (i + 1 + vlen skipped)
        by (unfold vlen; cbn [length]; lia).
      repeat split. exact Hhead.
Qed.

Lemma range_loop_spec (n : nat) :
  forall (suffix prefix : list EntityDesc) (fuel : nat) (e : RosterView),
    (length suffix <= n)%nat ->
    m_entities w = prefix ++ suffix ->
    (suffix = [] \/ exists d r, suffix = d :: r /\ qualifies mask all d = true) ->
    (length suffix <= fuel)%nat ->
    m_index e = vlen (m_entities w) ->
    range_loop fuel w
      {| m_index := vlen prefix; m_componentMask := mask; m_all := all |} e
    = Ok (visits_from mask all (vlen prefix) suffix).
Proof.
  induction n as [| n IH]; intros suffix prefix fuel e Hn Hsplit Hhead Hfuel He.
  - destruct suffix; [| cbn [length] in Hn; lia].
    assert (Hneq : RosterView_neq w
              {| m_index := vlen prefix; m_componentMask := mask; m_all := all |} e
            = false).
    { unfold RosterView_neq. cbn [m_index]. rewrite He, Hsplit, app_nil_r.
      unfold All. rewrite Hsplit, app_nil_r, Z.eqb_refl. reflexivity. }
    destruct fuel; cbn [range_loop]; now rewrite Hneq.
  - destruct Hhead as [-> | (d & rest & -> & Hq)].
    { apply (IH [] prefix fuel e);
        [cbn; lia | exact Hsplit | now left | cbn; lia | exact He]. }
    assert (Hlt : vlen prefix < vlen (m_entities w)).
    { rewrite Hsplit, vlen_app. unfold vlen. cbn [length]. lia. }
    assert (Hneq : RosterView_neq w
              {| m_index := vlen prefix; m_componentMask := mask; m_all := all |} e
            = true).
    { unfold RosterView_neq. cbn [m_index]. rewrite He. unfold All.
      destruct (Z.eqb_spec (vlen prefix) (vlen (m_entities w))); [lia |].
      reflexivity. }
    cbn [length] in Hfuel, Hn. destruct fuel as [| fuel']; [lia |].
    cbn [range_loop]. rewrite Hneq.
    unfold RosterView_deref. cbn [m_index].
    rewrite (vec_at_middle _ _ _ Hsplit). cbn [mbind Result_bind].
    rewrite (RosterView_incr_spec rest prefix d (S fuel') (vlen prefix)
               Hsplit eq_refl) by lia.
    cbn [mbind Result_bind].
    destruct (first_valid_split rest (vlen prefix + 1))
      as (skipped & rest' & -> & Hfirst & Hvisits & Hhead').
    rewrite Hfirst.
    replace (vlen prefix + 1 + vlen skipped) with (vlen (prefix ++ d :: skipped))
      in * by (rewrite vlen_app; unfold vlen; cbn [length]; lia).
    rewrite length_app in Hfuel, Hn.
    rewrite (IH rest' (prefix ++ d :: skipped) fuel' e);
      [| lia | now rewrite <- app_assoc | exact Hhead' | lia | exact He].
    cbn [mbind Result_bind visits_from]. rewrite Hq, Hvisits. reflexivity.
Qed.
End Scan.

(** With a match-everything view the mask is empty, and the test of
    [begin()] is the test of [ValidIndex]. *)
Lemma qualifies_all (d : EntityDesc) :
  qualifies bitset_empty false d = qualifies bitset_empty true d.
Proof. unfold qualifies, bitset_empty. now rewrite Z.land_0_l. Qed.

Lemma first_valid_ext (mask : ComponentMask) (all all' : bool) (i : Z)
    (slots : list EntityDesc) :
  (forall d, qualifies mask all d = qualifies mask all' d) ->
  first_valid mask all i slots = first_valid mask all' i slots.
Proof.
  intros Hq. revert i. induction slots as [| d rest IH]; intros i; cbn;
    [reflexivity |].
  rewrite Hq, IH. reflexivity.
Qed.

Lemma RosterView_ctor_shape (Ts : list string) (g g1 : Globals) (v : RosterView) :
  RosterView_ctor Ts g = Ok (g1, v) ->
  m_index v = 0 /\
  forall d, qualifies (m_componentMask v) false d
            = qualifies (m_componentMask v) (m_all v) d.
Proof.
  unfold RosterView_ctor. destruct (length Ts =? 0)%nat.
  - intros [= <- <-]. split; [reflexivity |]. apply qualifies_all.
  - destruct (GetIds Ts g) as [cs g'].
    destruct (set_each (0 :: cs) bitset_empty); cbn [mbind Result_bind];
      try discriminate.
    intros [= <- <-]. split; reflexivity.
Qed.

(** The whole traversal in closed form. *)
Lemma query_visits_spec (Ts : list string) (fuel : nat) (g g1 : Globals)
    (w : World) (v : RosterView) :
  vlen (m_entities w) <= MAX_ENTITIES ->
  (length (m_entities w) <= fuel)%nat ->
  RosterView_ctor Ts g = Ok (g1, v) ->
  query_visits Ts fuel g w
    = Ok (g1, visits_from (m_componentMask v) (m_all v) 0 (m_entities w)).
Proof.
  intros Hlen Hfuel Hctor. unfold query_visits. rewrite Hctor.
  cbn [mbind Result_bind].
  destruct (RosterView_ctor_shape _ _ _ _ Hctor) as [_ Hq].
  unfold RosterView_begin.
  pose proof (begin_scan_spec w (m_componentMask v) Hlen (m_entities w) [] fuel
                eq_refl Hfuel) as Hbegin.
  change (vlen (@nil EntityDesc)) with 0 in Hbegin.
  rewrite Hbegin. clear Hbegin.
  cbn [mbind Result_bind].
  rewrite (RosterView_ctor_at_again _ _ _ _ _ _ Hctor).
  cbn [mbind Result_bind]. unfold RosterView_end.
  rewrite (RosterView_ctor_at_again _ _ _ _ _ _ Hctor).
  cbn [mbind Result_bind].
  rewrite (first_valid_ext _ false (m_all v) _ _ Hq).
  destruct (first_valid_split (m_componentMask v) (m_all v) (m_entities w) 0)
    as (skipped & rest' & Hsplit & Hfirst & Hvisits & Hhead).
  assert (Hbound : 0 <= vlen skipped <= MAX_ENTITIES).
  { split; [apply vlen_nonneg |]. rewrite Hsplit, vlen_app in Hlen.
    pose proof (vlen_nonneg rest'). lia. }
  rewrite Hfirst, Z.add_0_l, wrap32_small
    by (unfold MAX_ENTITIES in Hbound; lia).
  rewrite wrap32_small
    by (pose proof (vlen_nonneg (All w)); unfold All, MAX_ENTITIES in *; lia).
  assert (Hfuel' : (length rest' <= fuel)%nat).
  { rewrite Hsplit, length_app in Hfuel. lia. }
  rewrite (range_loop_spec w (m_componentMask v) (m_all v) Hlen (length rest')
             rest' skipped fuel
             {| m_index := vlen (All w); m_componentMask := m_componentMask v;
                m_all := m_all v |}
             (le_n _) Hsplit Hhead Hfuel' eq_refl).
  cbn [mbind Result_bind]. rewrite Hvisits, Z.add_0_l. reflexivity.
Qed.

Lemma set_each_Ok (cs : list ComponentID) (m : ComponentMask) :
  Forall (fun c => c < MAX_COMPONENTS) cs -> exists m', set_each cs m = Ok m'.
Proof.
  intros H. revert m. induction H as [| c cs Hc _ IH]; intros m; cbn.
  - now exists m.
  - unfold bitset_set. destruct (Z.ltb_spec c MAX_COMPONENTS); [| lia].
    cbn [mbind Result_bind]. apply IH.
Qed.

Lemma RosterView_ctor_Ok (Ts : list string) (g : Globals) :
  Forall (fun c => c < MAX_COMPONENTS) (GetIds Ts g).1 ->
  exists v, RosterView_ctor Ts g = Ok ((GetIds Ts g).2, v).
Proof.
  intros Hids. unfold RosterView_ctor. destruct Ts as [| T Ts]; cbn [length Nat.eqb].
  - eexists. reflexivity.
  - destruct (GetIds (T :: Ts) g) as [cs g']. cbn [fst snd] in *.
    destruct (set_each_Ok (0 :: cs) bitset_empty) as [m Hm].
    { constructor; [unfold MAX_COMPONENTS; lia | exact Hids]. }
    rewrite Hm. eexists. reflexivity.
Qed.

Lemma visits_from_lookup (mask : ComponentMask) (all : bool)
    (slots : list EntityDesc) (i j : Z) (h : EntityID) :
  (j, h) ∈ visits_from mask all i slots ->
  i <= j /\ exists d, slots !! Z.to_nat (j - i) = Some d /\ m_id d = h /\
                      qualifies mask all d = true.
Proof.
  revert i. induction slots as [| d rest IH]; intros i Hin; cbn in Hin.
  - now apply elem_of_nil in Hin.
  - assert (Hrest : (j, h) ∈ visits_from mask all (i + 1) rest ->
              i <= j /\ exists d', (d :: rest) !! Z.to_nat (j - i) = Some d' /\
                          m_id d' = h /\ qualifies mask all d' = true).
    { intros Hin'. destruct (IH _ Hin') as (Hle & d' & Hd' & Hid & Hq).
      split; [lia |]. exists d'. repeat split; try assumption.
      replace (Z.to_nat (j - i)) with (S (Z.to_nat (j - (i + 1)))) by lia.
      exact Hd'. }
    destruct (qualifies mask all d) eqn:Hq; [| now apply Hrest].
    apply elem_of_cons in Hin as [[= -> ->] | Hin]; [| now apply Hrest].
    split; [lia |]. exists d. rewrite Z.sub_diag. repeat split. exact Hq.
Qed.

Lemma visits_from_sorted (mask : ComponentMask) (all : bool)
    (slots : list EntityDesc) (i : Z) :
  StronglySorted Z.lt (visits_from mask all i slots).*1.
Proof.
  revert i. induction slots as [| d rest IH]; intros i; cbn.
  - constructor.
  - destruct (qualifies mask all d); [| apply IH].
    cbn. constructor; [apply IH |].
    apply Forall_forall. intros j Hj.
    apply list_elem_of_fmap in Hj as ([j' h] & -> & Hin).
    apply visits_from_lookup in Hin as [Hle _]. cbn. lia.
Qed.

(** C9.  For a table within the entity ceiling, component identities
    within the mask width and enough fuel for the loops, the traversal of a
    view returns; the positions at which the iterator is dereferenced are
    strictly ascending; and at each of them [operator*] yields the handle
    stored in the entity table at that slot. *)
Theorem query_visits_ascending (Ts : list string) (fuel : nat) (g : Globals)
    (w : World)
    (Hlen : vlen (m_entities w) <= MAX_ENTITIES)
    (Hfuel : (length (m_entities w) <= fuel)%nat)
    (Hids : Forall (fun c => c < MAX_COMPONENTS) (GetIds Ts g).1) :
  exists g1 visits,
    query_visits Ts fuel g w = Ok (g1, visits) /\
    StronglySorted Z.lt visits.*1 /\
    forall (i : EntityIndex) (h : EntityID),
      (i, h) ∈ visits ->
      0 <= i < vlen (m_entities w) /\
      (exists d, m_entities w !! Z.to_nat i = Some d /\ m_id d = h) /\
      forall v : RosterView, m_index v = i -> RosterView_deref w v = Ok h.
Proof.
  destruct (RosterView_ctor_Ok Ts g Hids) as [v Hctor].
  eexists _, _. split; [apply (query_visits_spec _ _ _ _ _ _ Hlen Hfuel Hctor) |].
  split; [apply visits_from_sorted |].
  intros i h Hin. apply visits_from_lookup in Hin as (Hle & d & Hd & Hid & _).
  rewrite Z.sub_0_r in Hd. pose proof (lookup_lt_Some _ _ _ Hd) as Hlt.
  split; [unfold vlen; lia |]. split; [now exists d |].
  intros v' <-. unfold RosterView_deref, All.
  rewrite (vec_at_lookup _ _ _ Hd). cbn [mbind Result_bind]. now rewrite Hid.
Qed.

(** Once the constructor has run, the rest of a range-based [for] reads the
    world and the view only. *)
Lemma query_unfold (Ts : list string) (fuel : nat) (g g1 : Globals) (w : World)
    (range : RosterView) :
  RosterView_ctor Ts g = Ok (g1, range) ->
  query Ts fuel g w =
    (firstIndex ← begin_scan fuel w (m_componentMask range) 0;
     visits ← range_loop fuel w
       {| m_index := wrap32 firstIndex;
          m_componentMask := m_componentMask range; m_all := m_all range |}
       {| m_index := wrap32 (vlen (All w));
          m_componentMask := m_componentMask range; m_all := m_all range |};
     Ok (g1, visits.*2)).
Proof.
  intros Hctor. unfold query, query_visits. rewrite Hctor.
  cbn [mbind Result_bind]. unfold RosterView_begin, RosterView_end.
  destruct (begin_scan fuel w (m_componentMask range) 0) as [j | | |];
    cbn [mbind Result_bind]; try reflexivity.
  rewrite (RosterView_ctor_at_again _ _ _ _ _ _ Hctor).
  cbn [mbind Result_bind].
  rewrite (RosterView_ctor_at_again _ _ _ _ _ _ Hctor).
  cbn [mbind Result_bind].
  destruct (range_loop _ _ _ _) as [visits | | |]; reflexivity.
Qed.

Lemma query_again (Ts : list string) (fuel : nat) (g g1 : Globals) (w : World)
    (l : list EntityID) :
  query Ts fuel g w = Ok (g1, l) -> query Ts fuel g1 w = Ok (g1, l).
Proof.
  intros Hq.
  destruct (RosterView_ctor Ts g) as [[g' range] | | |] eqn:Hctor;
    try (unfold query, query_visits in Hq; rewrite Hctor in Hq; discriminate).
  pose proof Hq as Hq'. rewrite (query_unfold _ _ _ _ _ _ Hctor) in Hq'.
  assert (g1 = g') as ->.
  { destruct (begin_scan fuel w (m_componentMask range) 0);
      cbn [mbind Result_bind] in Hq'; try discriminate.
    destruct (range_loop _ _ _ _); cbn [mbind Result_bind] in Hq';
      try discriminate.
    now injection Hq' as <- _. }
  rewrite (query_unfold _ _ _ _ _ _ (RosterView_ctor_again _ _ _ _ Hctor)).
  exact Hq'.
Qed.

(** C8.  Two range-based [for] loops over views of the same component
    types, run one after the other on a world that is not changed in
    between, hand the same handles to their bodies in the same order.  With
    the table within the entity ceiling, the identities within the mask
    width and enough fuel, both traversals return. *)
Theorem query_twice_same (Ts : list string) (fuel : nat) (g : Globals)
    (w : World)
    (Hlen : vlen (m_entities w) <= MAX_ENTITIES)
    (Hfuel : (length (m_entities w) <= fuel)%nat)
    (Hids : Forall (fun c => c < MAX_COMPONENTS) (GetIds Ts g).1) :
  exists g1 l,
    query Ts fuel g w = Ok (g1, l) /\
    query Ts fuel g1 w = Ok (g1, l).
Proof.
  destruct (RosterView_ctor_Ok Ts g Hids) as [v Hctor].
  assert (Hq : query Ts fuel g w =
               Ok ((GetIds Ts g).2,
                   (visits_from (m_componentMask v) (m_all v) 0 (m_entities w)).*2)).
  { unfold query.
    rewrite (query_visits_spec _ _ _ _ _ _ Hlen Hfuel Hctor). reflexivity. }
  eexists _, _. split; [exact Hq |]. apply (query_again _ _ g). exact Hq.
Qed.

Lemma query_visits_ascending_witness :
  exists g1 visits,
    query_visits ["Transform"; "Shape"] 3 initial_globals
      {| m_entities := [ {| m_id := CreateEntityId 0 0; m_mask := 1 |};
                         {| m_id := CreateEntityId 1 0; m_mask := 3 |};
                         {| m_id := CreateEntityId 2 0; m_mask := 7 |} ];
         m_freeEntities := [];
         m_componentPools := [] |} = Ok (g1, visits) /\
    visits = [ (1, CreateEntityId 1 0); (2, CreateEntityId 2 0) ].
Proof.
  destruct (query_visits_ascending ["Transform"; "Shape"] 3 initial_globals
              {| m_entities := [ {| m_id := CreateEntityId 0 0; m_mask := 1 |};
                                 {| m_id := CreateEntityId 1 0; m_mask := 3 |};
                                 {| m_id := CreateEntityId 2 0; m_mask := 7 |} ];
                 m_freeEntities := [];
                 m_componentPools := [] |}
              ltac:(vm_compute; discriminate)
              ltac:(cbn; lia)
              ltac:(vm_compute; repeat constructor))
    as (g1 & visits & Hrun & _).
  exists g1, visits. split; [exact Hrun |].
  vm_compute in Hrun. now injection Hrun as _ <-.
Defined.

Lemma query_twice_same_witness :
  exists g1 l,
    query ["Transform"] 2 initial_globals
      {| m_entities := [ {| m_id := CreateEntityId 0 0; m_mask := 1 |};
                         {| m_id := CreateEntityId INVALID_INDEX 1; m_mask := 0 |} ];
         m_freeEntities := [0];
         m_componentPools := [] |} = Ok (g1, l) /\
    query ["Transform"] 2 g1
      {| m_entities := [ {| m_id := CreateEntityId 0 0; m_mask := 1 |};
                         {| m_id := CreateEntityId INVALID_INDEX 1; m_mask := 0 |} ];
         m_freeEntities := [0];
         m_componentPools := [] |} = Ok (g1, l).
Proof.
  apply (query_twice_same ["Transform"] 2 initial_globals
           {| m_entities := [ {| m_id := CreateEntityId 0 0; m_mask := 1 |};
                              {| m_id := CreateEntityId INVALID_INDEX 1; m_mask := 0 |} ];
              m_freeEntities := [0];
              m_componentPools := [] |}).
  - vm_compute. discriminate.
  - cbn. lia.
  - vm_compute. repeat constructor.
Defined.

(** C1 (the code at a failing input).  [Transform] is the first component
    type used and gets identity 0, [Shape] gets identity 1.  The second
    entity carries [Shape] and nothing else, and it is valid.  A view over
    [Shape] alone visits no entity, because its constructor also sets bit 0
    of the mask; a view over no types visits both entities. *)
Theorem query_Shape_misses_entity :
  exists g w (e1 e2 : EntityID) p1 p2,
    run_main [OpNewEntity;
              OpAssign "Transform" 40 [] (CreateEntityId 0 0);
              OpNewEntity;
              OpAssign "Shape" 1 [] (CreateEntityId 1 0);
              OpHas "Shape" (CreateEntityId 1 0);
              OpQuery ["Shape"] 2;
              OpQuery [] 2]
      = Ok (g, w,
            [EvQuery [] [e1; e2];
             EvQuery ["Shape"] [];
             EvHas "Shape" e2 true;
             EvAssign "Shape" e2 (Some p2);
             EvNewEntity e2;
             EvAssign "Transform" e1 (Some p1);
             EvNewEntity e1]) /\
    s_componentId g !! "Transform" = Some 0 /\
    s_componentId g !! "Shape" = Some 1 /\
    m_entities w = [ {| m_id := e1; m_mask := 1 |}; {| m_id := e2; m_mask := 2 |} ] /\
    IsEntityValid e2 = true /\
    RosterView_ctor ["Shape"] g
      = Ok (g, {| m_index := 0; m_componentMask := 3; m_all := false |}).
Proof.
  do 6 eexists. repeat split; vm_compute; reflexivity.
Qed.

(** ** What a view selects *)

Lemma mask_subset (m s : ComponentMask) :
  (m =? Z.land m s) = true <->
  forall n, 0 <= n -> Z.testbit m n = true -> Z.testbit s n = true.
Proof.
  rewrite Z.eqb_eq. split.
  - intros Heq n Hn Hbit. rewrite Heq, Z.land_spec in Hbit.
    now apply andb_true_iff in Hbit as [_ Hbit].
  - intros Hsub. apply Z.bits_inj'. intros n Hn. rewrite Z.land_spec.
    destruct (Z.testbit m n) eqn:Hbit; [| reflexivity].
    now rewrite (Hsub n Hn Hbit).
Qed.

Lemma set_each_bits (cs : list ComponentID) (m m' : ComponentMask) :
  Forall (fun c => 0 <= c) cs ->
  set_each cs m = Ok m' ->
  forall n, Z.testbit m' n = true <-> Z.testbit m n = true \/ n ∈ cs.
Proof.
  intros Hcs. revert m. induction Hcs as [| c cs Hc _ IH]; intros m; cbn.
  - intros [= <-] n. split; [now left |]. intros [H | H]; [exact H |].
    now apply elem_of_nil in H.
  - unfold bitset_set. destruct (c <? MAX_COMPONENTS); [| discriminate].
    cbn [mbind Result_bind]. intros Hrest n. rewrite (IH _ Hrest n).
    rewrite testbit_set by exact Hc. rewrite orb_true_iff, Z.eqb_eq, elem_of_cons.
    intuition congruence.
Qed.

Lemma visits_from_handles (mask : ComponentMask) (all : bool) (i : Z)
    (slots : list EntityDesc) :
  (visits_from mask all i slots).*2
  = m_id <$> filter (fun d => qualifies mask all d = true) slots.
Proof.
  revert i. induction slots as [| d rest IH]; intros i; cbn [visits_from];
    [reflexivity |].
  rewrite filter_cons. destruct (qualifies mask all d) eqn:Hq.
  - rewrite decide_True by reflexivity. cbn. now rewrite IH.
  - rewrite decide_False by discriminate. apply IH.
Qed.

(** X24.  A view over no component types hands out the stored handle of every
    slot whose handle is valid, in table order. *)
Lemma query_all_valid (fuel : nat) (g : Globals) (w : World) :
  vlen (m_entities w) <= MAX_ENTITIES ->
  (length (m_entities w) <= fuel)%nat ->
  query [] fuel g w
  = Ok (g, m_id <$> filter (fun d => IsEntityValid (m_id d) = true) (m_entities w)).
Proof.
  intros Hlen Hfuel. unfold query.
  rewrite (query_visits_spec [] fuel g g w
             {| m_index := 0; m_componentMask := bitset_empty; m_all := true |}
             Hlen Hfuel eq_refl).
  cbn [mbind Result_bind m_componentMask m_all]. rewrite visits_from_handles.
  erewrite list_filter_iff; [reflexivity |]. intros d. unfold qualifies.
  cbn [orb]. now rewrite andb_true_r.
Qed.

(** X25.  A view over the component types [Ts], at least one, hands out the
    stored handle of every slot whose handle is valid and whose mask has
    the bits of all identities of [Ts] and bit 0, which the constructor sets
    in addition. *)
Lemma query_selects (Ts : list string) (fuel : nat) (g : Globals) (w : World) :
  Ts <> [] ->
  vlen (m_entities w) <= MAX_ENTITIES ->
  (length (m_entities w) <= fuel)%nat ->
  Forall (fun c => 0 <= c < MAX_COMPONENTS) (GetIds Ts g).1 ->
  query Ts fuel g w
  = Ok ((GetIds Ts g).2,
        m_id <$> filter (fun d => IsEntityValid (m_id d) = true /\
                                  Forall (fun c => Z.testbit (m_mask d) c = true)
                                    (0 :: (GetIds Ts g).1))
                   (m_entities w)).
Proof.
  intros HTs Hlen Hfuel Hids.
  assert (Hlt : Forall (fun c => c < MAX_COMPONENTS) (GetIds Ts g).1)
    by (eapply Forall_impl; [exact Hids | cbn; lia]).
  assert (Hnn : Forall (fun c => 0 <= c) (0 :: (GetIds Ts g).1)).
  { constructor; [lia |]. eapply Forall_impl; [exact Hids | cbn; lia]. }
  destruct (RosterView_ctor_Ok Ts g Hlt) as [v Hctor].
  unfold query. rewrite (query_visits_spec _ _ _ _ _ _ Hlen Hfuel Hctor).
  cbn [mbind Result_bind]. rewrite visits_from_handles.
  erewrite list_filter_iff; [reflexivity |]. intros d.
  unfold RosterView_ctor in Hctor. destruct Ts as [| T Ts]; [contradiction |].
  cbn [length Nat.eqb] in Hctor.
  destruct (GetIds (T :: Ts) g) as [cs g1]. cbn [fst] in *.
  destruct (set_each (0 :: cs) bitset_empty) as [m | | |] eqn:Hm;
    cbn [mbind Result_bind] in Hctor; try discriminate.
  injection Hctor as <-. cbn [m_componentMask m_all].
  unfold qualifies. cbn [orb]. rewrite andb_true_iff, mask_subset.
  pose proof (set_each_bits _ _ _ Hnn Hm) as Hbits.
  rewrite Forall_forall.
  split; intros [Hvalid Hsub]; (split; [exact Hvalid |]).
  - intros c Hc. apply Hsub.
    + rewrite Forall_forall in Hnn. now apply Hnn.
    + apply Hbits. now right.
  - intros n _ Hbit. apply Hbits in Hbit as [Hbit | Hin]; [| now apply Hsub].
    unfold bitset_empty in Hbit. rewrite Z.bits_0 in Hbit. discriminate.
Qed.

(** ** Registry growth *)

Lemma GetId_lookup (T T' : string) (g : Globals) (c : ComponentID) :
  s_componentId (GetId T g).2 !! T' = Some c <->
  s_componentId g !! T' = Some c \/
  (s_componentId g !! T = None /\ T' = T /\ c = s_componentCounter g).
Proof.
  unfold GetId. destruct (s_componentId g !! T) as [c0 |] eqn:HT; cbn [snd].
  - split; [left; fin |]. intros [H | (H & _)]; [exact H | discriminate].
  - cbn [s_componentId]. rewrite lookup_insert.
    destruct (decide (T = T')) as [<- | Hne].
    + split.
      * intros [= <-]. right; fin.
      * intros [H | (_ & _ & ->)]; [congruence | reflexivity].
    + split; [left; fin |]. intros [H | (_ & -> & _)]; [exact H | contradiction].
Qed.

Lemma registered_once (ids : gmap string ComponentID) (T : string)
    (c c' : ComponentID) :
  ids !! T = Some c -> ids !! T = Some c' -> c = c'.
Proof. intros H H'. rewrite H in H'. injection H'. auto. Qed.

Lemma GetId_size (T : string) (g : Globals) :
  (size (s_componentId g) <= size (s_componentId (GetId T g).2))%nat.
Proof.
  unfold GetId. destruct (s_componentId g !! T) as [c0 |] eqn:HT; cbn [snd].
  - reflexivity.
  - cbn [s_componentId]. rewrite map_size_insert_None by exact HT. lia.
Qed.

Lemma GetIds_size (Ts : list string) (g : Globals) :
  (size (s_componentId g) <= size (s_componentId (GetIds Ts g).2))%nat.
Proof.
  revert g. induction Ts as [| T Ts IH]; intros g; cbn; [reflexivity |].
  pose proof (GetId_size T g) as H1. destruct (GetId T g) as [c g1].
  specialize (IH g1). destruct (GetIds Ts g1) as [cs g2]. cbn [snd] in *. lia.
Qed.

Lemma GetIds_cons (T : string) (Ts : list string) (g : Globals) :
  (GetIds (T :: Ts) g).2 = (GetIds Ts (GetId T g).2).2.
Proof.
  cbn [GetIds]. destruct (GetId T g) as [c g1]. cbn [snd].
  destruct (GetIds Ts g1); fin.
Qed.

Lemma GetId_RegInv (T : string) (g : Globals) :
  RegInv g ->
  Z.of_nat (size (s_componentId (GetId T g).2)) <= MAX_COMPONENTS ->
  RegInv (GetId T g).2.
Proof.
  intros [Hcnt Hrange Hinj] Hsize.
  unfold GetId in *. destruct (s_componentId g !! T) as [c0 |] eqn:HT;
    cbn [snd] in *; [constructor; fin |].
  cbn [s_componentId] in Hsize.
  rewrite map_size_insert_None in Hsize by exact HT.
  constructor; cbn [s_componentCounter s_componentId];
    rewrite ?map_size_insert_None by exact HT.
  - rewrite Hcnt, wrap64_small by (unfold MAX_COMPONENTS in Hsize; lia). lia.
  - intros T' c. rewrite lookup_insert. destruct (decide (T = T')) as [<- | Hne].
    + intros [= <-]. lia.
    + intros H. specialize (Hrange _ _ H). lia.
  - intros T1 T2 c. rewrite !lookup_insert.
    destruct (decide (T = T1)) as [<- | Hne1], (decide (T = T2)) as [<- | Hne2];
      try reflexivity.
    + intros [= <-] H. specialize (Hrange _ _ H). lia.
    + intros H [= <-]. specialize (Hrange _ _ H). lia.
    + apply Hinj.
Qed.

Lemma GetId_WorldInv (T : string) (g : Globals) (w : World) :
  WorldInv g w -> WorldInv (GetId T g).2 w.
Proof.
  intros [Hr Hi Hd Hf Hb]. constructor; try assumption.
  intros i d c Hlook Hbit. destruct (Hb i d c Hlook Hbit) as [[T' HT'] Hpool].
  split; [| exact Hpool]. exists T'. apply GetId_keeps; fin.
Qed.

Lemma GetId_AttInv (T : string) (g : Globals) (w : World) (log : list Event) :
  RegInv g -> WorldInv g w -> AttInv g w log -> AttInv (GetId T g).2 w log.
Proof.
  intros Hreg Hw Hatt T' h. rewrite (Hatt T' h). unfold has_bit. split.
  - intros (c & d & Hc & Hd & Hid & Hbit). exists c, d.
    split; [apply GetId_keeps; fin | auto].
  - intros (c & d & Hc & Hd & Hid & Hbit).
    apply GetId_lookup in Hc as [Hc | (HT & -> & ->)];
      [exists c, d; auto |].
    exfalso. destruct (wi_bits _ _ Hw _ _ _ Hd Hbit) as [[T'' HT''] _].
    pose proof (reg_range _ Hreg _ _ HT'') as Hlt.
    rewrite (reg_counter _ Hreg) in Hlt. lia.
Qed.

Lemma GetId_Inv (T : string) (g : Globals) (w : World) (log : list Event) :
  Inv g w log ->
  Z.of_nat (size (s_componentId (GetId T g).2)) <= MAX_COMPONENTS ->
  Inv (GetId T g).2 w log.
Proof.
  intros (Hreg & Hw & Hatt) Hsize. split; [| split].
  - apply GetId_RegInv; assumption.
  - apply GetId_WorldInv; assumption.
  - apply GetId_AttInv; assumption.
Qed.

Lemma GetIds_Inv (Ts : list string) (g : Globals) (w : World) (log : list Event) :
  Inv g w log ->
  Z.of_nat (size (s_componentId (GetIds Ts g).2)) <= MAX_COMPONENTS ->
  Inv (GetIds Ts g).2 w log.
Proof.
  revert g. induction Ts as [| T Ts IH]; intros g Hinv Hsize; [exact Hinv |].
  rewrite GetIds_cons in *. apply IH; [| exact Hsize].
  apply GetId_Inv; [exact Hinv |].
  pose proof (GetIds_size Ts (GetId T g).2). lia.
Qed.

(** A call that neither attaches nor detaches leaves the history of every
    handle as it was. *)
Lemma AttInv_neutral (g : Globals) (w : World) (log : list Event) (ev : Event) :
  (forall T h, attaches T h ev = false /\ detaches T h ev = false) ->
  AttInv g w log -> AttInv g w (ev :: log).
Proof.
  intros Hev Hatt T h. cbn [attachedb].
  destruct (Hev T h) as [-> ->]. apply Hatt.
Qed.

(** ** NewEntity and DestroyEntity keep the invariants *)

Lemma set_id_same (d : EntityDesc) : set_id (m_id d) d = d.
Proof. destruct d; fin. Qed.

Lemma pop_back_None {A : Type} (v : list A) : pop_back v = None -> v = [].
Proof.
  unfold pop_back. destruct (last v) eqn:Hl; [discriminate |].
  intros _. apply last_None; fin.
Qed.

Lemma NewEntity_Inv (g : Globals) (w w' : World) (id : EntityID)
    (log : list Event) :
  NewEntity w = Ok (w', id) ->
  vlen (m_entities w') <= MAX_ENTITIES ->
  WorldInv g w -> AttInv g w log ->
  WorldInv g w' /\ AttInv g w' (EvNewEntity id :: log).
Proof.
  intros Hrun Hlen Hw Hatt.
  assert (Hhist : forall id0 w0 T h,
            (has_bit g w0 T h <-> has_bit g w T h) ->
            (attachedb T h (EvNewEntity id0 :: log) = true <-> has_bit g w0 T h)).
  { intros id0 w0 T h Hiff. cbn [attachedb attaches detaches]. rewrite Hiff.
    apply Hatt. }
  destruct (pop_back (m_freeEntities w)) as [[idx free'] |] eqn:Hpop.
  - (* a slot is reused *)
    pose proof (pop_back_Some _ _ _ Hpop) as Hfree.
    assert (idx = 0) as ->.
    { apply (wi_free _ _ Hw). rewrite Hfree. apply elem_of_app. right.
      apply list_elem_of_singleton. reflexivity. }
    destruct (m_entities w !! Z.to_nat 0) as [s |] eqn:Hs.
    2:{ assert (Hu : vec_at (m_entities w) 0 = Undefined)
          by (unfold vec_at; rewrite Hs; reflexivity).
        unfold NewEntity in Hrun. rewrite Hpop in Hrun. cbn iota beta in Hrun.
        rewrite Hu in Hrun. discriminate. }
    rewrite (NewEntity_pop w free' 0 s Hfree Hs) in Hrun.
    apply Ok_inj2 in Hrun as (<- & <-). cbn [m_entities] in Hlen.
    change (Z.to_nat 0) with 0%nat in *.
    pose proof (wi_range _ _ Hw _ _ Hs) as Hrange.
    destruct (wi_index _ _ Hw _ _ Hs) as [Hidx | Hidx].
    + (* the slot holds a live entity: the table does not change *)
      assert (Hsame : CreateEntityId 0 (GetEntityVersion (m_id s)) = m_id s).
      { rewrite <- (CreateEntityId_decode (m_id s)) at 2 by exact Hrange.
        rewrite Hidx; fin. }
      rewrite Hsame, set_id_same, list_insert_id by exact Hs.
      split.
      * destruct Hw as [Hr Hi Hd Hf Hb]. constructor; cbn [m_entities
          m_freeEntities m_componentPools]; try assumption.
        intros x Hx. apply Hf. rewrite Hfree. apply elem_of_app. left; fin.
      * intros T h. apply Hhist. reflexivity.
    + (* the slot was destroyed: its mask is empty *)
      pose proof (wi_dead _ _ Hw _ _ Hs Hidx) as Hmask.
      pose proof (GetEntityVersion_range (m_id s)) as Hver.
      set (newID := CreateEntityId 0 (GetEntityVersion (m_id s))) in *.
      assert (Hnew : GetEntityIndex newID = 0)
        by (apply GetEntityIndex_Create; [lia | exact Hver]).
      pose proof (lookup_lt_Some _ _ _ Hs) as Hlt.
      split.
      * destruct Hw as [Hr Hi Hd Hf Hb]. constructor; cbn [m_entities
          m_freeEntities m_componentPools].
        -- intros i d Hd'. destruct (decide (i = 0%nat)) as [-> | Hne].
           ++ rewrite list_lookup_insert_eq in Hd' by exact Hlt.
              injection Hd' as <-. cbn [set_id m_id].
              apply CreateEntityId_range; [lia | exact Hver].
           ++ rewrite list_lookup_insert_ne in Hd' by congruence. eauto.
        -- intros i d Hd'. destruct (decide (i = 0%nat)) as [-> | Hne].
           ++ rewrite list_lookup_insert_eq in Hd' by exact Hlt.
              injection Hd' as <-. cbn [set_id m_id]. left; fin.
           ++ rewrite list_lookup_insert_ne in Hd' by congruence. eauto.
        -- intros i d Hd'. destruct (decide (i = 0%nat)) as [-> | Hne].
           ++ rewrite list_lookup_insert_eq in Hd' by exact Hlt.
              injection Hd' as <-. cbn [set_id m_id m_mask]. intros _. exact Hmask.
           ++ rewrite list_lookup_insert_ne in Hd' by congruence. eauto.
        -- intros x Hx. apply Hf. rewrite Hfree. apply elem_of_app. left; fin.
        -- intros i d c Hd'. destruct (decide (i = 0%nat)) as [-> | Hne].
           ++ rewrite list_lookup_insert_eq in Hd' by exact Hlt.
              injection Hd' as <-. cbn [set_id m_mask]. rewrite Hmask.
              unfold bitset_empty. rewrite Z.bits_0. discriminate.
           ++ rewrite list_lookup_insert_ne in Hd' by congruence. eauto.
      * intros T h. apply Hhist. unfold has_bit. cbn [m_entities].
        destruct (decide (Z.to_nat (GetEntityIndex h) = 0%nat)) as [-> | Hne].
        -- rewrite list_lookup_insert_eq by exact Hlt. rewrite Hs.
           split; intros (c & d & _ & [= <-] & _ & Hbit); exfalso;
             cbn [set_id m_mask] in Hbit; rewrite Hmask in Hbit;
             unfold bitset_empty in Hbit; rewrite Z.bits_0 in Hbit; discriminate.
        -- rewrite list_lookup_insert_ne by congruence. reflexivity.
  - (* a slot is appended *)
    pose proof (pop_back_None _ Hpop) as Hfree.
    rewrite (NewEntity_append w Hfree) in Hrun. apply Ok_inj2 in Hrun as (<- & <-).
    cbn [m_entities] in Hlen. rewrite vlen_app in Hlen.
    change (vlen [_]) with 1 in Hlen.
    pose proof (vlen_nonneg (m_entities w)) as Hnn.
    assert (Hn : wrap32 (vlen (m_entities w)) = vlen (m_entities w))
      by (apply wrap32_small; unfold MAX_ENTITIES in Hlen; lia).
    rewrite Hn.
    assert (Hrange32 : 0 <= vlen (m_entities w) < 2 ^ 32)
      by (unfold MAX_ENTITIES in Hlen; lia).
    split.
    + destruct Hw as [Hr Hi Hd Hf Hb]. constructor; cbn [m_entities
        m_freeEntities m_componentPools].
      * intros i d Hd'. apply lookup_app_Some in Hd' as [Hd' | [Hge Hd']]; eauto.
        apply list_lookup_singleton_Some in Hd' as [_ <-]. cbn [m_id].
        apply CreateEntityId_range; lia.
      * intros i d Hd'. apply lookup_app_Some in Hd' as [Hd' | [Hge Hd']]; eauto.
        apply list_lookup_singleton_Some in Hd' as [Hi0 <-]. cbn [m_id]. left.
        rewrite GetEntityIndex_Create by lia. unfold vlen. lia.
      * intros i d Hd'. apply lookup_app_Some in Hd' as [Hd' | [Hge Hd']]; eauto.
        apply list_lookup_singleton_Some in Hd' as [_ <-]. reflexivity.
      * intros x Hx. apply elem_of_nil in Hx. contradiction.
      * intros i d c Hd'. apply lookup_app_Some in Hd' as [Hd' | [Hge Hd']]; eauto.
        apply list_lookup_singleton_Some in Hd' as [_ <-]. cbn [m_mask].
        unfold bitset_empty. rewrite Z.bits_0. discriminate.
    + intros T h. apply Hhist. unfold has_bit. cbn [m_entities].
      split; intros (c & d & Hc & Hd & Hid & Hbit); exists c, d;
        repeat split; try assumption.
      * apply lookup_app_Some in Hd as [Hd | [Hge Hd]]; [exact Hd |].
        apply list_lookup_singleton_Some in Hd as [_ <-]. cbn [m_mask] in Hbit.
        unfold bitset_empty in Hbit. rewrite Z.bits_0 in Hbit. discriminate.
      * apply lookup_app_l_Some; fin.
Qed.

Lemma DestroyEntity_inv (w w' : World) (id : EntityID) :
  DestroyEntity id w = Ok w' ->
  exists d, m_entities w !! Z.to_nat (GetEntityIndex id) = Some d /\
    w' = {| m_entities :=
              <[Z.to_nat (GetEntityIndex id) :=
                  {| m_id := destroyed_id id; m_mask := bitset_empty |}]>
                (m_entities w);
            m_freeEntities := m_freeEntities w ++ [0];
            m_componentPools := m_componentPools w |}.
Proof.
  intros Hrun.
  destruct (m_entities w !! Z.to_nat (GetEntityIndex id)) as [d |] eqn:Hd.
  - exists d. split; [reflexivity |].
    rewrite (DestroyEntity_Ok _ _ _ Hd) in Hrun. apply Ok_inj in Hrun as <-; auto.
  - unfold DestroyEntity, vec_update, vec_at in Hrun. rewrite Hd in Hrun.
    discriminate.
Qed.

Lemma index_to_nat_inj (a b : EntityID) :
  Z.to_nat (GetEntityIndex a) = Z.to_nat (GetEntityIndex b) ->
  GetEntityIndex a = GetEntityIndex b.
Proof.
  pose proof (GetEntityIndex_range a). pose proof (GetEntityIndex_range b). lia.
Qed.

Lemma DestroyEntity_Inv (g : Globals) (w w' : World) (id : EntityID)
    (log : list Event) :
  DestroyEntity id w = Ok w' ->
  WorldInv g w -> AttInv g w log ->
  WorldInv g w' /\ AttInv g w' (EvDestroyEntity id :: log).
Proof.
  intros Hrun Hw Hatt.
  destruct (DestroyEntity_inv _ _ _ Hrun) as (d0 & Hd0 & ->).
  pose proof (lookup_lt_Some _ _ _ Hd0) as Hlt.
  destruct (destroyed_id_decode id) as (Hidx & Hver & _).
  split.
  - destruct Hw as [Hr Hi Hd Hf Hb]. constructor; cbn [m_entities
      m_freeEntities m_componentPools].
    + intros i d Hd'.
      destruct (decide (i = Z.to_nat (GetEntityIndex id))) as [-> | Hne].
      * rewrite list_lookup_insert_eq in Hd' by exact Hlt.
        injection Hd' as <-. cbn [m_id]. unfold destroyed_id.
        apply CreateEntityId_range; apply wrap32_range.
      * rewrite list_lookup_insert_ne in Hd' by congruence. eauto.
    + intros i d Hd'.
      destruct (decide (i = Z.to_nat (GetEntityIndex id))) as [-> | Hne].
      * rewrite list_lookup_insert_eq in Hd' by exact Hlt.
        injection Hd' as <-. cbn [m_id]. right; fin.
      * rewrite list_lookup_insert_ne in Hd' by congruence. eauto.
    + intros i d Hd'.
      destruct (decide (i = Z.to_nat (GetEntityIndex id))) as [-> | Hne].
      * rewrite list_lookup_insert_eq in Hd' by exact Hlt.
        injection Hd' as <-. reflexivity.
      * rewrite list_lookup_insert_ne in Hd' by congruence. eauto.
    + intros x Hx. apply elem_of_app in Hx as [Hx | Hx]; [apply Hf; fin |].
      apply list_elem_of_singleton in Hx; fin.
    + intros i d c Hd'.
      destruct (decide (i = Z.to_nat (GetEntityIndex id))) as [-> | Hne].
      * rewrite list_lookup_insert_eq in Hd' by exact Hlt.
        injection Hd' as <-. cbn [m_mask]. unfold bitset_empty.
        rewrite Z.bits_0. discriminate.
      * rewrite list_lookup_insert_ne in Hd' by congruence. eauto.
  - intros T h. cbn [attachedb attaches detaches].
    destruct (Z.eqb_spec (GetEntityIndex id) (GetEntityIndex h)) as [Heq | Hne].
    + split; [discriminate |]. unfold has_bit. cbn [m_entities].
      rewrite <- Heq, list_lookup_insert_eq by exact Hlt.
      intros (c & d & _ & [= <-] & _ & Hbit). cbn [m_mask] in Hbit.
      unfold bitset_empty in Hbit. rewrite Z.bits_0 in Hbit. discriminate.
    + rewrite (Hatt T h). unfold has_bit. cbn [m_entities].
      rewrite list_lookup_insert_ne; [reflexivity |].
      intros Heq. apply Hne. apply index_to_nat_inj; fin.
Qed.

(** ** Assign and Remove keep the invariants *)

Lemma Assign_fresh_cases (T : string) (sizeofT : Z) (v : Payload) (id : EntityID)
    (g : Globals) (w : World) (d : EntityDesc) :
  m_entities w !! Z.to_nat (GetEntityIndex id) = Some d ->
  m_id d = id ->
  0 <= (GetId T g).1 ->
  exists pools' pool ptr,
    pools' !! Z.to_nat (GetId T g).1 = Some (Some pool) /\
    (forall (n : nat) q, m_componentPools w !! n = Some (Some q) ->
       exists q', pools' !! n = Some (Some q')) /\
    Assign T sizeofT v id g w =
      if MAX_ENTITIES <=? GetEntityIndex id then Undefined
      else if (GetId T g).1 <? MAX_COMPONENTS then
        Ok ((GetId T g).2,
            {| m_entities :=
                 <[Z.to_nat (GetEntityIndex id) :=
                     set_mask (Z.lor (m_mask d) (Z.shiftl 1 (GetId T g).1)) d]>
                   (m_entities w);
               m_freeEntities := m_freeEntities w;
               m_componentPools := pools' |},
            Some ptr)
      else Throw.
Proof.
  intros Hd Hid Hc. unfold Assign. destruct (GetId T g) as [c g'].
  cbn [fst snd] in *.
  rewrite (vec_at_lookup _ _ _ Hd). cbn [mbind Result_bind].
  destruct (Z.eqb_spec (m_id d) id) as [_ | Hne]; [| contradiction].
  cbn [negb].
  destruct (Assign_pools (m_componentPools w) c sizeofT Hc)
    as (p & pools2 & pool & -> & Hp2 & Hpool & Hkeep).
  cbn [mbind Result_bind]. rewrite Hp2. cbn [mbind Result_bind].
  rewrite (vec_at_lookup _ _ _ Hpool). cbn [mbind Result_bind].
  rewrite (vec_update_Ok _ _ _ _ Hpool).
  eexists _, _, _. split; [| split].
  3:{ destruct (MAX_ENTITIES <=? GetEntityIndex id); [reflexivity |].
      cbn [mbind Result_bind]. unfold bitset_set.
      destruct (c <? MAX_COMPONENTS); [| reflexivity].
      cbn [mbind Result_bind].
      rewrite (vec_update_Ok _ _ _ _ Hd). cbn [mbind Result_bind]. reflexivity. }
  - apply list_lookup_insert_eq. eapply lookup_lt_Some. exact Hpool.
  - intros n q Hq. specialize (Hkeep n q Hq).
    destruct (decide (Z.to_nat c = n)) as [<- | Hn].
    + eexists. apply list_lookup_insert_eq. eapply lookup_lt_Some. exact Hpool.
    + exists q. rewrite list_lookup_insert_ne; assumption.
Qed.

Lemma Assign_inv (T : string) (sizeofT : Z) (v : Payload) (id : EntityID)
    (g g' : Globals) (w w' : World) (ret : option Ptr) :
  0 <= (GetId T g).1 ->
  Assign T sizeofT v id g w = Ok (g', w', ret) ->
  g' = (GetId T g).2 /\
  exists d, m_entities w !! Z.to_nat (GetEntityIndex id) = Some d /\
    ((m_id d <> id /\ w' = w /\ ret = None) \/
     (m_id d = id /\ (GetId T g).1 < MAX_COMPONENTS /\
      GetEntityIndex id < MAX_ENTITIES /\
      exists pools' pool ptr,
        pools' !! Z.to_nat (GetId T g).1 = Some (Some pool) /\
        (forall (n : nat) q, m_componentPools w !! n = Some (Some q) ->
           exists q', pools' !! n = Some (Some q')) /\
        ret = Some ptr /\
        w' = {| m_entities :=
                  <[Z.to_nat (GetEntityIndex id) :=
                      set_mask (Z.lor (m_mask d) (Z.shiftl 1 (GetId T g).1)) d]>
                    (m_entities w);
                m_freeEntities := m_freeEntities w;
                m_componentPools := pools' |})).
Proof.
  intros Hc Hrun.
  destruct (m_entities w !! Z.to_nat (GetEntityIndex id)) as [d |] eqn:Hd.
  2:{ rewrite Assign_out_of_range in Hrun; [discriminate |].
      apply lookup_ge_None in Hd. unfold vlen.
      pose proof (GetEntityIndex_range id). lia. }
  destruct (Z.eq_dec (m_id d) id) as [Heq | Hne].
  - destruct (Assign_fresh_cases T sizeofT v id g w d Hd Heq Hc)
      as (pools' & pool & ptr & Hpool & Hkeep & Hcases).
    rewrite Hcases in Hrun.
    destruct (Z.leb_spec MAX_ENTITIES (GetEntityIndex id)); [discriminate |].
    destruct (Z.ltb_spec (GetId T g).1 MAX_COMPONENTS); [| discriminate].
    apply Ok_inj3 in Hrun as (<- & <- & <-). split; [reflexivity |].
    exists d. split; [reflexivity |]. right.
    repeat (split; [assumption |]). exists pools', pool, ptr. auto.
  - rewrite (Assign_stale_Ok _ _ _ _ _ _ d Hd Hne) in Hrun.
    apply Ok_inj3 in Hrun as (<- & <- & <-). split; [reflexivity |].
    exists d. split; [reflexivity |]. left; fin.
Qed.

Lemma Remove_inv (T : string) (id : EntityID) (g g' : Globals) (w w' : World) :
  Remove T id g w = Ok (g', w') ->
  exists d, m_entities w !! Z.to_nat (GetEntityIndex id) = Some d /\
    ((m_id d <> id /\ g' = g /\ w' = w) \/
     (m_id d = id /\ (GetId T g).1 < MAX_COMPONENTS /\
      g' = (GetId T g).2 /\
      w' = {| m_entities :=
                <[Z.to_nat (GetEntityIndex id) :=
                    set_mask (Z.ldiff (m_mask d) (Z.shiftl 1 (GetId T g).1)) d]>
                  (m_entities w);
              m_freeEntities := m_freeEntities w;
              m_componentPools := m_componentPools w |})).
Proof.
  intros Hrun.
  destruct (m_entities w !! Z.to_nat (GetEntityIndex id)) as [d |] eqn:Hd.
  2:{ rewrite Remove_out_of_range in Hrun; [discriminate |].
      apply lookup_ge_None in Hd. unfold vlen.
      pose proof (GetEntityIndex_range id). lia. }
  exists d. split; [reflexivity |].
  destruct (Z.eq_dec (m_id d) id) as [Heq | Hne].
  - right. destruct (Z.lt_ge_cases (GetId T g).1 MAX_COMPONENTS) as [Hlt | Hge].
    + rewrite (Remove_fresh_Ok _ _ _ _ d Hd Heq Hlt) in Hrun.
      apply Ok_inj2 in Hrun as (<- & <-). auto.
    + exfalso. unfold Remove in Hrun. rewrite (vec_at_lookup _ _ _ Hd) in Hrun.
      cbn [mbind Result_bind] in Hrun.
      destruct (Z.eqb_spec (m_id d) id) as [_ | Hne]; [| contradiction].
      cbn [negb] in Hrun. destruct (GetId T g) as [c g1]. cbn [fst] in Hge.
      unfold bitset_reset_pos in Hrun.
      destruct (Z.ltb_spec c MAX_COMPONENTS); [lia |]. discriminate.
  - left. rewrite (Remove_stale_Ok _ _ _ _ d Hd Hne) in Hrun.
    apply Ok_inj2 in Hrun as (<- & <-). auto.
Qed.

(** Replacing the mask of the slot that stores [id], possibly with more
    pools around. *)
Lemma WorldInv_set_mask (g : Globals) (w : World) (id : EntityID)
    (d : EntityDesc) (m' : ComponentMask) (pools' : list (option ComponentPool)) :
  WorldInv g w ->
  m_entities w !! Z.to_nat (GetEntityIndex id) = Some d ->
  m_id d = id ->
  GetEntityIndex id < MAX_ENTITIES ->
  (forall (n : nat) q, m_componentPools w !! n = Some (Some q) ->
     exists q', pools' !! n = Some (Some q')) ->
  (forall c, Z.testbit m' c = true ->
     Z.testbit (m_mask d) c = true \/
     ((exists T, s_componentId g !! T = Some c) /\
      (exists pool, pools' !! Z.to_nat c = Some (Some pool)))) ->
  WorldInv g
    {| m_entities := <[Z.to_nat (GetEntityIndex id) := set_mask m' d]> (m_entities w);
       m_freeEntities := m_freeEntities w;
       m_componentPools := pools' |}.
Proof.
  intros [Hr Hi Hd Hf Hb] Hd0 Hid Hidx Hkeep Hbits.
  pose proof (lookup_lt_Some _ _ _ Hd0) as Hlt.
  assert (Hold : forall (i : nat) d' c, m_entities w !! i = Some d' ->
            Z.testbit (m_mask d') c = true ->
            (exists T, s_componentId g !! T = Some c) /\
            (exists pool, pools' !! Z.to_nat c = Some (Some pool))).
  { intros i d' c Hd' Hbit. destruct (Hb i d' c Hd' Hbit) as [HT [pool Hpool]].
    split; [exact HT |]. destruct (Hkeep _ _ Hpool) as [q' Hq']. exists q'; fin. }
  constructor; cbn [m_entities m_freeEntities m_componentPools].
  - intros i d' Hd'.
    destruct (decide (i = Z.to_nat (GetEntityIndex id))) as [-> | Hne].
    + rewrite list_lookup_insert_eq in Hd' by exact Hlt.
      injection Hd' as <-. cbn [set_mask m_id]. eauto.
    + rewrite list_lookup_insert_ne in Hd' by congruence. eauto.
  - intros i d' Hd'.
    destruct (decide (i = Z.to_nat (GetEntityIndex id))) as [-> | Hne].
    + rewrite list_lookup_insert_eq in Hd' by exact Hlt.
      injection Hd' as <-. cbn [set_mask m_id]. eauto.
    + rewrite list_lookup_insert_ne in Hd' by congruence. eauto.
  - intros i d' Hd'.
    destruct (decide (i = Z.to_nat (GetEntityIndex id))) as [-> | Hne].
    + rewrite list_lookup_insert_eq in Hd' by exact Hlt.
      injection Hd' as <-. cbn [set_mask m_id m_mask]. rewrite Hid.
      unfold INVALID_INDEX, MAX_ENTITIES in *. lia.
    + rewrite list_lookup_insert_ne in Hd' by congruence. eauto.
  - exact Hf.
  - intros i d' c Hd' Hbit.
    destruct (decide (i = Z.to_nat (GetEntityIndex id))) as [-> | Hne].
    + rewrite list_lookup_insert_eq in Hd' by exact Hlt.
      injection Hd' as <-. cbn [set_mask m_mask] in Hbit.
      destruct (Hbits c Hbit) as [Hbit' | Hnew]; [| exact Hnew].
      apply (Hold _ _ _ Hd0 Hbit').
    + rewrite list_lookup_insert_ne in Hd' by congruence. eauto.
Qed.

(** What [has_bit] becomes when the mask of the slot that stores [id] is
    replaced. *)
Lemma has_bit_set_mask (g : Globals) (w : World) (id : EntityID)
    (d : EntityDesc) (m' : ComponentMask) (pools' : list (option ComponentPool))
    (T : string) (h : EntityID) :
  m_entities w !! Z.to_nat (GetEntityIndex id) = Some d ->
  m_id d = id ->
  has_bit g
    {| m_entities := <[Z.to_nat (GetEntityIndex id) := set_mask m' d]> (m_entities w);
       m_freeEntities := m_freeEntities w;
       m_componentPools := pools' |} T h
  <-> if decide (h = id)
      then exists c, s_componentId g !! T = Some c /\ Z.testbit m' c = true
      else has_bit g w T h.
Proof.
  intros Hd0 Hid. pose proof (lookup_lt_Some _ _ _ Hd0) as Hlt.
  unfold has_bit. cbn [m_entities].
  destruct (decide (h = id)) as [-> | Hne].
  - rewrite list_lookup_insert_eq by exact Hlt. split.
    + intros (c & d' & Hc & [= <-] & _ & Hbit). exists c; fin.
    + intros (c & Hc & Hbit). exists c, (set_mask m' d). auto.
  - destruct (decide (Z.to_nat (GetEntityIndex h) = Z.to_nat (GetEntityIndex id)))
      as [Heq | Hneq].
    + rewrite Heq, list_lookup_insert_eq, Hd0 by exact Hlt.
      split; intros (c & d' & _ & [= <-] & Hid' & _); cbn [set_mask m_id] in *;
        congruence.
    + rewrite list_lookup_insert_ne by congruence. reflexivity.
Qed.

Lemma has_bit_here (g : Globals) (w : World) (id : EntityID) (d : EntityDesc)
    (T : string) :
  m_entities w !! Z.to_nat (GetEntityIndex id) = Some d ->
  m_id d = id ->
  has_bit g w T id <->
  exists c, s_componentId g !! T = Some c /\ Z.testbit (m_mask d) c = true.
Proof.
  intros Hd0 Hid. unfold has_bit. rewrite Hd0. split.
  - intros (c & d' & Hc & [= <-] & _ & Hbit). exists c; fin.
  - intros (c & Hc & Hbit). exists c, d; fin.
Qed.

Lemma Assign_Inv (T : string) (sizeofT : Z) (v : Payload) (id : EntityID)
    (g g' : Globals) (w w' : World) (ret : option Ptr) (log : list Event) :
  Assign T sizeofT v id g w = Ok (g', w', ret) ->
  Z.of_nat (size (s_componentId g')) <= MAX_COMPONENTS ->
  Inv g w log ->
  Inv g' w' (EvAssign T id ret :: log).
Proof.
  intros Hrun Hsize Hinv.
  assert (Hc0 : 0 <= (GetId T g).1).
  { destruct Hinv as (Hreg & _). unfold GetId.
    destruct (s_componentId g !! T) as [c |] eqn:HT; cbn [fst].
    - apply (reg_range _ Hreg _ _ HT).
    - rewrite (reg_counter _ Hreg). lia. }
  destruct (Assign_inv _ _ _ _ _ _ _ _ _ Hc0 Hrun) as (-> & d & Hd & Hcases).
  destruct (GetId_Inv T g w log Hinv Hsize) as (Hreg & Hw & Hatt).
  pose proof (GetId_registers T g) as HT.
  destruct Hcases as [(Hne & -> & ->) | (Heq & Hc & Hidx & pools' & pool & ptr &
                                         Hpool & Hkeep & -> & ->)].
  - (* stale handle: nothing is attached *)
    split; [exact Hreg |]. split; [exact Hw |].
    apply AttInv_neutral; [| exact Hatt]. intros T' h. split; reflexivity.
  - split; [exact Hreg |]. split.
    + apply (WorldInv_set_mask _ _ _ _ _ _ Hw Hd Heq Hidx Hkeep).
      intros c Hbit. rewrite testbit_set in Hbit by exact Hc0.
      apply orb_true_iff in Hbit as [Hbit | Hbit]; [left; fin |].
      apply Z.eqb_eq in Hbit as <-. right. split; [exists T; fin | exists pool; fin].
    + intros T' h. rewrite (has_bit_set_mask _ _ _ _ _ _ _ _ Hd Heq).
      cbn [attachedb attaches detaches].
      destruct (decide (h = id)) as [-> | Hne].
      * rewrite Z.eqb_refl, andb_true_r.
        destruct (decide (T = T')) as [<- | HneT].
        -- rewrite bool_decide_eq_true_2 by reflexivity.
           split; [| reflexivity]. intros _. exists (GetId T g).1.
           split; [exact HT |]. rewrite testbit_set by exact Hc0.
           rewrite Z.eqb_refl. apply orb_true_r.
        -- rewrite bool_decide_eq_false_2 by exact HneT.
           rewrite (Hatt T' id), (has_bit_here _ _ _ _ _ Hd Heq).
           split; intros (c & Hc' & Hbit); exists c; (split; [exact Hc' |]).
           ++ rewrite testbit_set by exact Hc0. rewrite Hbit; fin.
           ++ rewrite testbit_set in Hbit by exact Hc0.
              apply orb_true_iff in Hbit as [Hbit | Hbit]; [exact Hbit |].
              apply Z.eqb_eq in Hbit as <-.
              exfalso. apply HneT. apply (reg_inj _ Hreg _ _ _ HT Hc').
      * destruct (Z.eqb_spec id h) as [-> | _]; [contradiction |].
        rewrite andb_false_r. apply Hatt.
Qed.

Lemma Remove_Inv (T : string) (id : EntityID) (g g' : Globals) (w w' : World)
    (log : list Event) :
  Remove T id g w = Ok (g', w') ->
  vlen (m_entities w) <= MAX_ENTITIES ->
  Z.of_nat (size (s_componentId g')) <= MAX_COMPONENTS ->
  Inv g w log ->
  Inv g' w' (EvRemove T id :: log).
Proof.
  intros Hrun Hlen Hsize Hinv.
  destruct (Remove_inv _ _ _ _ _ _ Hrun) as (d & Hd & Hcases).
  destruct Hcases as [(Hne & -> & ->) | (Heq & Hc & -> & ->)].
  - (* stale handle: the slot does not store [id] *)
    destruct Hinv as (Hreg & Hw & Hatt).
    split; [exact Hreg |]. split; [exact Hw |].
    intros T' h. cbn [attachedb attaches detaches].
    destruct (bool_decide (T = T') && (id =? h)) eqn:Hsame; [| apply Hatt].
    apply andb_true_iff in Hsame as [_ Hh]. apply Z.eqb_eq in Hh as <-.
    split; [discriminate |]. unfold has_bit. rewrite Hd.
    intros (c & d' & _ & [= <-] & Hid & _). contradiction.
  - assert (Hc0 : 0 <= (GetId T g).1).
    { destruct Hinv as (Hreg & _). unfold GetId.
      destruct (s_componentId g !! T) as [c |] eqn:HT; cbn [fst].
      - apply (reg_range _ Hreg _ _ HT).
      - rewrite (reg_counter _ Hreg). lia. }
    destruct (GetId_Inv T g w log Hinv Hsize) as (Hreg & Hw & Hatt).
    pose proof (GetId_registers T g) as HT.
    assert (Hidx : GetEntityIndex id < MAX_ENTITIES).
    { pose proof (lookup_lt_Some _ _ _ Hd). pose proof (GetEntityIndex_range id).
      unfold vlen in Hlen. lia. }
    split; [exact Hreg |]. split.
    + apply (WorldInv_set_mask _ _ _ _ _ _ Hw Hd Heq Hidx); [eauto |].
      intros c Hbit. rewrite testbit_reset in Hbit by exact Hc0.
      apply andb_true_iff in Hbit as [Hbit _]. left; fin.
    + intros T' h. rewrite (has_bit_set_mask _ _ _ _ _ _ _ _ Hd Heq).
      cbn [attachedb attaches detaches].
      destruct (decide (h = id)) as [-> | Hne].
      * rewrite Z.eqb_refl, andb_true_r.
        destruct (decide (T = T')) as [<- | HneT].
        -- rewrite bool_decide_eq_true_2 by reflexivity.
           split; [discriminate |]. intros (c & Hc' & Hbit).
           pose proof (registered_once _ _ _ _ HT Hc') as <-.
           rewrite testbit_reset, Z.eqb_refl, andb_false_r in Hbit by exact Hc0.
           discriminate.
        -- rewrite bool_decide_eq_false_2 by exact HneT.
           rewrite (Hatt T' id), (has_bit_here _ _ _ _ _ Hd Heq).
           split; intros (c & Hc' & Hbit); exists c; (split; [exact Hc' |]).
           ++ rewrite testbit_reset by exact Hc0. rewrite Hbit.
              destruct (Z.eqb_spec (GetId T g).1 c) as [<- | _]; [| reflexivity].
              exfalso. apply HneT. apply (reg_inj _ Hreg _ _ _ HT Hc').
           ++ rewrite testbit_reset in Hbit by exact Hc0.
              apply andb_true_iff in Hbit as [Hbit _]; fin.
      * destruct (Z.eqb_spec id h) as [-> | _]; [contradiction |].
        rewrite andb_false_r. apply Hatt.
Qed.

(** ** One call of a client program *)

Lemma vec_update_length {A : Type} (v v' : list A) (i : Z) (f : A -> A) :
  vec_update v i f = Ok v' -> length v' = length v.
Proof.
  unfold vec_update. destruct (vec_at v i); cbn [mbind Result_bind];
    try discriminate.
  intros [= <-]. apply length_insert.
Qed.

Lemma NewEntity_mono (w w' : World) (id : EntityID) :
  NewEntity w = Ok (w', id) ->
  (length (m_entities w) <= length (m_entities w'))%nat.
Proof.
  unfold NewEntity. intros H.
  bind_inv H; apply Ok_inj2 in H as (<- & <-); cbn [m_entities].
  - match goal with
    | E : vec_update _ _ _ = Ok _ |- _ => rewrite (vec_update_length _ _ _ _ E)
    end. reflexivity.
  - rewrite length_app. lia.
Qed.

Lemma DestroyEntity_mono (w w' : World) (id : EntityID) :
  DestroyEntity id w = Ok w' ->
  length (m_entities w') = length (m_entities w).
Proof.
  intros H. destruct (DestroyEntity_inv _ _ _ H) as (d & _ & ->).
  apply length_insert.
Qed.

Lemma Assign_mono (T : string) (sizeofT : Z) (v : Payload) (id : EntityID)
    (g g' : Globals) (w w' : World) (ret : option Ptr) :
  Assign T sizeofT v id g w = Ok (g', w', ret) ->
  g' = (GetId T g).2 /\ length (m_entities w') = length (m_entities w).
Proof.
  unfold Assign. intros H. destruct (GetId T g) as [c g1]. cbn [snd].
  bind_inv H; apply Ok_inj3 in H as (<- & <- & <-); split; try reflexivity.
  cbn [m_entities]. eapply vec_update_length. eassumption.
Qed.

Lemma Remove_mono (T : string) (id : EntityID) (g g' : Globals) (w w' : World) :
  Remove T id g w = Ok (g', w') ->
  (g' = g \/ g' = (GetId T g).2) /\
  length (m_entities w') = length (m_entities w).
Proof.
  intros H. destruct (Remove_inv _ _ _ _ _ _ H)
    as (d & _ & [(_ & -> & ->) | (_ & _ & -> & ->)]).
  - split; [left; fin | reflexivity].
  - split; [right; fin | apply length_insert].
Qed.

Lemma Get_globals (T : string) (id : EntityID) (g g' : Globals) (w : World)
    (p : option Ptr) :
  Get T id g w = Ok (g', p) -> g' = (GetId T g).2.
Proof.
  unfold Get. intros H. destruct (GetId T g) as [c g1]. cbn [snd].
  bind_inv H; apply Ok_inj2 in H as (<- & <-); auto.
Qed.

Lemma Has_globals (T : string) (id : EntityID) (g g' : Globals) (w : World)
    (b : bool) :
  Has T id g w = Ok (g', b) -> g' = (GetId T g).2.
Proof.
  unfold Has. intros H.
  destruct (Get T id g w) as [[g1 p] | | |] eqn:HGet;
    cbn [mbind Result_bind] in H; try discriminate.
  apply Ok_inj2 in H as (<- & <-). apply (Get_globals _ _ _ _ _ _ HGet).
Qed.

Lemma RosterView_ctor_globals (Ts : list string) (g g1 : Globals) (v : RosterView) :
  RosterView_ctor Ts g = Ok (g1, v) -> g1 = (GetIds Ts g).2.
Proof.
  unfold RosterView_ctor. destruct Ts as [| T Ts]; cbn [length Nat.eqb].
  - intros [= <- <-]; fin.
  - destruct (GetIds (T :: Ts) g) as [cs g'].
    destruct (set_each (0 :: cs) bitset_empty); cbn [mbind Result_bind];
      try discriminate.
    intros [= <- <-]; fin.
Qed.

Lemma query_globals (Ts : list string) (fuel : nat) (g g' : Globals) (w : World)
    (l : list EntityID) :
  query Ts fuel g w = Ok (g', l) -> g' = (GetIds Ts g).2.
Proof.
  intros Hq.
  destruct (RosterView_ctor Ts g) as [[g1 range] | | |] eqn:Hctor;
    try (unfold query, query_visits in Hq; rewrite Hctor in Hq; discriminate).
  rewrite (query_unfold _ _ _ _ _ _ Hctor) in Hq.
  destruct (begin_scan fuel w (m_componentMask range) 0);
    cbn [mbind Result_bind] in Hq; try discriminate.
  destruct (range_loop _ _ _ _); cbn [mbind Result_bind] in Hq; try discriminate.
  apply Ok_inj2 in Hq as (<- & _). apply (RosterView_ctor_globals _ _ _ _ Hctor).
Qed.

(** No call shrinks the entity table or forgets a component type. *)
Lemma exec_mono (op : Op) (g g' : Globals) (w w' : World) (ev : Event) :
  exec op g w = Ok (g', w', ev) ->
  (length (m_entities w) <= length (m_entities w'))%nat /\
  (size (s_componentId g) <= size (s_componentId g'))%nat.
Proof.
  destruct op as [| id | T sizeofT v id | T id | T id | T id | Ts fuel];
    cbn [exec]; intros H.
  - destruct (NewEntity w) as [[w1 id] | | |] eqn:E;
      cbn [mbind Result_bind] in H; try discriminate.
    apply Ok_inj3 in H as (<- & <- & <-). split; [apply (NewEntity_mono _ _ _ E) | lia].
  - destruct (DestroyEntity id w) as [w1 | | |] eqn:E;
      cbn [mbind Result_bind] in H; try discriminate.
    apply Ok_inj3 in H as (<- & <- & <-). rewrite (DestroyEntity_mono _ _ _ E). lia.
  - destruct (Assign T sizeofT v id g w) as [[[g1 w1] p] | | |] eqn:E;
      cbn [mbind Result_bind] in H; try discriminate.
    apply Ok_inj3 in H as (<- & <- & <-). destruct (Assign_mono _ _ _ _ _ _ _ _ _ E) as [-> ->].
    split; [lia | apply GetId_size].
  - destruct (Remove T id g w) as [[g1 w1] | | |] eqn:E;
      cbn [mbind Result_bind] in H; try discriminate.
    apply Ok_inj3 in H as (<- & <- & <-). destruct (Remove_mono _ _ _ _ _ _ E) as [Hg ->].
    split; [lia |]. destruct Hg as [-> | ->]; [lia | apply GetId_size].
  - destruct (Get T id g w) as [[g1 p] | | |] eqn:E;
      cbn [mbind Result_bind] in H; try discriminate.
    apply Ok_inj3 in H as (<- & <- & <-). rewrite (Get_globals _ _ _ _ _ _ E).
    split; [lia | apply GetId_size].
  - destruct (Has T id g w) as [[g1 b] | | |] eqn:E;
      cbn [mbind Result_bind] in H; try discriminate.
    apply Ok_inj3 in H as (<- & <- & <-). rewrite (Has_globals _ _ _ _ _ _ E).
    split; [lia | apply GetId_size].
  - destruct (query Ts fuel g w) as [[g1 l] | | |] eqn:E;
      cbn [mbind Result_bind] in H; try discriminate.
    apply Ok_inj3 in H as (<- & <- & <-). rewrite (query_globals _ _ _ _ _ _ E).
    split; [lia | apply GetIds_size].
Qed.

Lemma run_mono (ops : list Op) :
  forall (g g' : Globals) (w w' : World) (log log' : list Event),
    run ops g w log = Ok (g', w', log') ->
    (length (m_entities w) <= length (m_entities w'))%nat /\
    (size (s_componentId g) <= size (s_componentId g'))%nat.
Proof.
  induction ops as [| op ops IH]; intros g g' w w' log log' H; cbn [run] in H.
  - apply Ok_inj3 in H as (<- & <- & <-). lia.
  - destruct (exec op g w) as [[[g1 w1] ev] | | |] eqn:E;
      cbn [mbind Result_bind] in H; try discriminate.
    destruct (exec_mono _ _ _ _ _ _ E). destruct (IH _ _ _ _ _ _ H). lia.
Qed.

Lemma within_ceilings_mono (g g' : Globals) (w w' : World) :
  (length (m_entities w) <= length (m_entities w'))%nat ->
  (size (s_componentId g) <= size (s_componentId g'))%nat ->
  within_ceilings g' w' -> within_ceilings g w.
Proof. unfold within_ceilings, vlen. lia. Qed.

(** Every call that returns within the ceilings keeps the invariants. *)
Lemma exec_Inv (op : Op) (g g' : Globals) (w w' : World) (ev : Event)
    (log : list Event) :
  exec op g w = Ok (g', w', ev) ->
  within_ceilings g' w' ->
  Inv g w log ->
  Inv g' w' (ev :: log).
Proof.
  intros H Hceil Hinv. pose proof (exec_mono _ _ _ _ _ _ H) as [Hlen Hsize].
  destruct Hceil as [Hceil_e Hceil_c].
  destruct op as [| id | T sizeofT v id | T id | T id | T id | Ts fuel];
    cbn [exec] in H.
  - destruct (NewEntity w) as [[w1 id] | | |] eqn:E;
      cbn [mbind Result_bind] in H; try discriminate.
    apply Ok_inj3 in H as (<- & <- & <-). destruct Hinv as (Hreg & Hw & Hatt).
    destruct (NewEntity_Inv g _ _ _ log E Hceil_e Hw Hatt) as [Hw' Hatt'].
    split; [exact Hreg | split; assumption].
  - destruct (DestroyEntity id w) as [w1 | | |] eqn:E;
      cbn [mbind Result_bind] in H; try discriminate.
    apply Ok_inj3 in H as (<- & <- & <-). destruct Hinv as (Hreg & Hw & Hatt).
    destruct (DestroyEntity_Inv g _ _ _ log E Hw Hatt) as [Hw' Hatt'].
    split; [exact Hreg | split; assumption].
  - destruct (Assign T sizeofT v id g w) as [[[g1 w1] p] | | |] eqn:E;
      cbn [mbind Result_bind] in H; try discriminate.
    apply Ok_inj3 in H as (<- & <- & <-).
    apply (Assign_Inv _ _ _ _ _ _ _ _ _ _ E); assumption.
  - destruct (Remove T id g w) as [[g1 w1] | | |] eqn:E;
      cbn [mbind Result_bind] in H; try discriminate.
    apply Ok_inj3 in H as (<- & <- & <-).
    apply (Remove_Inv _ _ _ _ _ _ _ E); try assumption.
    unfold vlen in *. lia.
  - destruct (Get T id g w) as [[g1 p] | | |] eqn:E;
      cbn [mbind Result_bind] in H; try discriminate.
    apply Ok_inj3 in H as (<- & <- & <-).
    pose proof (Get_globals _ _ _ _ _ _ E) as ->.
    destruct (GetId_Inv T g w log Hinv Hceil_c) as (Hreg & Hw & Hatt).
    split; [exact Hreg | split; [exact Hw |]].
    apply AttInv_neutral; [intros; split; reflexivity | exact Hatt].
  - destruct (Has T id g w) as [[g1 b] | | |] eqn:E;
      cbn [mbind Result_bind] in H; try discriminate.
    apply Ok_inj3 in H as (<- & <- & <-).
    pose proof (Has_globals _ _ _ _ _ _ E) as ->.
    destruct (GetId_Inv T g w log Hinv Hceil_c) as (Hreg & Hw & Hatt).
    split; [exact Hreg | split; [exact Hw |]].
    apply AttInv_neutral; [intros; split; reflexivity | exact Hatt].
  - destruct (query Ts fuel g w) as [[g1 l] | | |] eqn:E;
      cbn [mbind Result_bind] in H; try discriminate.
    apply Ok_inj3 in H as (<- & <- & <-).
    pose proof (query_globals _ _ _ _ _ _ E) as ->.
    destruct (GetIds_Inv Ts g w log Hinv Hceil_c) as (Hreg & Hw & Hatt).
    split; [exact Hreg | split; [exact Hw |]].
    apply AttInv_neutral; [intros; split; reflexivity | exact Hatt].
Qed.

Lemma run_Inv (ops : list Op) :
  forall (g g' : Globals) (w w' : World) (log log' : list Event),
    run ops g w log = Ok (g', w', log') ->
    within_ceilings g' w' ->
    Inv g w log ->
    Inv g' w' log'.
Proof.
  induction ops as [| op ops IH]; intros g g' w w' log log' H Hceil Hinv;
    cbn [run] in H.
  - apply Ok_inj3 in H as (<- & <- & <-); auto.
  - destruct (exec op g w) as [[[g1 w1] ev] | | |] eqn:E;
      cbn [mbind Result_bind] in H; try discriminate.
    apply (IH _ _ _ _ _ _ H Hceil).
    apply (exec_Inv _ _ _ _ _ _ _ E); [| exact Hinv].
    destruct (run_mono _ _ _ _ _ _ _ H).
    apply (within_ceilings_mono g1 g' w1 w'); fin.
Qed.

Lemma Inv_initial : Inv initial_globals World_new [].
Proof.
  split; [| split].
  - constructor; cbn [initial_globals s_componentCounter s_componentId].
    + rewrite map_size_empty. reflexivity.
    + intros T c H. rewrite lookup_empty in H. discriminate.
    + intros T T' c H. rewrite lookup_empty in H. discriminate.
  - constructor; cbn [World_new m_entities m_freeEntities m_componentPools].
    + intros i d H. rewrite lookup_nil in H. discriminate.
    + intros i d H. rewrite lookup_nil in H. discriminate.
    + intros i d H. rewrite lookup_nil in H. discriminate.
    + intros x H. apply elem_of_nil in H. contradiction.
    + intros i d c H. rewrite lookup_nil in H. discriminate.
  - intros T h. cbn [attachedb]. split; [discriminate |].
    intros (c & d & H & _). cbn in H. rewrite lookup_empty in H. discriminate.
Qed.

(** ** Has and the history of a handle *)

Lemma attachedb_spec (T : string) (h : EntityID) (log : list Event) :
  attachedb T h log = true <-> attached (detaches T h) T h log.
Proof.
  split.
  - induction log as [| ev log IH]; cbn [attachedb]; [discriminate |].
    destruct (attaches T h ev) eqn:Ha.
    + intros _. exists [], ev, log; fin.
    + destruct (detaches T h ev) eqn:Hdet; [discriminate |].
      intros H. destruct (IH H) as (newer & ev0 & older & -> & Ha0 & Hno).
      exists (ev :: newer), ev0, older. repeat split; [exact Ha0 |].
      cbn [forallb]. rewrite Hdet, Hno; fin.
  - intros (newer & ev0 & older & -> & Ha0 & Hno).
    induction newer as [| ev newer IH]; cbn [app attachedb].
    + rewrite Ha0; fin.
    + cbn [forallb] in Hno. apply andb_true_iff in Hno as [Hdet Hno].
      apply negb_true_iff in Hdet. rewrite Hdet.
      destruct (attaches T h ev); [reflexivity | apply IH; fin].
Qed.

(** The result of [Has<T>] for a handle stored in its slot is the scan of
    the log. *)
Lemma Has_attachedb (ops : list Op) (g : Globals) (w : World)
    (log : list Event) (T : string) (h : EntityID) (d : EntityDesc)
    (Hrun : run_main ops = Ok (g, w, log))
    (Hceil : within_ceilings (GetId T g).2 w)
    (Hd : m_entities w !! Z.to_nat (GetEntityIndex h) = Some d)
    (Hlive : m_id d = h) :
  Has T h g w = Ok ((GetId T g).2, attachedb T h log).
Proof.
  assert (Hinv : Inv g w log).
  { apply (run_Inv _ _ _ _ _ _ _ Hrun); [| apply Inv_initial].
    apply (within_ceilings_mono g (GetId T g).2 w w);
      [reflexivity | apply GetId_size | exact Hceil]. }
  destruct (GetId_Inv T g w log Hinv (proj2 Hceil)) as (Hreg & Hw & Hatt).
  pose proof (GetId_registers T g) as HT.
  pose proof (reg_range _ Hreg _ _ HT) as Hc.
  assert (Hc' : 0 <= (GetId T g).1 < MAX_COMPONENTS)
    by (destruct Hceil as [_ Hsz]; lia).
  destruct (Get_Ok T h g w d Hd Hc') as (p & HGet & Hp).
  unfold Has. rewrite HGet. cbn [mbind Result_bind]. do 2 f_equal.
  apply eq_true_iff_eq.
  rewrite (Hatt T h), (has_bit_here _ _ _ _ _ Hd Hlive).
  rewrite negb_true_iff, bool_decide_eq_false, Hp. split.
  - intros [Hbit _]. exists (GetId T g).1; fin.
  - intros (c & Hc0 & Hbit). pose proof (registered_once _ _ _ _ HT Hc0) as <-.
    split; [exact Hbit |]. apply (wi_bits _ _ Hw _ _ _ Hd Hbit).
Qed.

(** C4 (the code at a failing input).  A client creates two entities and
    destroys the second; the entity it creates next is handed the handle
    of the first, which is still alive.  The client destroys the first
    entity, creates a fourth, which reuses slot 0 with generation 1, and
    gives it a [Transform].  Then it destroys the third entity, for the
    first time; its handle addresses slot 0 as well, so [DestroyEntity]
    clears the mask of the fourth.  The entity created next is handed the
    handle of the fourth.  Throughout, the client passed only handles it
    held, and each of them to [DestroyEntity] once; the last
    [DestroyEntity] is nevertheless on a handle that its slot no longer
    stores.  The handle of the
    fourth entity is stored in its slot, [Assign<Transform>] succeeded on
    it, and neither [Remove<Transform>] nor [DestroyEntity] was called
    with it since; [Has<Transform>] returns [false] for it. *)
Theorem Has_false_for_attached_entity :
  exists ops g w log (h0 h1 h : EntityID) p d,
    ops = [OpNewEntity;
           OpNewEntity;
           OpDestroyEntity h1;
           OpNewEntity;
           OpDestroyEntity h0;
           OpNewEntity;
           OpAssign "Transform" 40 [] h;
           OpDestroyEntity h0;
           OpNewEntity] /\
    h0 = CreateEntityId 0 0 /\ h1 = CreateEntityId 1 0 /\
    h = CreateEntityId 0 1 /\
    run_main ops = Ok (g, w, log) /\
    log = [EvNewEntity h;
           EvDestroyEntity h0;
           EvAssign "Transform" h (Some p);
           EvNewEntity h;
           EvDestroyEntity h0;
           EvNewEntity h0;
           EvDestroyEntity h1;
           EvNewEntity h1;
           EvNewEntity h0] /\
    held log = Some [h; h] /\
    destroys_stored ops initial_globals World_new = false /\
    m_entities w !! Z.to_nat (GetEntityIndex h) = Some d /\
    m_id d = h /\
    attached (detaches_same "Transform" h) "Transform" h log /\
    Has "Transform" h g w = Ok (g, false).
Proof.
  do 9 eexists. split; [reflexivity |].
  repeat split; try (vm_compute; reflexivity).
  eexists [_; _], _, _. repeat split.
Qed.

(** X29.  Take any client program run from process start on a
    fresh world, all of whose calls returned, ending within the ceilings on
    entities and component types, and a handle [h] that is stored in the
    slot it addresses.  Then [Has<T>(h)] returns, and it returns [true]
    exactly when the log has a successful [Assign<T>(h, ...)] after which
    there is neither a [Remove<T>(h)] nor a [DestroyEntity] on any handle
    with the index of [h]. *)
Theorem Has_iff_attached (ops : list Op) (g : Globals) (w : World)
    (log : list Event) (T : string) (h : EntityID) (d : EntityDesc)
    (Hrun : run_main ops = Ok (g, w, log))
    (Hceil : within_ceilings (GetId T g).2 w)
    (Hd : m_entities w !! Z.to_nat (GetEntityIndex h) = Some d)
    (Hlive : m_id d = h) :
  exists b, Has T h g w = Ok ((GetId T g).2, b) /\
    (b = true <-> attached (detaches T h) T h log).
Proof.
  assert (Hinv : Inv g w log).
  { apply (run_Inv _ _ _ _ _ _ _ Hrun); [| apply Inv_initial].
    apply (within_ceilings_mono g (GetId T g).2 w w);
      [reflexivity | apply GetId_size | exact Hceil]. }
  destruct (GetId_Inv T g w log Hinv (proj2 Hceil)) as (Hreg & Hw & Hatt).
  pose proof (GetId_registers T g) as HT.
  pose proof (reg_range _ Hreg _ _ HT) as Hc.
  assert (Hc' : 0 <= (GetId T g).1 < MAX_COMPONENTS)
    by (destruct Hceil as [_ Hsz]; lia).
  destruct (Get_Ok T h g w d Hd Hc') as (p & HGet & Hp).
  exists (negb (bool_decide (p = None))). split.
  - unfold Has. rewrite HGet. reflexivity.
  - rewrite <- attachedb_spec, (Hatt T h), (has_bit_here _ _ _ _ _ Hd Hlive).
    rewrite negb_true_iff, bool_decide_eq_false, Hp. split.
    + intros [Hbit _]. exists (GetId T g).1; fin.
    + intros (c & Hc0 & Hbit). pose proof (registered_once _ _ _ _ HT Hc0) as <-.
      split; [exact Hbit |]. apply (wi_bits _ _ Hw _ _ _ Hd Hbit).
Qed.

Lemma Has_iff_attached_witness :
  exists g w log,
    run_main [OpNewEntity;
              OpAssign "Transform" 40 [] (CreateEntityId 0 0);
              OpNewEntity;
              OpAssign "Shape" 1 [] (CreateEntityId 1 0);
              OpRemove "Shape" (CreateEntityId 1 0)]
      = Ok (g, w, log) /\
    exists b,
      Has "Transform" (CreateEntityId 0 0) g w
        = Ok ((GetId "Transform" g).2, b) /\
      (b = true <->
         attached (detaches "Transform" (CreateEntityId 0 0)) "Transform"
           (CreateEntityId 0 0) log).
Proof.
  eexists _, _, _. split; [vm_compute; reflexivity |].
  eapply (Has_iff_attached
            [OpNewEntity;
             OpAssign "Transform" 40 [] (CreateEntityId 0 0);
             OpNewEntity;
             OpAssign "Shape" 1 [] (CreateEntityId 1 0);
             OpRemove "Shape" (CreateEntityId 1 0)]
            _ _ _ "Transform" (CreateEntityId 0 0)).
  - vm_compute. reflexivity.
  - split; vm_compute; discriminate.
  - vm_compute. reflexivity.
  - vm_compute. reflexivity.
Defined.

(** ** A destroyed entity's handle *)

(** X27.  Right after [DestroyEntity h], and for as long as the slot keeps the
    destroyed handle, [Assign] with [h] returns [nullptr] and so does
    [Get]: the slot stores a handle with the invalid index, which differs
    from [h] whenever the index of [h] is inside a table within the entity
    ceiling, and its mask is empty. *)
Lemma DestroyEntity_then_null (w w' : World) (h : EntityID) (g : Globals)
    (T : string) (sizeofT : Z) (v : Payload) :
  DestroyEntity h w = Ok w' ->
  vlen (m_entities w) <= MAX_ENTITIES ->
  0 <= (GetId T g).1 < MAX_COMPONENTS ->
  Assign T sizeofT v h g w' = Ok ((GetId T g).2, w', None) /\
  Get T h g w' = Ok ((GetId T g).2, None).
Proof.
  intros Hrun Hlen Hc.
  destruct (DestroyEntity_inv _ _ _ Hrun) as (d0 & Hd0 & ->).
  pose proof (lookup_lt_Some _ _ _ Hd0) as Hlt.
  pose proof (GetEntityIndex_range h) as Hr.
  destruct (destroyed_id_decode h) as (Hidx & _ & _).
  assert (Hslot : m_entities
            {| m_entities :=
                 <[Z.to_nat (GetEntityIndex h) :=
                     {| m_id := destroyed_id h; m_mask := bitset_empty |}]>
                   (m_entities w);
               m_freeEntities := m_freeEntities w ++ [0];
               m_componentPools := m_componentPools w |}
            !! Z.to_nat (GetEntityIndex h)
          = Some {| m_id := destroyed_id h; m_mask := bitset_empty |}).
  { cbn [m_entities]. apply list_lookup_insert_eq; fin. }
  split.
  - apply (Assign_stale_Ok _ _ _ _ _ _ _ Hslot). cbn [m_id]. intros Heq.
    rewrite Heq in Hidx. unfold vlen, INVALID_INDEX, MAX_ENTITIES in *. lia.
  - destruct (Get_Ok T h g _ _ Hslot Hc) as (p & HGet & Hp).
    rewrite HGet. destruct p as [ptr |]; [| reflexivity].
    exfalso. destruct (proj1 Hp ltac:(discriminate)) as [Hbit _].
    cbn [m_mask] in Hbit. unfold bitset_empty in Hbit.
    rewrite Z.bits_0 in Hbit. discriminate.
Qed.

(** C3 (the code at a failing input).  An entity is created and destroyed.
    With its handle, [Get<Transform>] and [Assign<Transform>] return
    [nullptr].  The next entity reuses the slot and gets a [Transform].
    From then on [Get<Transform>] with the handle of the destroyed entity
    returns the pointer to the component of the new entity;
    [Assign<Transform>] with that handle still returns [nullptr]. *)
Theorem Get_stale_handle_after_reuse :
  exists g w (h h2 : EntityID) p,
    run_main [OpNewEntity;
              OpDestroyEntity (CreateEntityId 0 0);
              OpGet "Transform" (CreateEntityId 0 0);
              OpAssign "Transform" 40 [] (CreateEntityId 0 0);
              OpNewEntity;
              OpAssign "Transform" 40 [] (CreateEntityId 0 1);
              OpGet "Transform" (CreateEntityId 0 0);
              OpHas "Transform" (CreateEntityId 0 0);
              OpAssign "Transform" 40 [] (CreateEntityId 0 0)]
      = Ok (g, w,
            [EvAssign "Transform" h None;
             EvHas "Transform" h true;
             EvGet "Transform" h (Some p);
             EvAssign "Transform" h2 (Some p);
             EvNewEntity h2;
             EvAssign "Transform" h None;
             EvGet "Transform" h None;
             EvDestroyEntity h;
             EvNewEntity h]) /\
    h = CreateEntityId 0 0 /\
    h2 = CreateEntityId 0 1 /\
    h <> h2 /\
    m_entities w = [ {| m_id := h2; m_mask := 1 |} ].
Proof.
  do 5 eexists. repeat split; try (vm_compute; reflexivity).
  vm_compute. discriminate.
Qed.

(** ** The free list of a run *)

Lemma exec_free_zero (op : Op) (g g' : Globals) (w w' : World) (ev : Event) :
  exec op g w = Ok (g', w', ev) ->
  (forall x, x ∈ m_freeEntities w -> x = 0) ->
  forall x, x ∈ m_freeEntities w' -> x = 0.
Proof.
  intros H Hfree.
  destruct op as [| id | T sizeofT v id | T id | T id | T id | Ts fuel];
    cbn [exec] in H.
  - destruct (NewEntity w) as [[w1 id] | | |] eqn:E;
      cbn [mbind Result_bind] in H; try discriminate.
    apply Ok_inj3 in H as (<- & <- & <-). unfold NewEntity in E.
    destruct (pop_back (m_freeEntities w)) as [[idx free'] |] eqn:Hpop.
    + apply pop_back_Some in Hpop. bind_inv E. apply Ok_inj2 in E as (<- & <-).
      cbn [m_freeEntities]. intros x Hx. apply Hfree. rewrite Hpop.
      apply elem_of_app. left; fin.
    + apply Ok_inj2 in E as (<- & <-). exact Hfree.
  - destruct (DestroyEntity id w) as [w1 | | |] eqn:E;
      cbn [mbind Result_bind] in H; try discriminate.
    apply Ok_inj3 in H as (<- & <- & <-). destruct (DestroyEntity_inv _ _ _ E) as (d & _ & ->).
    cbn [m_freeEntities]. intros x Hx.
    apply elem_of_app in Hx as [Hx | Hx]; [apply Hfree; fin |].
    apply list_elem_of_singleton in Hx; fin.
  - destruct (Assign T sizeofT v id g w) as [[[g1 w1] p] | | |] eqn:E;
      cbn [mbind Result_bind] in H; try discriminate.
    apply Ok_inj3 in H as (<- & <- & <-). unfold Assign in E. destruct (GetId T g).
    bind_inv E; apply Ok_inj3 in E as (<- & <- & <-); exact Hfree.
  - destruct (Remove T id g w) as [[g1 w1] | | |] eqn:E;
      cbn [mbind Result_bind] in H; try discriminate.
    apply Ok_inj3 in H as (<- & <- & <-).
    destruct (Remove_inv _ _ _ _ _ _ E)
      as (d & _ & [(_ & -> & ->) | (_ & _ & -> & ->)]); exact Hfree.
  - bind_inv H. apply Ok_inj3 in H as (<- & <- & <-). exact Hfree.
  - bind_inv H. apply Ok_inj3 in H as (<- & <- & <-). exact Hfree.
  - bind_inv H. apply Ok_inj3 in H as (<- & <- & <-). exact Hfree.
Qed.

Lemma run_free_zero (ops : list Op) :
  forall (g g' : Globals) (w w' : World) (log log' : list Event),
    run ops g w log = Ok (g', w', log') ->
    (forall x, x ∈ m_freeEntities w -> x = 0) ->
    forall x, x ∈ m_freeEntities w' -> x = 0.
Proof.
  induction ops as [| op ops IH]; intros g g' w w' log log' H Hfree;
    cbn [run] in H.
  - apply Ok_inj3 in H as (<- & <- & <-); auto.
  - destruct (exec op g w) as [[[g1 w1] ev] | | |] eqn:E;
      cbn [mbind Result_bind] in H; try discriminate.
    apply (IH _ _ _ _ _ _ H). apply (exec_free_zero _ _ _ _ _ _ E Hfree).
Qed.

(** X28.  In every program run from process start, whenever [NewEntity] takes a
    slot from the free list the handle it returns has index 0. *)
Lemma NewEntity_recycles_slot_zero (ops : list Op) (g : Globals) (w w' : World)
    (log : list Event) (id : EntityID) :
  run_main ops = Ok (g, w, log) ->
  m_freeEntities w <> [] ->
  NewEntity w = Ok (w', id) ->
  GetEntityIndex id = 0.
Proof.
  intros Hrun Hne Hnew.
  assert (Hfree : forall x, x ∈ m_freeEntities w -> x = 0).
  { apply (run_free_zero _ _ _ _ _ _ _ Hrun). intros x Hx.
    apply elem_of_nil in Hx; fin. }
  unfold NewEntity in Hnew.
  destruct (pop_back (m_freeEntities w)) as [[idx free'] |] eqn:Hpop.
  - apply pop_back_Some in Hpop.
    assert (idx = 0) as ->.
    { apply Hfree. rewrite Hpop. apply elem_of_app. right.
      apply list_elem_of_singleton; fin. }
    bind_inv Hnew. apply Ok_inj2 in Hnew as (<- & <-).
    unfold vec_update in *. bind_inv E0. apply Ok_inj in E0 as <-.
    apply vec_at_Ok in E1. change (Z.to_nat 0) with 0%nat in E1.
    apply vec_at_Ok in E2.
    rewrite list_lookup_insert_eq in E1 by (eapply lookup_lt_Some; exact E2).
    injection E1 as <-. cbn [set_id m_id].
    apply GetEntityIndex_Create; [lia | apply GetEntityVersion_range].
  - apply pop_back_None in Hpop. contradiction.
Qed.

(** * Further properties of the header *)

(** ** Entity identity *)

(** X1.  Decoding a handle gives back what was encoded: for an index and a
    generation that fit 32 bits, [GetEntityIndex] and [GetEntityVersion] of
    [CreateEntityId index version] are [index] and [version]; the handle
    fits 64 bits, and [IsEntityValid] accepts it exactly when the index is
    not [EntityIndex(-1)]. *)
Theorem handle_decode_encode (index : EntityIndex) (version : EntityVersion)
    (Hindex : 0 <= index < 2 ^ 32) (Hversion : 0 <= version < 2 ^ 32) :
  GetEntityIndex (CreateEntityId index version) = index /\
  GetEntityVersion (CreateEntityId index version) = version /\
  0 <= CreateEntityId index version < 2 ^ 64 /\
  IsEntityValid (CreateEntityId index version) = negb (index =? INVALID_INDEX).
Proof.
  split; [now apply GetEntityIndex_Create |].
  split; [now apply GetEntityVersion_Create |].
  split; [now apply CreateEntityId_range |].
  now apply IsEntityValid_Create.
Qed.

Lemma handle_decode_encode_witness :
  GetEntityIndex (CreateEntityId 7 3) = 7 /\
  GetEntityVersion (CreateEntityId 7 3) = 3 /\
  0 <= CreateEntityId 7 3 < 2 ^ 64 /\
  IsEntityValid (CreateEntityId 7 3) = negb (7 =? INVALID_INDEX).
Proof.
  apply (handle_decode_encode 7 3); lia.
Defined.

(** X2.  Encoding the decoded parts of a 64-bit handle gives the handle
    back, so two 64-bit handles with the same index and the same generation
    are the same handle. *)
Theorem handle_encode_decode (id : EntityID) (Hid : 0 <= id < 2 ^ 64) :
  CreateEntityId (GetEntityIndex id) (GetEntityVersion id) = id /\
  forall id' : EntityID, 0 <= id' < 2 ^ 64 ->
    GetEntityIndex id' = GetEntityIndex id ->
    GetEntityVersion id' = GetEntityVersion id ->
    id' = id.
Proof.
  split; [now apply CreateEntityId_decode |].
  intros id' Hid' Hi Hv.
  rewrite <- (CreateEntityId_decode id), <- (CreateEntityId_decode id')
    by assumption.
  now rewrite Hi, Hv.
Qed.

Lemma handle_encode_decode_witness :
  CreateEntityId (GetEntityIndex 8589934597) (GetEntityVersion 8589934597)
  = 8589934597.
Proof.
  exact (proj1 (handle_encode_decode 8589934597 ltac:(lia))).
Defined.

(** X3.  For a 64-bit handle, [IsEntityValid] is false exactly when the
    index is [EntityIndex(-1)], whatever the generation.  [INVALID_ENTITY]
    is such a handle, with generation 0. *)
Theorem IsEntityValid_index (id : EntityID) (Hid : 0 <= id < 2 ^ 64) :
  (IsEntityValid id = false <-> GetEntityIndex id = INVALID_INDEX) /\
  IsEntityValid INVALID_ENTITY = false /\
  GetEntityIndex INVALID_ENTITY = INVALID_INDEX /\
  GetEntityVersion INVALID_ENTITY = 0.
Proof.
  split; [| repeat split; vm_compute; reflexivity].
  assert (Hr : 0 <= Z.shiftr id 32 < 2 ^ 32).
  { rewrite Z.shiftr_div_pow2 by lia.
    split; [apply Z.div_pos; lia | apply Z.div_lt_upper_bound; lia]. }
  unfold IsEntityValid, GetEntityIndex.
  rewrite (wrap32_small (Z.shiftr id 32)) by exact Hr.
  rewrite negb_false_iff, Z.eqb_eq. reflexivity.
Qed.

Lemma IsEntityValid_index_witness :
  IsEntityValid (CreateEntityId INVALID_INDEX 5) = false <->
  GetEntityIndex (CreateEntityId INVALID_INDEX 5) = INVALID_INDEX.
Proof.
  apply (proj1 (IsEntityValid_index (CreateEntityId INVALID_INDEX 5)
                  ltac:(vm_compute; split; [discriminate | reflexivity]))).
Defined.

(** ** Component identities *)

(** X4.  The identity of a component type is fixed by its first use:
    asking again returns the same identity and changes nothing, also after
    identities have been handed to other types in between. *)
Theorem GetId_stable (T : string) (Ts : list string) (g : Globals) :
  GetId T (GetId T g).2 = GetId T g /\
  (GetId T (GetIds Ts (GetId T g).2).2).1 = (GetId T g).1 /\
  (GetId T (GetIds Ts (GetId T g).2).2).2 = (GetIds Ts (GetId T g).2).2.
Proof.
  pose proof (GetId_registers T g) as HT.
  split.
  - rewrite (GetId_registered _ _ _ HT). now destruct (GetId T g).
  - pose proof (GetIds_keeps Ts T _ _ HT) as HT'.
    rewrite (GetId_registered _ _ _ HT'). split; reflexivity.
Qed.

Lemma GetIds_fresh_from (Ts : list string) :
  forall (g : Globals),
    NoDup Ts ->
    (forall T, T ∈ Ts -> s_componentId g !! T = None) ->
    0 <= s_componentCounter g ->
    s_componentCounter g + Z.of_nat (length Ts) <= 2 ^ 64 ->
    (GetIds Ts g).1 = seqZ (s_componentCounter g) (Z.of_nat (length Ts)).
Proof.
  induction Ts as [| T Ts IH]; intros g Hnd Hfresh Hc Hlen; [reflexivity |].
  apply NoDup_cons in Hnd as [HT Hnd].
  cbn [GetIds]. unfold GetId at 1.
  rewrite (Hfresh T) by (apply elem_of_cons; now left).
  set (g1 := {| s_componentCounter := wrap64 (s_componentCounter g + 1);
                s_componentId := <[T := s_componentCounter g]> (s_componentId g) |}).
  cbn [length] in *. rewrite Nat2Z.inj_succ in *.
  rewrite seqZ_cons by lia.
  replace (Z.pred (Z.succ (Z.of_nat (length Ts)))) with (Z.of_nat (length Ts))
    by lia.
  destruct Ts as [| T' Ts'].
  - cbn [GetIds]. reflexivity.
  - specialize (IH g1 Hnd).
    assert (Hw : s_componentCounter g1 = Z.succ (s_componentCounter g)).
    { subst g1. cbn [s_componentCounter].
      rewrite wrap64_small; cbn [length] in Hlen; lia. }
    rewrite Hw in IH.
    destruct (GetIds (T' :: Ts') g1) as [cs g2] eqn:Hrest. cbn [fst] in *.
    f_equal. rewrite IH.
    + reflexivity.
    + intros T0 HT0. subst g1. cbn [s_componentId].
      rewrite lookup_insert_ne by (intros ->; contradiction).
      apply Hfresh. apply elem_of_cons. now right.
    + lia.
    + lia.
Qed.

(** X5.  From process start, distinct component types get the identities
    0, 1, 2, ... in the order of their first use. *)
Theorem GetIds_first_use_order (Ts : list string)
    (Hdistinct : NoDup Ts)
    (Hcount : Z.of_nat (length Ts) <= 2 ^ 64) :
  (GetIds Ts initial_globals).1 = seqZ 0 (Z.of_nat (length Ts)).
Proof.
  apply (GetIds_fresh_from Ts initial_globals Hdistinct).
  - intros T _. apply lookup_empty.
  - cbn. lia.
  - cbn. lia.
Qed.

Lemma GetIds_first_use_order_witness :
  (GetIds ["Transform"; "Shape"; "Renderable"] initial_globals).1 = [0; 1; 2].
Proof.
  apply (GetIds_first_use_order ["Transform"; "Shape"; "Renderable"]).
  - apply (bool_decide_unpack (NoDup ["Transform"; "Shape"; "Renderable"])).
    vm_compute. exact I.
  - cbn. lia.
Defined.

(** ** Component pools *)

(** X6.  In a pool whose arena size [MAX_ENTITIES * m_elementSize] fits
    [size_t], the elements of two different slots below [MAX_ENTITIES] do
    not overlap, and every element lies inside the arena. *)
Theorem ComponentPool_Get_disjoint (pool : ComponentPool) (i j : Z)
    (Hsize : 0 < m_elementSize pool)
    (Harena : MAX_ENTITIES * m_elementSize pool <= 2 ^ 64)
    (Hi : 0 <= i < j) (Hj : j < MAX_ENTITIES) :
  ComponentPool_Get pool i = i * m_elementSize pool /\
  ComponentPool_Get pool j = j * m_elementSize pool /\
  ComponentPool_Get pool i + m_elementSize pool <= ComponentPool_Get pool j /\
  ComponentPool_Get pool j + m_elementSize pool
    <= MAX_ENTITIES * m_elementSize pool.
Proof.
  unfold ComponentPool_Get.
  rewrite !wrap64_small by nia. nia.
Qed.

Lemma ComponentPool_Get_disjoint_witness :
  ComponentPool_Get (ComponentPool_new 40) 3 + 40
  <= ComponentPool_Get (ComponentPool_new 40) 4.
Proof.
  apply (ComponentPool_Get_disjoint (ComponentPool_new 40) 3 4);
    vm_compute; try split; try discriminate; reflexivity.
Defined.

(** ** NewEntity *)

(** X7.  With an empty free list and a table of fewer than 2^32 - 1 slots,
    [NewEntity] appends one slot with an empty mask and returns its handle:
    the index is the old table size, the generation is 0 and the handle is
    valid.  The slots that were there, the free list and the pools are
    unchanged. *)
Theorem NewEntity_appends (w : World)
    (Hfree : m_freeEntities w = [])
    (Hlen : vlen (m_entities w) < 2 ^ 32 - 1) :
  exists id,
    NewEntity w =
      Ok ({| m_entities := m_entities w ++ [ {| m_id := id; m_mask := bitset_empty |} ];
             m_freeEntities := [];
             m_componentPools := m_componentPools w |}, id) /\
    id = CreateEntityId (vlen (m_entities w)) 0 /\
    GetEntityIndex id = vlen (m_entities w) /\
    GetEntityVersion id = 0 /\
    IsEntityValid id = true.
Proof.
  pose proof (vlen_nonneg (m_entities w)) as Hnn.
  exists (CreateEntityId (vlen (m_entities w)) 0).
  split.
  - rewrite (NewEntity_append w Hfree).
    rewrite (wrap32_small (vlen (m_entities w))) by lia. reflexivity.
  - split; [reflexivity |].
    rewrite GetEntityIndex_Create, GetEntityVersion_Create, IsEntityValid_Create
      by lia.
    repeat split. apply negb_true_iff, Z.eqb_neq. lia.
Qed.

Lemma NewEntity_appends_witness :
  exists id,
    NewEntity World_new =
      Ok ({| m_entities := [ {| m_id := id; m_mask := bitset_empty |} ];
             m_freeEntities := [];
             m_componentPools := [] |}, id) /\
    id = 0.
Proof.
  destruct (NewEntity_appends World_new eq_refl ltac:(vm_compute; reflexivity))
    as (id & Hrun & Hid & _).
  exists id. split; [exact Hrun | exact Hid].
Defined.

(** ** Assign *)

Lemma Assign_pools_detail (pools : list (option ComponentPool)) (c sizeofT : Z) :
  0 <= c ->
  let pools1 :=
    if vlen pools <=? c then resize (Z.to_nat (c + 1)) None pools else pools in
  exists p pools2,
    vec_at pools1 c = Ok p /\
    match p with
    | None => vec_update pools1 c (fun _ => Some (ComponentPool_new sizeofT))
    | Some _ => Ok pools1
    end = Ok pools2 /\
    pools2 !! Z.to_nat c = Some (Some (pool_of pools c sizeofT)) /\
    (forall (n : nat) q, n <> Z.to_nat c -> pools !! n = Some q ->
       pools2 !! n = Some q) /\
    (forall (n : nat) q, n <> Z.to_nat c -> pools2 !! n = Some (Some q) ->
       pools !! n = Some (Some q)).
Proof.
  intros Hc pools1. unfold pool_of, vlen in *.
  destruct (Z.leb_spec (Z.of_nat (length pools)) c) as [Hle | Hgt].
  - (* the vector is resized *)
    assert (Hnone : pools !! Z.to_nat c = None)
      by (apply lookup_ge_None; lia).
    assert (Hp : pools1 !! Z.to_nat c = Some None).
    { subst pools1. apply lookup_resize_new; lia. }
    exists None, (<[Z.to_nat c := Some (ComponentPool_new sizeofT)]> pools1).
    rewrite (vec_at_lookup _ _ _ Hp), (vec_update_Ok _ _ _ _ Hp), Hnone.
    split; [reflexivity |]. split; [reflexivity |]. split; [| split].
    + apply list_lookup_insert_eq. eapply lookup_lt_Some. exact Hp.
    + intros n q Hn Hq. pose proof (lookup_lt_Some _ _ _ Hq).
      rewrite list_lookup_insert_ne by congruence. subst pools1.
      rewrite lookup_resize by lia. exact Hq.
    + intros n q Hn Hq. rewrite list_lookup_insert_ne in Hq by congruence.
      subst pools1. pose proof (lookup_lt_Some _ _ _ Hq) as Hlt.
      rewrite length_resize in Hlt.
      destruct (Nat.lt_ge_cases n (length pools)) as [Hin | Hout].
      * rewrite lookup_resize in Hq by lia. exact Hq.
      * rewrite lookup_resize_new in Hq by lia. discriminate.
  - (* the vector is long enough *)
    subst pools1.
    destruct (lookup_lt_is_Some_2 pools (Z.to_nat c)) as [p Hp]; [lia |].
    exists p. rewrite (vec_at_lookup _ _ _ Hp), Hp.
    destruct p as [pool |].
    + exists pools. repeat split; auto.
    + exists (<[Z.to_nat c := Some (ComponentPool_new sizeofT)]> pools).
      rewrite (vec_update_Ok _ _ _ _ Hp).
      split; [reflexivity |]. split; [reflexivity |]. split; [| split].
      * apply list_lookup_insert_eq. eapply lookup_lt_Some. exact Hp.
      * intros n q Hn Hq. rewrite list_lookup_insert_ne by congruence. exact Hq.
      * intros n q Hn Hq. rewrite list_lookup_insert_ne in Hq by congruence.
        exact Hq.
Qed.

(** The world and the pointer that a successful [Assign] returns. *)
Lemma Assign_fresh_detail (T : string) (sizeofT : Z) (v : Payload) (id : EntityID)
    (g : Globals) (w : World) (d : EntityDesc) :
  m_entities w !! Z.to_nat (GetEntityIndex id) = Some d ->
  m_id d = id ->
  0 <= (GetId T g).1 < MAX_COMPONENTS ->
  GetEntityIndex id < MAX_ENTITIES ->
  let c := (GetId T g).1 in
  let pool := pool_of (m_componentPools w) c sizeofT in
  let comp := ComponentPool_Get pool (GetEntityIndex id) in
  exists pools',
    Assign T sizeofT v id g w =
      Ok ((GetId T g).2,
          {| m_entities :=
               <[Z.to_nat (GetEntityIndex id) :=
                   set_mask (Z.lor (m_mask d) (Z.shiftl 1 c)) d]> (m_entities w);
             m_freeEntities := m_freeEntities w;
             m_componentPools := pools' |},
          Some {| ptr_pool := c; ptr_offset := comp |}) /\
    pools' !! Z.to_nat c =
      Some (Some {| m_elementSize := m_elementSize pool;
                    m_data := <[comp := v]> (m_data pool) |}) /\
    (forall (n : nat) q, n <> Z.to_nat c -> m_componentPools w !! n = Some q ->
       pools' !! n = Some q) /\
    (forall (n : nat) q, n <> Z.to_nat c -> pools' !! n = Some (Some q) ->
       m_componentPools w !! n = Some (Some q)).
Proof.
  intros Hd Hid Hc Hidx c pool comp. subst c pool comp.
  unfold Assign. destruct (GetId T g) as [c g']. cbn [fst snd] in *.
  rewrite (vec_at_lookup _ _ _ Hd). cbn [mbind Result_bind].
  destruct (Z.eqb_spec (m_id d) id) as [_ | Hne]; [| contradiction].
  cbn [negb].
  destruct (Assign_pools_detail (m_componentPools w) c sizeofT (proj1 Hc))
    as (p & pools2 & -> & Hp2 & Hpool & Hkeep & Hnew).
  cbn [mbind Result_bind]. rewrite Hp2. cbn [mbind Result_bind].
  rewrite (vec_at_lookup _ _ _ Hpool). cbn [mbind Result_bind].
  destruct (Z.leb_spec MAX_ENTITIES (GetEntityIndex id)) as [Hge | _]; [lia |].
  rewrite (vec_update_Ok _ _ _ _ Hpool). cbn [mbind Result_bind].
  unfold bitset_set. destruct (Z.ltb_spec c MAX_COMPONENTS) as [_ | Hge]; [| lia].
  cbn [mbind Result_bind].
  rewrite (vec_update_Ok _ _ _ _ Hd). cbn [mbind Result_bind].
  eexists. split; [reflexivity |]. split; [| split].
  - apply list_lookup_insert_eq. eapply lookup_lt_Some. exact Hpool.
  - intros n q Hn Hq. rewrite list_lookup_insert_ne by congruence. eauto.
  - intros n q Hn Hq. rewrite list_lookup_insert_ne in Hq by congruence. eauto.
Qed.

(** [Get] on a slot whose mask has the bit and whose pool exists. *)
Lemma Get_present (T : string) (id : EntityID) (g : Globals) (w : World)
    (d : EntityDesc) (c : ComponentID) (pool : ComponentPool) :
  s_componentId g !! T = Some c ->
  0 <= c < MAX_COMPONENTS ->
  m_entities w !! Z.to_nat (GetEntityIndex id) = Some d ->
  Z.testbit (m_mask d) c = true ->
  m_componentPools w !! Z.to_nat c = Some (Some pool) ->
  Get T id g w =
    Ok (g, Some {| ptr_pool := c;
                   ptr_offset := ComponentPool_Get pool (GetEntityIndex id) |}).
Proof.
  intros HT Hc Hd Hbit Hpool. unfold Get.
  rewrite (GetId_registered _ _ _ HT).
  rewrite (vec_at_lookup _ _ _ Hd). cbn [mbind Result_bind].
  unfold bitset_test. destruct (Z.ltb_spec c MAX_COMPONENTS); [| lia].
  cbn [mbind Result_bind]. rewrite Hbit. cbn [negb].
  pose proof (lookup_lt_Some _ _ _ Hpool) as Hlt.
  destruct (Z.ltb_spec c (vlen (m_componentPools w))) as [_ | Hge];
    [| unfold vlen in Hge; lia].
  rewrite (vec_at_lookup _ _ _ Hpool). reflexivity.
Qed.

(** [Get] on a slot whose mask lacks the bit. *)
Lemma Get_absent (T : string) (id : EntityID) (g : Globals) (w : World)
    (d : EntityDesc) (c : ComponentID) :
  s_componentId g !! T = Some c ->
  c < MAX_COMPONENTS ->
  m_entities w !! Z.to_nat (GetEntityIndex id) = Some d ->
  Z.testbit (m_mask d) c = false ->
  Get T id g w = Ok (g, None).
Proof.
  intros HT Hc Hd Hbit. unfold Get.
  rewrite (GetId_registered _ _ _ HT).
  rewrite (vec_at_lookup _ _ _ Hd). cbn [mbind Result_bind].
  unfold bitset_test. destruct (Z.ltb_spec c MAX_COMPONENTS); [| lia].
  cbn [mbind Result_bind]. rewrite Hbit. reflexivity.
Qed.

(** X8.  Attach, then fetch.  For a handle stored in its slot, with the
    slot below [MAX_ENTITIES] and the identity of [T] below
    [MAX_COMPONENTS], [Assign<T>] returns a non-null pointer; [Get<T>] on
    the same handle then returns that very pointer, [Has<T>] returns true,
    and the object passed to [Assign] is the one stored at the pointer. *)
Theorem Assign_then_Get (T : string) (sizeofT : Z) (v : Payload)
    (h : EntityID) (g : Globals) (w : World) (d : EntityDesc)
    (Hd : m_entities w !! Z.to_nat (GetEntityIndex h) = Some d)
    (Hlive : m_id d = h)
    (Hc : 0 <= (GetId T g).1 < MAX_COMPONENTS)
    (Hidx : GetEntityIndex h < MAX_ENTITIES) :
  exists g' w' p pool,
    Assign T sizeofT v h g w = Ok (g', w', Some p) /\
    Get T h g' w' = Ok (g', Some p) /\
    Has T h g' w' = Ok (g', true) /\
    m_componentPools w' !! Z.to_nat (ptr_pool p) = Some (Some pool) /\
    m_data pool !! ptr_offset p = Some v.
Proof.
  destruct (Assign_fresh_detail T sizeofT v h g w d Hd Hlive Hc Hidx)
    as (pools' & Hrun & Hpool & _ & _).
  pose proof (GetId_registers T g) as HT.
  pose proof (lookup_lt_Some _ _ _ Hd) as Hlt.
  eexists _, _, _, _. split; [exact Hrun |].
  assert (HGet : Get T h (GetId T g).2
            {| m_entities :=
                 <[Z.to_nat (GetEntityIndex h) :=
                     set_mask (Z.lor (m_mask d) (Z.shiftl 1 (GetId T g).1)) d]>
                   (m_entities w);
               m_freeEntities := m_freeEntities w;
               m_componentPools := pools' |}
          = Ok ((GetId T g).2,
                Some {| ptr_pool := (GetId T g).1;
                        ptr_offset :=
                          ComponentPool_Get
                            (pool_of (m_componentPools w) (GetId T g).1 sizeofT)
                            (GetEntityIndex h) |})).
  { apply (Get_present T h (GetId T g).2
             {| m_entities :=
                  <[Z.to_nat (GetEntityIndex h) :=
                      set_mask (Z.lor (m_mask d) (Z.shiftl 1 (GetId T g).1)) d]>
                    (m_entities w);
                m_freeEntities := m_freeEntities w;
                m_componentPools := pools' |}
             (set_mask (Z.lor (m_mask d) (Z.shiftl 1 (GetId T g).1)) d)
             (GetId T g).1
             {| m_elementSize :=
                  m_elementSize (pool_of (m_componentPools w) (GetId T g).1 sizeofT);
                m_data :=
                  <[ComponentPool_Get
                      (pool_of (m_componentPools w) (GetId T g).1 sizeofT)
                      (GetEntityIndex h) := v]>
                    (m_data (pool_of (m_componentPools w) (GetId T g).1 sizeofT)) |}
             HT Hc).
    - cbn [m_entities]. apply list_lookup_insert_eq. exact Hlt.
    - cbn [set_mask m_mask]. rewrite testbit_set by apply Hc.
      rewrite Z.eqb_refl. apply orb_true_r.
    - exact Hpool. }
  split; [exact HGet |]. split.
  - unfold Has. rewrite HGet. reflexivity.
  - cbn [ptr_pool ptr_offset m_componentPools]. split; [exact Hpool |].
    cbn [m_data]. apply lookup_insert_eq.
Qed.

Lemma Assign_then_Get_witness :
  exists g' w' p,
    Assign "Transform" 40 [] (CreateEntityId 0 0) initial_globals
      {| m_entities := [ {| m_id := CreateEntityId 0 0; m_mask := 0 |} ];
         m_freeEntities := [];
         m_componentPools := [] |} = Ok (g', w', Some p) /\
    Get "Transform" (CreateEntityId 0 0) g' w' = Ok (g', Some p).
Proof.
  destruct (Assign_then_Get "Transform" 40 [] (CreateEntityId 0 0) initial_globals
              {| m_entities := [ {| m_id := CreateEntityId 0 0; m_mask := 0 |} ];
                 m_freeEntities := [];
                 m_componentPools := [] |}
              {| m_id := CreateEntityId 0 0; m_mask := 0 |}
              eq_refl eq_refl
              ltac:(vm_compute; split; [discriminate | reflexivity])
              ltac:(vm_compute; reflexivity))
    as (g' & w' & p & pool & Hrun & HGet & _).
  exists g', w', p. split; assumption.
Defined.

(** X9.  A successful [Assign<T>] sets the bit of [T]'s identity in the
    mask of the addressed slot and nothing else in the entity table: the
    stored handle and the other bits of that mask stay, as do all other
    slots and the free list.  In the pool vector only the entry of [T]
    changes, and in [T]'s pool only the element of the addressed slot. *)
Theorem Assign_sets_one_bit (T : string) (sizeofT : Z) (v : Payload)
    (h : EntityID) (g : Globals) (w : World) (d : EntityDesc)
    (Hd : m_entities w !! Z.to_nat (GetEntityIndex h) = Some d)
    (Hlive : m_id d = h)
    (Hc : 0 <= (GetId T g).1 < MAX_COMPONENTS)
    (Hidx : GetEntityIndex h < MAX_ENTITIES) :
  exists w' p d' pool',
    Assign T sizeofT v h g w = Ok ((GetId T g).2, w', Some p) /\
    m_entities w' !! Z.to_nat (GetEntityIndex h) = Some d' /\
    m_id d' = h /\
    Z.testbit (m_mask d') (GetId T g).1 = true /\
    (forall n, n <> (GetId T g).1 ->
       Z.testbit (m_mask d') n = Z.testbit (m_mask d) n) /\
    (forall j : nat, j <> Z.to_nat (GetEntityIndex h) ->
       m_entities w' !! j = m_entities w !! j) /\
    length (m_entities w') = length (m_entities w) /\
    m_freeEntities w' = m_freeEntities w /\
    (forall (n : nat) q, n <> Z.to_nat (GetId T g).1 ->
       m_componentPools w !! n = Some q -> m_componentPools w' !! n = Some q) /\
    m_componentPools w' !! Z.to_nat (GetId T g).1 = Some (Some pool') /\
    (forall off, off <> ptr_offset p ->
       m_data pool' !! off
       = m_data (pool_of (m_componentPools w) (GetId T g).1 sizeofT) !! off).
Proof.
  destruct (Assign_fresh_detail T sizeofT v h g w d Hd Hlive Hc Hidx)
    as (pools' & Hrun & Hpool & Hkeep & _).
  pose proof (lookup_lt_Some _ _ _ Hd) as Hlt.
  eexists _, _, _, _. split; [exact Hrun |].
  cbn [m_entities m_freeEntities m_componentPools ptr_offset].
  split; [apply list_lookup_insert_eq; exact Hlt |].
  cbn [set_mask m_id m_mask].
  split; [exact Hlive |]. split; [| split; [| split; [| split; [| split]]]].
  - rewrite testbit_set by apply Hc. rewrite Z.eqb_refl. apply orb_true_r.
  - intros n Hn. rewrite testbit_set by apply Hc.
    destruct (Z.eqb_spec (GetId T g).1 n) as [Heq | _]; [congruence |].
    apply orb_false_r.
  - intros j Hj. apply list_lookup_insert_ne. congruence.
  - apply length_insert.
  - reflexivity.
  - split; [exact Hkeep |]. split; [exact Hpool |].
    intros off Hoff. cbn [m_data]. apply lookup_insert_ne. congruence.
Qed.

Lemma Assign_sets_one_bit_witness :
  exists w' p,
    Assign "Shape" 1 [] (CreateEntityId 1 0)
      {| s_componentCounter := 1; s_componentId := {[ "Transform" := 0 ]} |}
      {| m_entities := [ {| m_id := CreateEntityId 0 0; m_mask := 1 |};
                         {| m_id := CreateEntityId 1 0; m_mask := 1 |} ];
         m_freeEntities := [];
         m_componentPools := [Some (ComponentPool_new 40)] |}
    = Ok ((GetId "Shape"
             {| s_componentCounter := 1;
                s_componentId := {[ "Transform" := 0 ]} |}).2, w', Some p) /\
    m_entities w' !! 0%nat = Some {| m_id := CreateEntityId 0 0; m_mask := 1 |}.
Proof.
  destruct (Assign_sets_one_bit "Shape" 1 [] (CreateEntityId 1 0)
              {| s_componentCounter := 1; s_componentId := {[ "Transform" := 0 ]} |}
              {| m_entities := [ {| m_id := CreateEntityId 0 0; m_mask := 1 |};
                                 {| m_id := CreateEntityId 1 0; m_mask := 1 |} ];
                 m_freeEntities := [];
                 m_componentPools := [Some (ComponentPool_new 40)] |}
              {| m_id := CreateEntityId 1 0; m_mask := 1 |}
              eq_refl eq_refl
              ltac:(vm_compute; split; [discriminate | reflexivity])
              ltac:(vm_compute; reflexivity))
    as (w' & p & d' & pool' & Hrun & _ & _ & _ & _ & Hother & _).
  exists w', p. split; [exact Hrun |].
  rewrite (Hother 0%nat); [reflexivity | vm_compute; discriminate].
Defined.

Lemma reset_after_set (m c : Z) :
  0 <= c -> Z.testbit m c = false ->
  Z.ldiff (Z.lor m (Z.shiftl 1 c)) (Z.shiftl 1 c) = m.
Proof.
  intros Hc Hbit. apply Z.bits_inj'. intros n Hn.
  rewrite testbit_reset, testbit_set by exact Hc.
  destruct (Z.eqb_spec c n) as [<- | _].
  - rewrite Hbit. reflexivity.
  - now rewrite orb_false_r, andb_true_r.
Qed.

(** X10.  Attach, then detach.  After a successful [Assign<T>(h)],
    [Remove<T>(h)] returns, and then [Get<T>(h)] returns [nullptr] and
    [Has<T>(h)] false.  [Remove] leaves the pools as [Assign] left them: the
    object stays in the arena.  If the entity did not have [T] before
    the [Assign], the entity table is back to what it was. *)
Theorem Assign_then_Remove (T : string) (sizeofT : Z) (v : Payload)
    (h : EntityID) (g : Globals) (w : World) (d : EntityDesc)
    (Hd : m_entities w !! Z.to_nat (GetEntityIndex h) = Some d)
    (Hlive : m_id d = h)
    (Hc : 0 <= (GetId T g).1 < MAX_COMPONENTS)
    (Hidx : GetEntityIndex h < MAX_ENTITIES) :
  exists g' w1 p w2,
    Assign T sizeofT v h g w = Ok (g', w1, Some p) /\
    Remove T h g' w1 = Ok (g', w2) /\
    Get T h g' w2 = Ok (g', None) /\
    Has T h g' w2 = Ok (g', false) /\
    m_componentPools w2 = m_componentPools w1 /\
    m_freeEntities w2 = m_freeEntities w /\
    (Z.testbit (m_mask d) (GetId T g).1 = false -> m_entities w2 = m_entities w).
Proof.
  destruct (Assign_fresh_detail T sizeofT v h g w d Hd Hlive Hc Hidx)
    as (pools' & Hrun & _).
  pose proof (GetId_registers T g) as HT.
  pose proof (GetId_registered _ _ _ HT) as Hagain.
  pose proof (lookup_lt_Some _ _ _ Hd) as Hlt.
  set (c := (GetId T g).1) in *. set (g' := (GetId T g).2) in *.
  set (d1 := set_mask (Z.lor (m_mask d) (Z.shiftl 1 c)) d).
  set (w1 := {| m_entities := <[Z.to_nat (GetEntityIndex h) := d1]> (m_entities w);
                m_freeEntities := m_freeEntities w;
                m_componentPools := pools' |}).
  assert (Hd1 : m_entities w1 !! Z.to_nat (GetEntityIndex h) = Some d1)
    by (apply list_lookup_insert_eq; exact Hlt).
  assert (Hrem : Remove T h g' w1 =
            Ok (g',
                {| m_entities :=
                     <[Z.to_nat (GetEntityIndex h) :=
                         set_mask (Z.ldiff (m_mask d1) (Z.shiftl 1 c)) d1]>
                       (m_entities w1);
                   m_freeEntities := m_freeEntities w1;
                   m_componentPools := m_componentPools w1 |})).
  { rewrite (Remove_fresh_Ok T h g' w1 d1 Hd1 Hlive); rewrite Hagain; cbn [fst snd];
      [reflexivity | apply Hc]. }
  eexists _, _, _, _. split; [exact Hrun |]. split; [exact Hrem |].
  assert (HGet : Get T h g'
            {| m_entities :=
                 <[Z.to_nat (GetEntityIndex h) :=
                     set_mask (Z.ldiff (m_mask d1) (Z.shiftl 1 c)) d1]>
                   (m_entities w1);
               m_freeEntities := m_freeEntities w1;
               m_componentPools := m_componentPools w1 |} = Ok (g', None)).
  { apply (Get_absent T h g' _
             (set_mask (Z.ldiff (m_mask d1) (Z.shiftl 1 c)) d1) c HT (proj2 Hc)).
    - cbn [m_entities]. apply list_lookup_insert_eq.
      subst w1. cbn [m_entities]. rewrite length_insert. exact Hlt.
    - cbn [set_mask m_mask]. rewrite testbit_reset by apply Hc.
      rewrite Z.eqb_refl. apply andb_false_r. }
  split; [exact HGet |]. split; [unfold Has; rewrite HGet; reflexivity |].
  split; [reflexivity |]. split; [reflexivity |].
  intros Hbit. cbn [m_entities]. subst w1 d1. cbn [m_entities set_mask m_id m_mask].
  rewrite list_insert_insert_eq, reset_after_set by (apply Hc || exact Hbit).
  apply list_insert_id. rewrite Hd. now destruct d.
Qed.

Lemma Assign_then_Remove_witness :
  exists g' w1 p w2,
    Assign "Transform" 40 [] (CreateEntityId 0 0) initial_globals
      {| m_entities := [ {| m_id := CreateEntityId 0 0; m_mask := 0 |} ];
         m_freeEntities := [];
         m_componentPools := [] |} = Ok (g', w1, Some p) /\
    Remove "Transform" (CreateEntityId 0 0) g' w1 = Ok (g', w2) /\
    m_entities w2 = [ {| m_id := CreateEntityId 0 0; m_mask := 0 |} ].
Proof.
  destruct (Assign_then_Remove "Transform" 40 [] (CreateEntityId 0 0)
              initial_globals
              {| m_entities := [ {| m_id := CreateEntityId 0 0; m_mask := 0 |} ];
                 m_freeEntities := [];
                 m_componentPools := [] |}
              {| m_id := CreateEntityId 0 0; m_mask := 0 |}
              eq_refl eq_refl
              ltac:(vm_compute; split; [discriminate | reflexivity])
              ltac:(vm_compute; reflexivity))
    as (g' & w1 & p & w2 & Hrun & Hrem & _ & _ & _ & _ & Hback).
  exists g', w1, p, w2. split; [exact Hrun |]. split; [exact Hrem |].
  apply Hback. vm_compute. reflexivity.
Defined.

(** ** Error behaviour *)

Lemma Get_throws (T : string) (id : EntityID) (g : Globals) (w : World)
    (d : EntityDesc) :
  m_entities w !! Z.to_nat (GetEntityIndex id) = Some d ->
  MAX_COMPONENTS <= (GetId T g).1 ->
  Get T id g w = Throw.
Proof.
  intros Hd Hc. unfold Get. destruct (GetId T g) as [c g']. cbn [fst] in Hc.
  rewrite (vec_at_lookup _ _ _ Hd). cbn [mbind Result_bind].
  unfold bitset_test. destruct (Z.ltb_spec c MAX_COMPONENTS); [lia |].
  reflexivity.
Qed.

(** X11.  A component type whose identity does not fit the mask (the 65th
    type of a process and later ones) makes the calls that touch the mask
    throw [std::out_of_range]: [Get] and [Has] on any handle inside the
    table, [Assign] and [Remove] on a handle that is stored in its slot.
    [Assign] and [Remove] with a stale handle return before they touch the
    mask: [Assign] returns [nullptr], and both leave the world as it is. *)
Theorem beyond_mask_width (T : string) (sizeofT : Z) (v : Payload)
    (h : EntityID) (g : Globals) (w : World) (d : EntityDesc)
    (Hd : m_entities w !! Z.to_nat (GetEntityIndex h) = Some d)
    (Hc : MAX_COMPONENTS <= (GetId T g).1) :
  Get T h g w = Throw /\
  Has T h g w = Throw /\
  (m_id d = h -> Remove T h g w = Throw) /\
  (m_id d = h -> GetEntityIndex h < MAX_ENTITIES ->
   Assign T sizeofT v h g w = Throw) /\
  (m_id d <> h ->
   Assign T sizeofT v h g w = Ok ((GetId T g).2, w, None) /\
   Remove T h g w = Ok (g, w)).
Proof.
  pose proof (Get_throws T h g w d Hd Hc) as HGet.
  split; [exact HGet |]. split; [unfold Has; rewrite HGet; reflexivity |].
  split; [| split].
  - intros Hlive. unfold Remove. rewrite (vec_at_lookup _ _ _ Hd).
    cbn [mbind Result_bind].
    destruct (Z.eqb_spec (m_id d) h) as [_ | Hne]; [| contradiction].
    cbn [negb]. destruct (GetId T g) as [c g']. cbn [fst] in Hc.
    unfold bitset_reset_pos. destruct (Z.ltb_spec c MAX_COMPONENTS); [lia |].
    reflexivity.
  - intros Hlive Hidx.
    assert (Hc0 : 0 <= (GetId T g).1) by (unfold MAX_COMPONENTS in Hc; lia).
    destruct (Assign_fresh_cases T sizeofT v h g w d Hd Hlive Hc0)
      as (pools' & pool & ptr & _ & _ & ->).
    destruct (Z.leb_spec MAX_ENTITIES (GetEntityIndex h)); [lia |].
    destruct (Z.ltb_spec (GetId T g).1 MAX_COMPONENTS); [lia | reflexivity].
  - intros Hstale. split.
    + apply (Assign_stale_Ok _ _ _ _ _ _ d Hd Hstale).
    + apply (Remove_stale_Ok _ _ _ _ d Hd Hstale).
Qed.

Lemma beyond_mask_width_witness :
  Get "T65" (CreateEntityId 0 0)
    {| s_componentCounter := 64; s_componentId := ∅ |}
    {| m_entities := [ {| m_id := CreateEntityId 0 0; m_mask := 0 |} ];
       m_freeEntities := [];
       m_componentPools := [] |} = Throw.
Proof.
  assert (Hc : MAX_COMPONENTS
                <= (GetId "T65" {| s_componentCounter := 64;
                                   s_componentId := ∅ |}).1)
    by (vm_compute; intros H; discriminate H).
  apply (beyond_mask_width "T65" 1 [] (CreateEntityId 0 0)
           {| s_componentCounter := 64; s_componentId := ∅ |}
           {| m_entities := [ {| m_id := CreateEntityId 0 0; m_mask := 0 |} ];
              m_freeEntities := [];
              m_componentPools := [] |}
           {| m_id := CreateEntityId 0 0; m_mask := 0 |}
           eq_refl Hc).
Defined.

(** X12.  No operation of [World] compares the index of a handle with the
    size of the entity table before it indexes the table: with an index at
    or beyond the size, [DestroyEntity], [Assign], [Remove], [Get] and
    [Has] are all undefined. *)
Theorem index_beyond_table (T : string) (sizeofT : Z) (v : Payload)
    (h : EntityID) (g : Globals) (w : World)
    (Hout : vlen (m_entities w) <= GetEntityIndex h) :
  DestroyEntity h w = Undefined /\
  Assign T sizeofT v h g w = Undefined /\
  Remove T h g w = Undefined /\
  Get T h g w = Undefined /\
  Has T h g w = Undefined.
Proof.
  assert (HGet : Get T h g w = Undefined).
  { unfold Get. destruct (GetId T g) as [c g'].
    rewrite (vec_at_out_of_range (m_entities w)) by exact Hout. reflexivity. }
  split; [now apply DestroyEntity_out_of_range |].
  split; [now apply Assign_out_of_range |].
  split; [now apply Remove_out_of_range |].
  split; [exact HGet |]. unfold Has. now rewrite HGet.
Qed.

Lemma index_beyond_table_witness :
  DestroyEntity (CreateEntityId 3 0) World_new = Undefined.
Proof.
  apply (index_beyond_table "Transform" 40 [] (CreateEntityId 3 0)
           initial_globals World_new).
  vm_compute. discriminate.
Defined.

(** ** The iterator *)

Lemma first_valid_least (mask : ComponentMask) (all : bool)
    (slots : list EntityDesc) (i : Z) :
  i <= first_valid mask all i slots <= i + vlen slots /\
  (forall k d, i <= k < first_valid mask all i slots ->
     slots !! Z.to_nat (k - i) = Some d -> qualifies mask all d = false) /\
  (first_valid mask all i slots < i + vlen slots ->
   exists d, slots !! Z.to_nat (first_valid mask all i slots - i) = Some d /\
             qualifies mask all d = true).
Proof.
  revert i. induction slots as [| d rest IH]; intros i; cbn [first_valid].
  - unfold vlen. cbn [length]. split; [lia |]. split; [intros; lia | intros; lia].
  - replace (vlen (d :: rest)) with (1 + vlen rest)
      by (unfold vlen; cbn [length]; lia).
    pose proof (vlen_nonneg rest) as Hnn.
    destruct (qualifies mask all d) eqn:Hq.
    + split; [lia |]. split; [intros; lia |].
      intros _. exists d. rewrite Z.sub_diag. split; [reflexivity | exact Hq].
    + destruct (IH (i + 1)) as (Hrange & Hbefore & Hat).
      split; [lia |]. split.
      * intros k d' Hk Hd'. destruct (Z.eq_dec k i) as [-> | Hne].
        -- rewrite Z.sub_diag in Hd'. change (Z.to_nat 0) with 0%nat in Hd'.
           cbn in Hd'. injection Hd' as <-. exact Hq.
        -- apply (Hbefore k d'); [lia |].
           replace (Z.to_nat (k - i)) with (S (Z.to_nat (k - (i + 1)))) in Hd'
             by lia.
           exact Hd'.
      * intros Hlt. destruct Hat as (d' & Hd' & Hq'); [lia |].
        exists d'. split; [| exact Hq'].
        replace (Z.to_nat (first_valid mask all (i + 1) rest - i))
          with (S (Z.to_nat (first_valid mask all (i + 1) rest - (i + 1))))
          by lia.
        exact Hd'.
Qed.

Lemma ValidIndex_at (w : World) (v : RosterView) (d : EntityDesc) :
  m_entities w !! Z.to_nat (m_index v) = Some d ->
  ValidIndex w v = Ok (qualifies (m_componentMask v) (m_all v) d).
Proof.
  intros Hd. unfold ValidIndex, All. rewrite (vec_at_lookup _ _ _ Hd).
  reflexivity.
Qed.

(** X13.  [begin()] stops at the first slot that passes [ValidIndex], or
    one past the last slot when none does: every position before the
    returned one fails the test, and the returned position passes it unless
    it is the end.  The returned view keeps the mask and the
    match-everything flag. *)
Theorem RosterView_begin_first (Ts : list string) (fuel : nat) (g g1 : Globals)
    (w : World) (v : RosterView)
    (Hctor : RosterView_ctor Ts g = Ok (g1, v))
    (Hlen : vlen (m_entities w) <= MAX_ENTITIES)
    (Hfuel : (length (m_entities w) <= fuel)%nat) :
  exists b,
    RosterView_begin Ts fuel w v g1 = Ok (g1, b) /\
    m_componentMask b = m_componentMask v /\ m_all b = m_all v /\
    0 <= m_index b <= vlen (m_entities w) /\
    (forall k, 0 <= k < m_index b ->
       ValidIndex w {| m_index := k; m_componentMask := m_componentMask v;
                       m_all := m_all v |} = Ok false) /\
    (m_index b < vlen (m_entities w) -> ValidIndex w b = Ok true).
Proof.
  destruct (RosterView_ctor_shape _ _ _ _ Hctor) as [_ Hq].
  pose proof (begin_scan_spec w (m_componentMask v) Hlen (m_entities w) [] fuel
                eq_refl Hfuel) as Hbegin.
  change (vlen (@nil EntityDesc)) with 0 in Hbegin.
  rewrite (first_valid_ext _ false (m_all v) _ _ Hq) in Hbegin.
  destruct (first_valid_least (m_componentMask v) (m_all v) (m_entities w) 0)
    as (Hrange & Hbefore & Hat).
  set (j := first_valid (m_componentMask v) (m_all v) 0 (m_entities w)) in *.
  rewrite Z.add_0_l in *.
  eexists. split.
  - unfold RosterView_begin. rewrite Hbegin. cbn [mbind Result_bind].
    rewrite (RosterView_ctor_at_again _ _ _ _ _ _ Hctor).
    rewrite wrap32_small by (unfold MAX_ENTITIES in Hlen; lia). reflexivity.
  - cbn [m_index m_componentMask m_all].
    split; [reflexivity |]. split; [reflexivity |]. split; [exact Hrange |].
    split.
    + intros k Hk.
      destruct (lookup_lt_is_Some_2 (m_entities w) (Z.to_nat k)) as [d Hd];
        [unfold vlen in Hrange; lia |].
      rewrite (ValidIndex_at w _ d) by exact Hd. cbn [m_componentMask m_all].
      f_equal. apply (Hbefore k d Hk). now rewrite Z.sub_0_r.
    + intros Hlt. destruct (Hat Hlt) as (d & Hd & Hqd). rewrite Z.sub_0_r in Hd.
      rewrite (ValidIndex_at w _ d) by exact Hd. cbn [m_componentMask m_all].
      now rewrite Hqd.
Qed.

Lemma RosterView_begin_first_witness :
  exists b,
    RosterView_begin ["Transform"; "Shape"] 3
      {| m_entities := [ {| m_id := CreateEntityId 0 0; m_mask := 1 |};
                         {| m_id := CreateEntityId 1 0; m_mask := 3 |};
                         {| m_id := CreateEntityId 2 0; m_mask := 7 |} ];
         m_freeEntities := [];
         m_componentPools := [] |}
      {| m_index := 0; m_componentMask := 3; m_all := false |}
      (GetIds ["Transform"; "Shape"] initial_globals).2
    = Ok ((GetIds ["Transform"; "Shape"] initial_globals).2, b) /\
    m_index b = 1.
Proof.
  destruct (RosterView_begin_first ["Transform"; "Shape"] 3 initial_globals
              (GetIds ["Transform"; "Shape"] initial_globals).2
              {| m_entities := [ {| m_id := CreateEntityId 0 0; m_mask := 1 |};
                                 {| m_id := CreateEntityId 1 0; m_mask := 3 |};
                                 {| m_id := CreateEntityId 2 0; m_mask := 7 |} ];
                 m_freeEntities := [];
                 m_componentPools := [] |}
              {| m_index := 0; m_componentMask := 3; m_all := false |}
              ltac:(vm_compute; reflexivity)
              ltac:(vm_compute; intros H; discriminate H)
              ltac:(cbn; lia))
    as (b & Hrun & _).
  exists b. split; [exact Hrun |].
  vm_compute in Hrun. apply Ok_inj2 in Hrun as [_ <-]. reflexivity.
Defined.

(** X14.  [operator++] moves a view that stands on a slot to the next slot
    that passes [ValidIndex], or one past the last slot when there is none:
    the index grows, every position strictly between the old and the new
    one fails the test, and the new position passes it unless it is the
    end.  Mask and flag are kept. *)
Theorem RosterView_incr_next (fuel : nat) (w : World) (v : RosterView)
    (Hlen : vlen (m_entities w) <= MAX_ENTITIES)
    (Hpos : 0 <= m_index v < vlen (m_entities w))
    (Hfuel : (length (m_entities w) <= fuel)%nat) :
  exists v',
    RosterView_incr fuel w v = Ok v' /\
    m_componentMask v' = m_componentMask v /\ m_all v' = m_all v /\
    m_index v < m_index v' <= vlen (m_entities w) /\
    (forall k, m_index v < k < m_index v' ->
       ValidIndex w {| m_index := k; m_componentMask := m_componentMask v;
                       m_all := m_all v |} = Ok false) /\
    (m_index v' < vlen (m_entities w) -> ValidIndex w v' = Ok true).
Proof.
  destruct v as [i mask all]. cbn [m_index m_componentMask m_all] in *.
  destruct (lookup_lt_is_Some_2 (m_entities w) (Z.to_nat i)) as [d0 Hd0];
    [unfold vlen in Hpos; lia |].
  pose proof (take_drop_middle _ _ _ Hd0) as Hsplit. symmetry in Hsplit.
  set (prefix := take (Z.to_nat i) (m_entities w)) in *.
  set (suffix := drop (S (Z.to_nat i)) (m_entities w)) in *.
  assert (Hi : i = vlen prefix).
  { subst prefix. unfold vlen. rewrite length_take.
    pose proof (lookup_lt_Some _ _ _ Hd0). lia. }
  assert (Hvlen : vlen (m_entities w) = i + 1 + vlen suffix).
  { rewrite Hsplit at 1. rewrite vlen_app. unfold vlen in Hi |- *.
    cbn [length]. lia. }
  assert (Hfuel' : (length suffix < fuel)%nat).
  { unfold vlen in Hvlen. lia. }
  rewrite (RosterView_incr_spec w mask all Hlen suffix prefix d0 fuel i
             Hsplit Hi Hfuel').
  destruct (first_valid_least mask all suffix (i + 1)) as (Hrange & Hbefore & Hat).
  set (j := first_valid mask all (i + 1) suffix) in *.
  assert (Hsuffix : forall k, i + 1 <= k ->
            suffix !! Z.to_nat (k - (i + 1)) = m_entities w !! Z.to_nat k).
  { intros k Hk. subst suffix. rewrite lookup_drop. f_equal. lia. }
  eexists. split; [reflexivity |]. cbn [m_index m_componentMask m_all].
  split; [reflexivity |]. split; [reflexivity |]. split; [lia |]. split.
  - intros k Hk.
    destruct (lookup_lt_is_Some_2 (m_entities w) (Z.to_nat k)) as [d Hd];
      [unfold vlen in *; lia |].
    rewrite (ValidIndex_at w _ d) by exact Hd. cbn [m_componentMask m_all].
    f_equal. apply (Hbefore k d); [lia |]. rewrite Hsuffix by lia. exact Hd.
  - intros Hlt. destruct Hat as (d & Hd & Hqd); [lia |].
    rewrite Hsuffix in Hd by lia.
    rewrite (ValidIndex_at w _ d) by exact Hd. cbn [m_componentMask m_all].
    now rewrite Hqd.
Qed.

Lemma RosterView_incr_next_witness :
  exists v',
    RosterView_incr 3
      {| m_entities := [ {| m_id := CreateEntityId 0 0; m_mask := 1 |};
                         {| m_id := CreateEntityId INVALID_INDEX 1; m_mask := 0 |};
                         {| m_id := CreateEntityId 2 0; m_mask := 1 |} ];
         m_freeEntities := [0];
         m_componentPools := [] |}
      {| m_index := 0; m_componentMask := 1; m_all := false |} = Ok v' /\
    m_index v' = 2.
Proof.
  destruct (RosterView_incr_next 3
              {| m_entities := [ {| m_id := CreateEntityId 0 0; m_mask := 1 |};
                                 {| m_id := CreateEntityId INVALID_INDEX 1;
                                    m_mask := 0 |};
                                 {| m_id := CreateEntityId 2 0; m_mask := 1 |} ];
                 m_freeEntities := [0];
                 m_componentPools := [] |}
              {| m_index := 0; m_componentMask := 1; m_all := false |}
              ltac:(vm_compute; intros H; discriminate H)
              ltac:(vm_compute; split; [intros H; discriminate H | reflexivity])
              ltac:(cbn; lia))
    as (v' & Hrun & _).
  exists v'. split; [exact Hrun |].
  vm_compute in Hrun. apply Ok_inj in Hrun as <-. reflexivity.
Defined.

(** X15.  A destroyed entity is skipped by every view, whatever its mask
    was: after [DestroyEntity h], no traversal dereferences the iterator at
    the slot addressed by [h]. *)
Theorem DestroyEntity_hides_slot (Ts : list string) (fuel : nat) (g : Globals)
    (w w' : World) (h : EntityID)
    (Hdestroy : DestroyEntity h w = Ok w')
    (Hlen : vlen (m_entities w) <= MAX_ENTITIES)
    (Hfuel : (length (m_entities w) <= fuel)%nat)
    (Hids : Forall (fun c => c < MAX_COMPONENTS) (GetIds Ts g).1) :
  exists g1 visits,
    query_visits Ts fuel g w' = Ok (g1, visits) /\
    forall (i : EntityIndex) (e : EntityID),
      (i, e) ∈ visits -> i <> GetEntityIndex h.
Proof.
  destruct (DestroyEntity_inv _ _ _ Hdestroy) as (d0 & Hd0 & ->).
  pose proof (lookup_lt_Some _ _ _ Hd0) as Hlt.
  destruct (RosterView_ctor_Ok Ts g Hids) as [v Hctor].
  eexists _, _. split.
  - apply (query_visits_spec Ts fuel g _ _ v); [| | exact Hctor];
      cbn [m_entities]; unfold vlen in *; rewrite length_insert; assumption.
  - intros i e Hin Heq. subst i.
    apply visits_from_lookup in Hin as (_ & d & Hd & _ & Hq).
    rewrite Z.sub_0_r in Hd. cbn [m_entities] in Hd.
    rewrite list_lookup_insert_eq in Hd by exact Hlt.
    injection Hd as <-. unfold qualifies in Hq. cbn [m_id] in Hq.
    destruct (destroyed_id_decode h) as (_ & _ & Hinvalid).
    rewrite Hinvalid in Hq. discriminate.
Qed.

Lemma DestroyEntity_hides_slot_witness :
  exists w' g1 visits,
    DestroyEntity (CreateEntityId 1 0)
      {| m_entities := [ {| m_id := CreateEntityId 0 0; m_mask := 1 |};
                         {| m_id := CreateEntityId 1 0; m_mask := 1 |} ];
         m_freeEntities := [];
         m_componentPools := [] |} = Ok w' /\
    query_visits ["Transform"] 2 initial_globals w' = Ok (g1, visits) /\
    forall (i : EntityIndex) (e : EntityID),
      (i, e) ∈ visits -> i <> GetEntityIndex (CreateEntityId 1 0).
Proof.
  eexists. 
  assert (Hd : DestroyEntity (CreateEntityId 1 0)
                 {| m_entities := [ {| m_id := CreateEntityId 0 0; m_mask := 1 |};
                                    {| m_id := CreateEntityId 1 0; m_mask := 1 |} ];
                    m_freeEntities := [];
                    m_componentPools := [] |}
               = Ok {| m_entities :=
                         [ {| m_id := CreateEntityId 0 0; m_mask := 1 |};
                           {| m_id := CreateEntityId INVALID_INDEX 1; m_mask := 0 |} ];
                       m_freeEntities := [0];
                       m_componentPools := [] |})
    by (vm_compute; reflexivity).
  destruct (DestroyEntity_hides_slot ["Transform"] 2 initial_globals _ _ _ Hd
              ltac:(vm_compute; intros H; discriminate H)
              ltac:(cbn; lia)
              ltac:(vm_compute; repeat constructor))
    as (g1 & visits & Hq & Hnot).
  exists g1, visits. split; [exact Hd |]. split; [exact Hq | exact Hnot].
Defined.

Lemma set_each_Throw (cs : list ComponentID) (m : ComponentMask) :
  Exists (fun c => MAX_COMPONENTS <= c) cs -> set_each cs m = Throw.
Proof.
  intros H. revert m. induction H as [c cs Hc | c cs _ IH]; intros m;
    cbn [set_each]; unfold bitset_set.
  - destruct (Z.ltb_spec c MAX_COMPONENTS); [lia | reflexivity].
  - destruct (c <? MAX_COMPONENTS); [| reflexivity].
    cbn [mbind Result_bind]. apply IH.
Qed.

(** X16.  A view over component types of which one has an identity that
    does not fit the mask cannot be constructed: the constructor throws
    [std::out_of_range], and so does the range-based [for] over it. *)
Theorem RosterView_beyond_mask_width (Ts : list string) (fuel : nat)
    (g : Globals) (w : World)
    (Hbig : Exists (fun c => MAX_COMPONENTS <= c) (GetIds Ts g).1) :
  RosterView_ctor Ts g = Throw /\ query Ts fuel g w = Throw.
Proof.
  assert (Hctor : RosterView_ctor Ts g = Throw).
  { unfold RosterView_ctor. destruct Ts as [| T Ts].
    - cbn in Hbig. now apply Exists_nil in Hbig.
    - cbn [length Nat.eqb]. destruct (GetIds (T :: Ts) g) as [cs g'].
      cbn [fst] in Hbig.
      rewrite (set_each_Throw (0 :: cs) bitset_empty); [reflexivity |].
      now apply Exists_cons_tl. }
  split; [exact Hctor |]. unfold query, query_visits. now rewrite Hctor.
Qed.

Lemma RosterView_beyond_mask_width_witness :
  RosterView_ctor ["T65"] {| s_componentCounter := 64; s_componentId := ∅ |}
  = Throw.
Proof.
  apply (RosterView_beyond_mask_width ["T65"] 0
           {| s_componentCounter := 64; s_componentId := ∅ |} World_new).
  vm_compute. apply Exists_cons_hd. intros H. discriminate H.
Defined.

(** X17.  [operator==] and [operator!=] are each other's negation, and a
    view that stands one past the last slot compares equal to every view,
    whatever the index of the other one. *)
Theorem RosterView_eq_neq (w : World) (v other : RosterView) :
  RosterView_eq w v other = negb (RosterView_neq w v other) /\
  RosterView_eq w
    {| m_index := vlen (All w); m_componentMask := m_componentMask v;
       m_all := m_all v |} other = true /\
  RosterView_neq w
    {| m_index := vlen (All w); m_componentMask := m_componentMask v;
       m_all := m_all v |} other = false.
Proof.
  unfold RosterView_eq, RosterView_neq. cbn [m_index].
  rewrite Z.eqb_refl. split; [| split].
  - destruct (m_index v =? m_index other), (m_index v =? vlen (All w));
      reflexivity.
  - apply orb_true_r.
  - apply andb_false_r.
Qed.

(** ** DestroyEntity twice *)

(** X18.  [DestroyEntity] does not notice that an entity is already
    destroyed.  Called twice with the same handle it leaves the entity table
    as after the first call, but the free list has grown by two entries,
    and the pools are untouched by both calls. *)
Theorem DestroyEntity_twice (w : World) (h : EntityID) (d : EntityDesc)
    (Hd : m_entities w !! Z.to_nat (GetEntityIndex h) = Some d) :
  exists w1 w2,
    DestroyEntity h w = Ok w1 /\
    DestroyEntity h w1 = Ok w2 /\
    m_entities w2 = m_entities w1 /\
    m_freeEntities w1 = m_freeEntities w ++ [0] /\
    m_freeEntities w2 = m_freeEntities w ++ [0; 0] /\
    m_componentPools w1 = m_componentPools w /\
    m_componentPools w2 = m_componentPools w.
Proof.
  pose proof (lookup_lt_Some _ _ _ Hd) as Hlt.
  eexists _, _. split; [apply (DestroyEntity_Ok _ _ _ Hd) |].
  split.
  - apply (DestroyEntity_Ok _ _
             {| m_id := destroyed_id h; m_mask := bitset_empty |}).
    cbn [m_entities]. apply list_lookup_insert_eq. exact Hlt.
  - cbn [m_entities m_freeEntities m_componentPools].
    split; [apply list_insert_insert_eq |].
    split; [reflexivity |]. split; [| split; reflexivity].
    rewrite <- app_assoc. reflexivity.
Qed.

Lemma DestroyEntity_twice_witness :
  exists w1 w2,
    DestroyEntity (CreateEntityId 0 0)
      {| m_entities := [ {| m_id := CreateEntityId 0 0; m_mask := 1 |} ];
         m_freeEntities := [];
         m_componentPools := [] |} = Ok w1 /\
    DestroyEntity (CreateEntityId 0 0) w1 = Ok w2 /\
    m_freeEntities w2 = [0; 0].
Proof.
  destruct (DestroyEntity_twice
              {| m_entities := [ {| m_id := CreateEntityId 0 0; m_mask := 1 |} ];
                 m_freeEntities := [];
                 m_componentPools := [] |}
              (CreateEntityId 0 0)
              {| m_id := CreateEntityId 0 0; m_mask := 1 |} eq_refl)
    as (w1 & w2 & H1 & H2 & _ & _ & Hfree & _).
  exists w1, w2. split; [exact H1 |]. split; [exact H2 | exact Hfree].
Defined.

(** ** Reachable states

    The states below are those a client program reaches from process start
    on a fresh world, with all its calls returned and within the ceilings
    of the header. *)

Lemma IsEntityValid_true_iff (id : EntityID) :
  0 <= id < 2 ^ 64 ->
  IsEntityValid id = true <-> GetEntityIndex id <> INVALID_INDEX.
Proof.
  intros Hid.
  assert (Hr : 0 <= Z.shiftr id 32 < 2 ^ 32).
  { rewrite Z.shiftr_div_pow2 by lia.
    split; [apply Z.div_pos; lia | apply Z.div_lt_upper_bound; lia]. }
  unfold IsEntityValid, GetEntityIndex.
  rewrite (wrap32_small (Z.shiftr id 32)) by exact Hr.
  rewrite negb_true_iff, Z.eqb_neq. reflexivity.
Qed.

Lemma run_main_Inv (ops : list Op) (g : Globals) (w : World) (log : list Event) :
  run_main ops = Ok (g, w, log) -> within_ceilings g w -> Inv g w log.
Proof.
  intros Hrun Hceil.
  apply (run_Inv _ _ _ _ _ _ _ Hrun Hceil). apply Inv_initial.
Qed.

(** X19.  In a reachable state every slot of the entity table stores a
    64-bit handle that is either valid with the slot's own position as its
    index, or invalid (index [EntityIndex(-1)]) with an empty mask.  So a
    valid handle is stored in one slot only. *)
Theorem reachable_table (ops : list Op) (g : Globals) (w : World)
    (log : list Event)
    (Hrun : run_main ops = Ok (g, w, log))
    (Hceil : within_ceilings g w) :
  (forall (i : nat) d, m_entities w !! i = Some d ->
     0 <= m_id d < 2 ^ 64 /\
     ((IsEntityValid (m_id d) = true /\ GetEntityIndex (m_id d) = Z.of_nat i) \/
      (IsEntityValid (m_id d) = false /\
       GetEntityIndex (m_id d) = INVALID_INDEX /\
       m_mask d = bitset_empty))) /\
  (forall (i j : nat) d d',
     m_entities w !! i = Some d -> m_entities w !! j = Some d' ->
     IsEntityValid (m_id d) = true -> m_id d = m_id d' -> i = j).
Proof.
  destruct (run_main_Inv _ _ _ _ Hrun Hceil) as (_ & Hw & _).
  destruct Hceil as [Hlen _].
  assert (Hslot : forall (i : nat) d, m_entities w !! i = Some d ->
            0 <= m_id d < 2 ^ 64 /\
            ((IsEntityValid (m_id d) = true /\
              GetEntityIndex (m_id d) = Z.of_nat i) \/
             (IsEntityValid (m_id d) = false /\
              GetEntityIndex (m_id d) = INVALID_INDEX /\
              m_mask d = bitset_empty))).
  { intros i d Hd. pose proof (wi_range _ _ Hw _ _ Hd) as Hrange.
    split; [exact Hrange |].
    pose proof (lookup_lt_Some _ _ _ Hd) as Hlt.
    pose proof (IsEntityValid_true_iff _ Hrange) as Hvalid.
    destruct (wi_index _ _ Hw _ _ Hd) as [Hidx | Hidx].
    - left. split; [| exact Hidx]. apply Hvalid. rewrite Hidx.
      unfold vlen, MAX_ENTITIES, INVALID_INDEX in *. lia.
    - right. split; [| split; [exact Hidx | apply (wi_dead _ _ Hw _ _ Hd Hidx)]].
      destruct (IsEntityValid (m_id d)); [| reflexivity].
      exfalso. apply (proj1 Hvalid); [reflexivity | exact Hidx]. }
  split; [exact Hslot |].
  intros i j d d' Hd Hd' Hvalid Heq.
  destruct (Hslot i d Hd) as (_ & [(_ & Hi) | (Hinv & _)]); [| congruence].
  destruct (Hslot j d' Hd') as (_ & [(_ & Hj) | (Hinv & _)]); [| congruence].
  rewrite Heq in Hi. lia.
Qed.

Lemma reachable_table_witness :
  exists g w log,
    run_main [OpNewEntity; OpNewEntity; OpDestroyEntity (CreateEntityId 0 0)]
      = Ok (g, w, log) /\
    forall (i : nat) d, m_entities w !! i = Some d -> 0 <= m_id d < 2 ^ 64.
Proof.
  eexists _, _, _. split; [vm_compute; reflexivity |].
  intros i d Hd.
  eapply (reachable_table
            [OpNewEntity; OpNewEntity; OpDestroyEntity (CreateEntityId 0 0)]).
  - vm_compute. reflexivity.
  - split; vm_compute; intros H; discriminate H.
  - exact Hd.
Defined.

(** X20.  In a reachable state every bit that is set in a mask is the
    identity of a component type that has been used, lies below
    [MAX_COMPONENTS], and has its pool allocated.  So for a handle inside
    the table [Get<T>] returns a pointer exactly when the bit of [T] is set
    in the addressed slot: its test of the pool vector never fails. *)
Theorem reachable_masks (ops : list Op) (g : Globals) (w : World)
    (log : list Event)
    (Hrun : run_main ops = Ok (g, w, log))
    (Hceil : within_ceilings g w) :
  (forall (i : nat) d c, m_entities w !! i = Some d ->
     Z.testbit (m_mask d) c = true ->
     0 <= c < MAX_COMPONENTS /\
     (exists T, s_componentId g !! T = Some c) /\
     (exists pool, m_componentPools w !! Z.to_nat c = Some (Some pool))) /\
  (forall T c h d, s_componentId g !! T = Some c ->
     m_entities w !! Z.to_nat (GetEntityIndex h) = Some d ->
     exists p, Get T h g w = Ok (g, p) /\
               (p <> None <-> Z.testbit (m_mask d) c = true)).
Proof.
  destruct (run_main_Inv _ _ _ _ Hrun Hceil) as (Hreg & Hw & _).
  destruct Hceil as [_ Hcount].
  split.
  - intros i d c Hd Hbit.
    destruct (wi_bits _ _ Hw _ _ _ Hd Hbit) as [[T HT] Hpool].
    pose proof (reg_range _ Hreg _ _ HT) as Hc.
    split; [lia |]. split; [now exists T | exact Hpool].
  - intros T c h d HT Hd.
    pose proof (reg_range _ Hreg _ _ HT) as Hc.
    pose proof (GetId_registered _ _ _ HT) as Hid.
    assert (Hc' : 0 <= (GetId T g).1 < MAX_COMPONENTS)
      by (rewrite Hid; cbn [fst]; lia).
    destruct (Get_Ok T h g w d Hd Hc') as (p & HGet & Hp).
    rewrite Hid in HGet, Hp. cbn [fst snd] in HGet, Hp.
    exists p. split; [exact HGet |]. rewrite Hp. split; [tauto |].
    intros Hbit. split; [exact Hbit |]. apply (wi_bits _ _ Hw _ _ _ Hd Hbit).
Qed.

Lemma reachable_masks_witness :
  exists g w log,
    run_main [OpNewEntity; OpAssign "Transform" 40 [] (CreateEntityId 0 0)]
      = Ok (g, w, log) /\
    forall (i : nat) d c, m_entities w !! i = Some d ->
      Z.testbit (m_mask d) c = true -> 0 <= c < MAX_COMPONENTS.
Proof.
  eexists _, _, _. split; [vm_compute; reflexivity |].
  intros i d c Hd Hbit.
  eapply (reachable_masks
            [OpNewEntity; OpAssign "Transform" 40 [] (CreateEntityId 0 0)]).
  - vm_compute. reflexivity.
  - split; vm_compute; intros H; discriminate H.
  - exact Hd.
  - exact Hbit.
Defined.

(** X21.  In a reachable state the type counter equals the number of
    component types used so far, and these types have pairwise distinct
    identities, all below the counter. *)
Theorem reachable_registry (ops : list Op) (g : Globals) (w : World)
    (log : list Event)
    (Hrun : run_main ops = Ok (g, w, log))
    (Hceil : within_ceilings g w) :
  s_componentCounter g = Z.of_nat (size (s_componentId g)) /\
  (forall T c, s_componentId g !! T = Some c -> 0 <= c < s_componentCounter g) /\
  (forall T T' c, s_componentId g !! T = Some c ->
     s_componentId g !! T' = Some c -> T = T').
Proof.
  destruct (run_main_Inv _ _ _ _ Hrun Hceil) as ([Hcnt Hrange Hinj] & _ & _).
  split; [exact Hcnt |]. split; [| exact Hinj].
  intros T c HT. rewrite Hcnt. apply (Hrange _ _ HT).
Qed.

Lemma reachable_registry_witness :
  exists g w log,
    run_main [OpNewEntity;
              OpAssign "Transform" 40 [] (CreateEntityId 0 0);
              OpHas "Shape" (CreateEntityId 0 0)]
      = Ok (g, w, log) /\
    s_componentCounter g = Z.of_nat (size (s_componentId g)).
Proof.
  eexists _, _, _. split; [vm_compute; reflexivity |].
  eapply (reachable_registry
            [OpNewEntity;
             OpAssign "Transform" 40 [] (CreateEntityId 0 0);
             OpHas "Shape" (CreateEntityId 0 0)]).
  - vm_compute. reflexivity.
  - split; vm_compute; intros H; discriminate H.
Defined.

Lemma exec_globals (op : Op) (g g' : Globals) (w w' : World) (ev : Event) :
  exec op g w = Ok (g', w', ev) -> exists Ts, g' = (GetIds Ts g).2.
Proof.
  destruct op as [| id | T sizeofT v id | T id | T id | T id | Ts fuel];
    cbn [exec]; intros H.
  - exists []. bind_inv H. apply Ok_inj3 in H as (<- & _ & _). reflexivity.
  - exists []. bind_inv H. apply Ok_inj3 in H as (<- & _ & _). reflexivity.
  - exists [T].
    destruct (Assign T sizeofT v id g w) as [[[g1 w1] p] | | |] eqn:E;
      cbn [mbind Result_bind] in H; try discriminate.
    apply Ok_inj3 in H as (<- & _ & _).
    destruct (Assign_mono _ _ _ _ _ _ _ _ _ E) as [-> _].
    rewrite GetIds_cons. reflexivity.
  - destruct (Remove T id g w) as [[g1 w1] | | |] eqn:E;
      cbn [mbind Result_bind] in H; try discriminate.
    apply Ok_inj3 in H as (<- & _ & _).
    destruct (Remove_mono _ _ _ _ _ _ E) as [[-> | ->] _].
    + exists []. reflexivity.
    + exists [T]. rewrite GetIds_cons. reflexivity.
  - exists [T].
    destruct (Get T id g w) as [[g1 p] | | |] eqn:E;
      cbn [mbind Result_bind] in H; try discriminate.
    apply Ok_inj3 in H as (<- & _ & _).
    rewrite (Get_globals _ _ _ _ _ _ E), GetIds_cons. reflexivity.
  - exists [T].
    destruct (Has T id g w) as [[g1 b] | | |] eqn:E;
      cbn [mbind Result_bind] in H; try discriminate.
    apply Ok_inj3 in H as (<- & _ & _).
    rewrite (Has_globals _ _ _ _ _ _ E), GetIds_cons. reflexivity.
  - exists Ts.
    destruct (query Ts fuel g w) as [[g1 l] | | |] eqn:E;
      cbn [mbind Result_bind] in H; try discriminate.
    apply Ok_inj3 in H as (<- & _ & _).
    apply (query_globals _ _ _ _ _ _ E).
Qed.

(** X22.  Over any stretch of a run the entity table does not shrink, a
    component type keeps the identity it has, and the log grows by one
    entry per call. *)
Theorem run_keeps (ops : list Op) (g g' : Globals) (w w' : World)
    (log log' : list Event)
    (Hrun : run ops g w log = Ok (g', w', log')) :
  (length (m_entities w) <= length (m_entities w'))%nat /\
  (forall T c, s_componentId g !! T = Some c -> s_componentId g' !! T = Some c) /\
  (exists newer, log' = newer ++ log /\ length newer = length ops).
Proof.
  revert g w log Hrun.
  induction ops as [| op ops IH]; intros g w log Hrun; cbn [run] in Hrun.
  - apply Ok_inj3 in Hrun as (<- & <- & <-).
    split; [lia |]. split; [auto |]. exists []. split; reflexivity.
  - destruct (exec op g w) as [[[g1 w1] ev] | | |] eqn:E;
      cbn [mbind Result_bind] in Hrun; try discriminate.
    destruct (IH _ _ _ Hrun) as (Hlen & Hids & newer & -> & Hnewer).
    destruct (exec_mono _ _ _ _ _ _ E) as [Hlen1 _].
    destruct (exec_globals _ _ _ _ _ _ E) as [Ts ->].
    split; [lia |]. split.
    + intros T c HT. apply Hids. apply GetIds_keeps. exact HT.
    + exists (newer ++ [ev]). rewrite <- app_assoc. split; [reflexivity |].
      rewrite length_app. cbn [length]. lia.
Qed.

Lemma run_keeps_witness :
  exists g' w' log',
    run [OpNewEntity; OpHas "Shape" (CreateEntityId 0 0)]
      {| s_componentCounter := 1; s_componentId := {[ "Transform" := 0 ]} |}
      {| m_entities := [ {| m_id := CreateEntityId 0 0; m_mask := 1 |} ];
         m_freeEntities := [];
         m_componentPools := [Some (ComponentPool_new 40)] |} []
    = Ok (g', w', log') /\
    s_componentId g' !! "Transform" = Some 0.
Proof.
  eexists _, _, _. split; [vm_compute; reflexivity |].
  eapply (run_keeps [OpNewEntity; OpHas "Shape" (CreateEntityId 0 0)]
            {| s_componentCounter := 1; s_componentId := {[ "Transform" := 0 ]} |}
            _
            {| m_entities := [ {| m_id := CreateEntityId 0 0; m_mask := 1 |} ];
               m_freeEntities := [];
               m_componentPools := [Some (ComponentPool_new 40)] |}
            _ [] _).
  - vm_compute. reflexivity.
  - vm_compute. reflexivity.
Defined.

Lemma exec_free_cases (op : Op) (g g' : Globals) (w w' : World) (ev : Event) :
  exec op g w = Ok (g', w', ev) ->
  m_freeEntities w' = m_freeEntities w \/
  (exists x, m_freeEntities w = m_freeEntities w' ++ [x]) \/
  m_entities w <> [].
Proof.
  destruct op as [| id | T sizeofT v id | T id | T id | T id | Ts fuel];
    cbn [exec]; intros H.
  - destruct (NewEntity w) as [[w1 id] | | |] eqn:E;
      cbn [mbind Result_bind] in H; try discriminate.
    apply Ok_inj3 in H as (_ & <- & _). unfold NewEntity in E.
    destruct (pop_back (m_freeEntities w)) as [[idx free'] |] eqn:Hpop.
    + apply pop_back_Some in Hpop. bind_inv E. apply Ok_inj2 in E as (<- & _).
      right. left. exists idx. exact Hpop.
    + apply Ok_inj2 in E as (<- & _). left. reflexivity.
  - destruct (DestroyEntity id w) as [w1 | | |] eqn:E;
      cbn [mbind Result_bind] in H; try discriminate.
    destruct (DestroyEntity_inv _ _ _ E) as (d & Hd & _).
    right. right. intros Hnil. rewrite Hnil in Hd. discriminate.
  - destruct (Assign T sizeofT v id g w) as [[[g1 w1] p] | | |] eqn:E;
      cbn [mbind Result_bind] in H; try discriminate.
    apply Ok_inj3 in H as (_ & <- & _). unfold Assign in E. destruct (GetId T g).
    bind_inv E; apply Ok_inj3 in E as (_ & <- & _); left; reflexivity.
  - destruct (Remove T id g w) as [[g1 w1] | | |] eqn:E;
      cbn [mbind Result_bind] in H; try discriminate.
    apply Ok_inj3 in H as (_ & <- & _).
    destruct (Remove_inv _ _ _ _ _ _ E)
      as (d & _ & [(_ & _ & ->) | (_ & _ & _ & ->)]); left; reflexivity.
  - bind_inv H. apply Ok_inj3 in H as (_ & <- & _). left. reflexivity.
  - bind_inv H. apply Ok_inj3 in H as (_ & <- & _). left. reflexivity.
  - bind_inv H. apply Ok_inj3 in H as (_ & <- & _). left. reflexivity.
Qed.

Lemma run_free_table (ops : list Op) :
  forall (g g' : Globals) (w w' : World) (log log' : list Event),
    run ops g w log = Ok (g', w', log') ->
    (m_freeEntities w <> [] -> m_entities w <> []) ->
    m_freeEntities w' <> [] -> m_entities w' <> [].
Proof.
  induction ops as [| op ops IH]; intros g g' w w' log log' H Hq;
    cbn [run] in H.
  - apply Ok_inj3 in H as (_ & <- & _). exact Hq.
  - destruct (exec op g w) as [[[g1 w1] ev] | | |] eqn:E;
      cbn [mbind Result_bind] in H; try discriminate.
    apply (IH _ _ _ _ _ _ H). intros Hfree1.
    destruct (exec_mono _ _ _ _ _ _ E) as [Hlen _].
    assert (Hw : m_entities w <> []).
    { destruct (exec_free_cases _ _ _ _ _ _ E) as [Heq | [[x Heq] | Hne]].
      - apply Hq. rewrite <- Heq. exact Hfree1.
      - apply Hq. rewrite Heq. intros Hnil. apply app_eq_nil in Hnil as [_ Hnil].
        discriminate.
      - exact Hne. }
    intros Hnil. rewrite Hnil in Hlen. cbn [length] in Hlen.
    destruct (m_entities w); [contradiction | cbn [length] in Hlen; lia].
Qed.

(** X23.  In a reachable state with room for one more slot, [NewEntity]
    returns, and the handle it returns is valid and is the handle stored in
    the slot it addresses; the table keeps its size when a slot of the free
    list is taken and grows by one slot otherwise. *)
Theorem NewEntity_in_reachable (ops : list Op) (g : Globals) (w : World)
    (log : list Event)
    (Hrun : run_main ops = Ok (g, w, log))
    (Hceil : within_ceilings g w)
    (Hroom : vlen (m_entities w) < MAX_ENTITIES) :
  exists w' id d,
    NewEntity w = Ok (w', id) /\
    IsEntityValid id = true /\
    m_entities w' !! Z.to_nat (GetEntityIndex id) = Some d /\
    m_id d = id /\
    (if decide (m_freeEntities w = [])
     then length (m_entities w') = S (length (m_entities w))
     else length (m_entities w') = length (m_entities w)).
Proof.
  destruct (run_main_Inv _ _ _ _ Hrun Hceil) as (_ & Hw & _).
  pose proof (vlen_nonneg (m_entities w)) as Hnn.
  destruct (decide (m_freeEntities w = [])) as [Hfree | Hfree].
  - (* a slot is appended *)
    assert (Hr : 0 <= vlen (m_entities w) < 2 ^ 32)
      by (unfold MAX_ENTITIES in Hroom; lia).
    eexists _, _, _. split; [apply (NewEntity_append w Hfree) |].
    rewrite (wrap32_small (vlen (m_entities w))) by exact Hr.
    rewrite IsEntityValid_Create, GetEntityIndex_Create by lia.
    cbn [m_entities]. split; [| split; [| split]].
    + apply negb_true_iff, Z.eqb_neq. unfold MAX_ENTITIES in Hroom. lia.
    + unfold vlen. rewrite Nat2Z.id. apply list_lookup_middle. reflexivity.
    + reflexivity.
    + rewrite length_app. cbn [length]. lia.
  - (* slot 0 is reused *)
    assert (Hne : m_entities w <> []).
    { apply (run_free_table _ _ _ _ _ _ _ Hrun); [| exact Hfree].
      intros H. contradiction. }
    destruct (pop_back (m_freeEntities w)) as [[idx free'] |] eqn:Hpop;
      [| apply pop_back_None in Hpop; contradiction].
    apply pop_back_Some in Hpop.
    assert (idx = 0) as ->.
    { apply (wi_free _ _ Hw). rewrite Hpop. apply elem_of_app. right.
      apply list_elem_of_singleton. reflexivity. }
    destruct (m_entities w) as [| s rest] eqn:Hents; [contradiction |].
    assert (Hs : m_entities w !! Z.to_nat 0 = Some s) by (rewrite Hents; reflexivity).
    pose proof (GetEntityVersion_range (m_id s)) as Hver.
    eexists _, _, _. split; [apply (NewEntity_pop w free' 0 s Hpop Hs) |].
    rewrite IsEntityValid_Create, GetEntityIndex_Create by lia.
    cbn [m_entities]. rewrite Hents. split; [reflexivity |].
    split; [reflexivity |]. split; reflexivity.
Qed.

Lemma NewEntity_in_reachable_witness :
  exists g w log w' id,
    run_main [OpNewEntity; OpNewEntity; OpDestroyEntity (CreateEntityId 1 0)]
      = Ok (g, w, log) /\
    NewEntity w = Ok (w', id) /\ IsEntityValid id = true.
Proof.
  eexists _, _, _.
  assert (Hrun : run_main [OpNewEntity; OpNewEntity;
                           OpDestroyEntity (CreateEntityId 1 0)]
                 = Ok (initial_globals,
                       {| m_entities :=
                            [ {| m_id := CreateEntityId 0 0; m_mask := 0 |};
                              {| m_id := CreateEntityId INVALID_INDEX 1;
                                 m_mask := 0 |} ];
                          m_freeEntities := [0];
                          m_componentPools := [] |},
                       [EvDestroyEntity (CreateEntityId 1 0);
                        EvNewEntity (CreateEntityId 1 0);
                        EvNewEntity (CreateEntityId 0 0)]))
    by (vm_compute; reflexivity).
  destruct (NewEntity_in_reachable _ _ _ _ Hrun
              ltac:(split; vm_compute; intros H; discriminate H)
              ltac:(vm_compute; reflexivity))
    as (w' & id & d & Hnew & Hvalid & _).
  exists w', id. split; [exact Hrun |]. split; [exact Hnew | exact Hvalid].
Defined.

(** ** Has when every destroyed handle is the stored one *)

Lemma attached_scan_spec (detach : Event -> bool) (T : string)
    (h : EntityID) (log : list Event) :
  attached_scan detach T h log = true <-> attached detach T h log.
Proof.
  split.
  - induction log as [| ev log IH]; cbn [attached_scan]; [discriminate |].
    destruct (attaches T h ev) eqn:Ha.
    + intros _. exists [], ev, log; fin.
    + destruct (detach ev) eqn:Hdet; [discriminate |].
      intros H. destruct (IH H) as (newer & ev0 & older & -> & Ha0 & Hno).
      exists (ev :: newer), ev0, older. repeat split; [exact Ha0 |].
      cbn [forallb]. rewrite Hdet, Hno; fin.
  - intros (newer & ev0 & older & -> & Ha0 & Hno).
    induction newer as [| ev newer IH]; cbn [app attached_scan].
    + rewrite Ha0; fin.
    + cbn [forallb] in Hno. apply andb_true_iff in Hno as [Hdet Hno].
      apply negb_true_iff in Hdet. rewrite Hdet.
      destruct (attaches T h ev); [reflexivity | apply IH; fin].
Qed.

Lemma stored_spec (id : EntityID) (w : World) :
  stored id w = true <->
  exists d, m_entities w !! Z.to_nat (GetEntityIndex id) = Some d /\ m_id d = id.
Proof.
  unfold stored. destruct (m_entities w !! Z.to_nat (GetEntityIndex id)) as [d |].
  - rewrite Z.eqb_eq. split; [intros H; exists d; fin |].
    intros (d' & [= <-] & H); exact H.
  - split; [discriminate | intros (d' & H & _); discriminate H].
Qed.

(** Two handles stored in the same slot are the same handle. *)
Lemma stored_same_slot (id h : EntityID) (w : World) :
  stored id w = true -> stored h w = true ->
  GetEntityIndex id = GetEntityIndex h -> id = h.
Proof.
  rewrite !stored_spec. intros (d & Hd & <-) (d' & Hd' & <-) Hidx.
  rewrite Hidx in Hd. rewrite Hd in Hd'. injection Hd' as ->. reflexivity.
Qed.

(** A call that returns keeps the two scans of the log equal, when a
    [DestroyEntity] is on the stored handle. *)
Lemma exec_scan (op : Op) (g g' : Globals) (w w' : World) (ev : Event)
    (log : list Event) (T : string) (h : EntityID) :
  exec op g w = Ok (g', w', ev) ->
  AttInv g w log ->
  match op with OpDestroyEntity id => stored id w = true | _ => True end ->
  attached_scan (detaches_same T h) T h log = attachedb T h log ->
  attached_scan (detaches_same T h) T h (ev :: log) = attachedb T h (ev :: log).
Proof.
  intros H Hatt Hop IH. cbn [attached_scan attachedb].
  destruct (attaches T h ev) eqn:Ha; [reflexivity |].
  destruct op as [| id | T0 sizeofT v id | T0 id | T0 id | T0 id | Ts fuel];
    cbn [exec] in H; bind_inv H; apply Ok_inj3 in H as (_ & _ & <-);
    cbn [detaches_same detaches]; try exact IH.
  - destruct (Z.eqb_spec id h) as [-> | Hne].
    + rewrite Z.eqb_refl. reflexivity.
    + destruct (Z.eqb_spec (GetEntityIndex id) (GetEntityIndex h)) as [Hidx | _];
        [| exact IH].
      rewrite IH. destruct (attachedb T h log) eqn:Hb; [| reflexivity].
      exfalso. apply Hne. apply (stored_same_slot id h w Hop); [| exact Hidx].
      apply (Hatt T h) in Hb as (c & d & _ & Hd & Hid & _).
      apply stored_spec. exists d; fin.
  - destruct (bool_decide (T0 = T) && (id =? h)); [reflexivity | exact IH].
Qed.

Lemma run_scan (ops : list Op) :
  forall (g g' : Globals) (w w' : World) (log log' : list Event),
    run ops g w log = Ok (g', w', log') ->
    within_ceilings g' w' ->
    Inv g w log ->
    destroys_stored ops g w = true ->
    (forall T h, attached_scan (detaches_same T h) T h log = attachedb T h log) ->
    forall T h, attached_scan (detaches_same T h) T h log' = attachedb T h log'.
Proof.
  induction ops as [| op ops IH]; intros g g' w w' log log' H Hceil Hinv Hds Hlog;
    cbn [run] in H.
  - apply Ok_inj3 in H as (_ & _ & <-). exact Hlog.
  - cbn [destroys_stored] in Hds. apply andb_true_iff in Hds as [Hop Hds].
    destruct (exec op g w) as [[[g1 w1] ev] | | |] eqn:E;
      cbn [mbind Result_bind] in H; try discriminate.
    destruct (run_mono _ _ _ _ _ _ _ H) as [Hlen Hsize].
    apply (IH _ _ _ _ _ _ H Hceil).
    + apply (exec_Inv _ _ _ _ _ _ _ E); [| exact Hinv].
      apply (within_ceilings_mono _ _ _ _ Hlen Hsize Hceil).
    + exact Hds.
    + intros T h. apply (exec_scan _ _ _ _ _ _ _ _ _ E); [apply Hinv | | apply Hlog].
      destruct op; try exact I. exact Hop.
Qed.

(** X30.  Take any client program run from process start on a fresh world,
    all of whose calls returned, ending within the ceilings, in which every
    [DestroyEntity] was called with the handle stored in the addressed slot
    at that moment, and a handle [h] that is stored in the slot it
    addresses.  Then [Has<T>(h)] returns, and it returns [true] exactly
    when the log has a successful [Assign<T>(h, ...)] after which there is
    neither a [Remove<T>(h)] nor a [DestroyEntity(h)]. *)
Theorem Has_iff_attached_same (ops : list Op) (g : Globals) (w : World)
    (log : list Event) (T : string) (h : EntityID) (d : EntityDesc)
    (Hrun : run_main ops = Ok (g, w, log))
    (Hdestroy : destroys_stored ops initial_globals World_new = true)
    (Hceil : within_ceilings (GetId T g).2 w)
    (Hd : m_entities w !! Z.to_nat (GetEntityIndex h) = Some d)
    (Hlive : m_id d = h) :
  exists b, Has T h g w = Ok ((GetId T g).2, b) /\
    (b = true <-> attached (detaches_same T h) T h log).
Proof.
  exists (attachedb T h log). split.
  - apply (Has_attachedb ops g w log T h d Hrun Hceil Hd Hlive).
  - rewrite <- attached_scan_spec.
    rewrite (run_scan ops _ _ _ _ _ _ Hrun); [reflexivity | | apply Inv_initial
                                              | exact Hdestroy | reflexivity].
    apply (within_ceilings_mono g (GetId T g).2 w w);
      [reflexivity | apply GetId_size | exact Hceil].
Qed.

Lemma Has_iff_attached_same_witness :
  exists g w log,
    run_main [OpNewEntity;
              OpAssign "Transform" 40 [] (CreateEntityId 0 0);
              OpNewEntity;
              OpDestroyEntity (CreateEntityId 0 0);
              OpNewEntity;
              OpAssign "Shape" 1 [] (CreateEntityId 0 1)]
      = Ok (g, w, log) /\
    exists b,
      Has "Transform" (CreateEntityId 0 1) g w
        = Ok ((GetId "Transform" g).2, b) /\
      (b = true <->
         attached (detaches_same "Transform" (CreateEntityId 0 1)) "Transform"
           (CreateEntityId 0 1) log).
Proof.
  eexists _, _, _. split; [vm_compute; reflexivity |].
  eapply (Has_iff_attached_same
            [OpNewEntity;
             OpAssign "Transform" 40 [] (CreateEntityId 0 0);
             OpNewEntity;
             OpDestroyEntity (CreateEntityId 0 0);
             OpNewEntity;
             OpAssign "Shape" 1 [] (CreateEntityId 0 1)]
            _ _ _ "Transform" (CreateEntityId 0 1)).
  - vm_compute. reflexivity.
  - vm_compute. reflexivity.
  - split; vm_compute; intros H; discriminate H.
  - vm_compute. reflexivity.
  - vm_compute. reflexivity.
Defined.

(** ** Instances of the lemmas on views, recycling and destroyed handles *)

Lemma query_all_valid_witness :
  query [] 2 initial_globals
    {| m_entities := [ {| m_id := CreateEntityId 0 0; m_mask := 0 |};
                       {| m_id := CreateEntityId INVALID_INDEX 1; m_mask := 0 |} ];
       m_freeEntities := [0];
       m_componentPools := [] |}
  = Ok (initial_globals, [CreateEntityId 0 0]).
Proof.
  rewrite (query_all_valid 2 initial_globals
             {| m_entities :=
                  [ {| m_id := CreateEntityId 0 0; m_mask := 0 |};
                    {| m_id := CreateEntityId INVALID_INDEX 1; m_mask := 0 |} ];
                m_freeEntities := [0];
                m_componentPools := [] |}
             ltac:(vm_compute; intros H; discriminate H)
             ltac:(cbn; lia)).
  vm_compute. reflexivity.
Defined.

Lemma query_selects_witness :
  exists l,
    query ["Shape"] 2
      {| s_componentCounter := 2;
         s_componentId := <["Shape" := 1]> (<["Transform" := 0]> ∅) |}
      {| m_entities := [ {| m_id := CreateEntityId 0 0; m_mask := 3 |};
                         {| m_id := CreateEntityId 1 0; m_mask := 2 |} ];
         m_freeEntities := [];
         m_componentPools := [] |}
    = Ok ({| s_componentCounter := 2;
             s_componentId := <["Shape" := 1]> (<["Transform" := 0]> ∅) |}, l) /\
    l = [CreateEntityId 0 0].
Proof.
  eexists. split.
  - rewrite (query_selects ["Shape"] 2
               {| s_componentCounter := 2;
                  s_componentId := <["Shape" := 1]> (<["Transform" := 0]> ∅) |}
               {| m_entities := [ {| m_id := CreateEntityId 0 0; m_mask := 3 |};
                                  {| m_id := CreateEntityId 1 0; m_mask := 2 |} ];
                  m_freeEntities := [];
                  m_componentPools := [] |}
               ltac:(discriminate)
               ltac:(vm_compute; intros H; discriminate H)
               ltac:(cbn; lia)).
    + vm_compute. reflexivity.
    + vm_compute. repeat constructor; intros H; discriminate H.
  - reflexivity.
Defined.

Lemma recycle_slot_zero_witness :
  exists w' w'' h',
    DestroyEntity (CreateEntityId 0 4)
      {| m_entities := [ {| m_id := CreateEntityId 0 4; m_mask := 1 |} ];
         m_freeEntities := [];
         m_componentPools := [] |} = Ok w' /\
    NewEntity w' = Ok (w'', h') /\
    h' = CreateEntityId 0 5.
Proof.
  destruct (recycle_slot_zero
              {| m_entities := [ {| m_id := CreateEntityId 0 4; m_mask := 1 |} ];
                 m_freeEntities := [];
                 m_componentPools := [] |}
              (CreateEntityId 0 4)
              {| m_id := CreateEntityId 0 4; m_mask := 1 |}
              ltac:(vm_compute; reflexivity) eq_refl)
    as (w' & w'' & h' & Hd & Hn & Hh & _).
  exists w', w'', h'. split; [exact Hd |]. split; [exact Hn |].
  rewrite Hh. vm_compute. reflexivity.
Defined.

Lemma DestroyEntity_then_null_witness :
  exists w',
    DestroyEntity (CreateEntityId 0 0)
      {| m_entities := [ {| m_id := CreateEntityId 0 0; m_mask := 1 |} ];
         m_freeEntities := [];
         m_componentPools := [Some (ComponentPool_new 40)] |} = Ok w' /\
    Get "Transform" (CreateEntityId 0 0)
      {| s_componentCounter := 1; s_componentId := {[ "Transform" := 0 ]} |} w'
    = Ok ((GetId "Transform"
             {| s_componentCounter := 1;
                s_componentId := {[ "Transform" := 0 ]} |}).2, None).
Proof.
  eexists.
  assert (Hd : DestroyEntity (CreateEntityId 0 0)
                 {| m_entities := [ {| m_id := CreateEntityId 0 0; m_mask := 1 |} ];
                    m_freeEntities := [];
                    m_componentPools := [Some (ComponentPool_new 40)] |}
               = Ok {| m_entities :=
                         [ {| m_id := CreateEntityId INVALID_INDEX 1; m_mask := 0 |} ];
                       m_freeEntities := [0];
                       m_componentPools := [Some (ComponentPool_new 40)] |})
    by (vm_compute; reflexivity).
  split; [exact Hd |].
  apply (DestroyEntity_then_null _ _ _
           {| s_componentCounter := 1; s_componentId := {[ "Transform" := 0 ]} |}
           "Transform" 40 [] Hd).
  - vm_compute. intros H. discriminate H.
  - vm_compute. split; [intros H; discriminate H | reflexivity].
Defined.

Lemma NewEntity_recycles_slot_zero_witness :
  exists g w log w' id,
    run_main [OpNewEntity; OpNewEntity; OpDestroyEntity (CreateEntityId 1 0)]
      = Ok (g, w, log) /\
    NewEntity w = Ok (w', id) /\
    GetEntityIndex id = 0.
Proof.
  eexists _, _, _, _, _.
  assert (Hrun : run_main [OpNewEntity; OpNewEntity;
                           OpDestroyEntity (CreateEntityId 1 0)]
                 = Ok (initial_globals,
                       {| m_entities :=
                            [ {| m_id := CreateEntityId 0 0; m_mask := 0 |};
                              {| m_id := CreateEntityId INVALID_INDEX 1;
                                 m_mask := 0 |} ];
                          m_freeEntities := [0];
                          m_componentPools := [] |},
                       [EvDestroyEntity (CreateEntityId 1 0);
                        EvNewEntity (CreateEntityId 1 0);
                        EvNewEntity (CreateEntityId 0 0)]))
    by (vm_compute; reflexivity).
  assert (Hnew : NewEntity
                   {| m_entities :=
                        [ {| m_id := CreateEntityId 0 0; m_mask := 0 |};
                          {| m_id := CreateEntityId INVALID_INDEX 1; m_mask := 0 |} ];
                      m_freeEntities := [0];
                      m_componentPools := [] |}
                 = Ok ({| m_entities :=
                            [ {| m_id := CreateEntityId 0 0; m_mask := 0 |};
                              {| m_id := CreateEntityId INVALID_INDEX 1;
                                 m_mask := 0 |} ];
                          m_freeEntities := [];
                          m_componentPools := [] |}, CreateEntityId 0 0))
    by (vm_compute; reflexivity).
  split; [exact Hrun |]. split; [exact Hnew |].
  apply (NewEntity_recycles_slot_zero _ _ _ _ _ _ Hrun ltac:(discriminate) Hnew).
Defined.
